(** * Upipe: buffers, picture flows, the avformat source and pipe transfer

    A shallow embedding of the parts of Upipe found in
    - [include/upipe/uref_pic_flow.h]
    - [include/upipe/ubuf_block_common.h]
    - [lib/upipe/ubuf_pic_mem.c]
    - [lib/upipe-av/upipe_avformat_source.c]
    - [include/upipe-modules/upipe_transfer.h]
    together with the properties the specification states about them.

    Conventions.  C integers are [Z] with the wrap-around of their width
    written out; pointers are [nat] handles into finite maps (or [Z] octet
    addresses for raw memory); a function that can fail an [assert] or run
    into undefined behaviour returns an [outcome], whose [Abort] stands for
    the aborted process. *)

From Stdlib Require Import ZArith Lia Bool.
From stdpp Require Import base option list gmap strings.

Local Open Scope Z_scope.

(** ** Machine integers *)

Module CInt.

Definition UINT8_MOD : Z := 2 ^ 8.
Definition UINT32_MOD : Z := 2 ^ 32.
Definition UINT64_MOD : Z := 2 ^ 64.
Definition UINT64_MAX : Z := 2 ^ 64 - 1.
Definition INT_MAX : Z := 2 ^ 31 - 1.
Definition INT_MIN : Z := - 2 ^ 31.

(** Conversion to [uint8_t], [uint32_t], [size_t]/[uint64_t]/[uintptr_t]. *)
Definition to_uint8 (z : Z) : Z := z mod UINT8_MOD.
Definition to_uint32 (z : Z) : Z := z mod UINT32_MOD.
Definition to_size_t (z : Z) : Z := z mod UINT64_MOD.
Definition to_uint64 (z : Z) : Z := z mod UINT64_MOD.

(** Conversion of a value to [int] (two's complement). *)
Definition to_int (z : Z) : Z := (z + 2 ^ 31) mod 2 ^ 32 - 2 ^ 31.

Definition is_int (z : Z) : Prop := INT_MIN <= z <= INT_MAX.
Definition is_uint8 (z : Z) : Prop := 0 <= z < UINT8_MOD.
Definition is_size_t (z : Z) : Prop := 0 <= z < UINT64_MOD.

(** Arithmetic on [int]s: a result that does not fit is undefined (signed
    overflow), and so are a division by 0 and [INT_MIN / -1]; the division
    truncates. *)
Definition int_result (z : Z) : option Z :=
  if (INT_MIN <=? z) && (z <=? INT_MAX) then Some z else None.
Definition int_add (a b : Z) : option Z := int_result (a + b).
Definition int_mul (a b : Z) : option Z := int_result (a * b).
Definition int_div (a b : Z) : option Z :=
  if b =? 0 then None else int_result (Z.quot a b).

End CInt.
Export CInt.

(** ** Outcomes of C functions

    [Done a s] is a normal return with value [a] in state [s]; [Abort] is a
    failed [assert] (when assertions are compiled in) or undefined
    behaviour such as a null dereference or a division by zero. *)

Inductive outcome (S A : Type) : Type :=
| Done (a : A) (s : S)
| Abort.
Arguments Done {S A} a s.
Arguments Abort {S A}.

Definition M (S A : Type) : Type := S -> outcome S A.

Definition ret {S A} (a : A) : M S A := fun s => Done a s.
Definition bind {S A B} (m : M S A) (k : A -> M S B) : M S B :=
  fun s => match m s with
           | Done a s' => k a s'
           | Abort => Abort
           end.
Definition get {S} : M S S := fun s => Done s s.
Definition put {S} (s : S) : M S unit := fun _ => Done tt s.
Definition modify {S} (f : S -> S) : M S unit := fun s => Done tt (f s).
Definition abort {S A} : M S A := fun _ => Abort.

(** [assert(c)]: checked unless the program is built with [NDEBUG]. *)
Definition c_assert {S} (ndebug : bool) (c : bool) : M S unit :=
  if ndebug then ret tt else if c then ret tt else abort.

Declare Scope cmd_scope.
Delimit Scope cmd_scope with cmd.
Notation "'do' x <- m ; k" := (bind m (fun x => k))
  (at level 10, x name, m at level 100, k at level 200) : cmd_scope.
Notation "'do' ' p <- m ; k" := (bind m (fun x => match x with p => k end))
  (at level 10, p pattern, m at level 100, k at level 200) : cmd_scope.
Notation "'exec' m ; k" := (bind m (fun _ => k))
  (at level 10, m at level 100, k at level 200) : cmd_scope.

(** ** [urefcount]

    Modelled from the spec: the reference counter ([upipe/urefcount.h] is
    not part of the sources at hand) is "an atomic counter with [init(1)],
    [use()] (fetch-add), [release() -> was_last?], [single() -> count == 1],
    [reset()] (sets to 1)". *)

Module Urefcount.

Definition urefcount := Z.

Definition urefcount_init : urefcount := 1.
Definition urefcount_reset (_ : urefcount) : urefcount := 1.
Definition urefcount_use (r : urefcount) : urefcount := r + 1.
Definition urefcount_single (r : urefcount) : bool := r =? 1.
(** returns the new counter and whether this was the last reference *)
Definition urefcount_release (r : urefcount) : urefcount * bool :=
  (r - 1, r =? 1).

End Urefcount.
Export Urefcount.

(** ** [uref] and its attribute dictionary *)

Module Uref.

(** Attribute payloads, tagged by their [udict] type. *)
Inductive attr : Type :=
| AttrSmallUnsigned (v : Z)
| AttrUnsigned (v : Z)
| AttrInt (v : Z)
| AttrRational (num den : Z)
| AttrString (s : string)
| AttrOpaque (bytes : list Z).

Inductive udict_type : Type :=
| UDICT_TYPE_SMALL_UNSIGNED | UDICT_TYPE_UNSIGNED | UDICT_TYPE_INT
| UDICT_TYPE_RATIONAL | UDICT_TYPE_STRING | UDICT_TYPE_OPAQUE.

Definition attr_type (a : attr) : udict_type :=
  match a with
  | AttrSmallUnsigned _ => UDICT_TYPE_SMALL_UNSIGNED
  | AttrUnsigned _ => UDICT_TYPE_UNSIGNED
  | AttrInt _ => UDICT_TYPE_INT
  | AttrRational _ _ => UDICT_TYPE_RATIONAL
  | AttrString _ => UDICT_TYPE_STRING
  | AttrOpaque _ => UDICT_TYPE_OPAQUE
  end.

Definition udict_type_eqb (a b : udict_type) : bool :=
  match a, b with
  | UDICT_TYPE_SMALL_UNSIGNED, UDICT_TYPE_SMALL_UNSIGNED
  | UDICT_TYPE_UNSIGNED, UDICT_TYPE_UNSIGNED
  | UDICT_TYPE_INT, UDICT_TYPE_INT
  | UDICT_TYPE_RATIONAL, UDICT_TYPE_RATIONAL
  | UDICT_TYPE_STRING, UDICT_TYPE_STRING
  | UDICT_TYPE_OPAQUE, UDICT_TYPE_OPAQUE => true
  | _, _ => false
  end.

(** Modelled from the spec: the dictionary ([upipe/udict.h], missing) is an
    "ordered sequence of attributes" in which "duplicates by (type,name) are
    forbidden".  [udict_room] counts the attributes that can still be added
    before the backing storage is exhausted and a [set] fails. *)
Record uref : Type := mk_uref {
  udict : list (string * attr);
  udict_room : nat
}.

Definition attr_matches (name : string) (ty : udict_type)
    (e : string * attr) : bool :=
  String.eqb (fst e) name && udict_type_eqb (attr_type (snd e)) ty.

Definition udict_get (d : list (string * attr)) (name : string)
    (ty : udict_type) : option attr :=
  snd <$> List.find (attr_matches name ty) d.

Fixpoint udict_replace (d : list (string * attr)) (name : string)
    (a : attr) : list (string * attr) :=
  match d with
  | [] => []
  | e :: d' =>
      if attr_matches name (attr_type a) e then (name, a) :: d'
      else e :: udict_replace d' name a
  end.

(** Modelled from the spec: [set_<T>] overwrites an attribute of the same
    (type, name) and otherwise appends one, failing when no room is left. *)
Definition uref_attr_set (u : uref) (name : string) (a : attr)
    : bool * uref :=
  match udict_get (udict u) name (attr_type a) with
  | Some _ => (true, mk_uref (udict_replace (udict u) name a) (udict_room u))
  | None =>
      match udict_room u with
      | O => (false, u)
      | S r => (true, mk_uref (udict u ++ [(name, a)]) r)
      end
  end.

Definition uref_attr_get_small_unsigned (u : uref) (name : string)
    : option Z :=
  match udict_get (udict u) name UDICT_TYPE_SMALL_UNSIGNED with
  | Some (AttrSmallUnsigned v) => Some v
  | _ => None
  end.

Definition uref_attr_get_unsigned (u : uref) (name : string) : option Z :=
  match udict_get (udict u) name UDICT_TYPE_UNSIGNED with
  | Some (AttrUnsigned v) => Some v
  | _ => None
  end.

Definition uref_attr_get_string (u : uref) (name : string)
    : option string :=
  match udict_get (udict u) name UDICT_TYPE_STRING with
  | Some (AttrString v) => Some v
  | _ => None
  end.

(** Decimal rendering of a [uint8_t], as [printf("%" PRIu8)] does. *)
Definition digit (n : Z) : string :=
  String (Ascii.ascii_of_N (Z.to_N (48 + n mod 10))) EmptyString.

Definition print_u8 (n : Z) : string :=
  if n <? 10 then digit n
  else if n <? 100 then digit (n / 10) +:+ digit n
  else digit (n / 100) +:+ digit (n / 10) +:+ digit n.

End Uref.
Export Uref.

(** ** Picture flow definitions ([uref_pic_flow.h]) *)

Module PicFlow.

(** [UREF_ATTR_SMALL_UNSIGNED(pic_flow, planes, "p.planes", ...)] *)
Definition uref_pic_flow_get_planes (u : uref) : option Z :=
  uref_attr_get_small_unsigned u "p.planes".
Definition uref_pic_flow_set_planes (u : uref) (v : Z) : bool * uref :=
  uref_attr_set u "p.planes" (AttrSmallUnsigned (to_uint8 v)).

Definition uref_pic_flow_get_macropixel (u : uref) : option Z :=
  uref_attr_get_small_unsigned u "p.macropixel".
Definition uref_pic_flow_set_macropixel (u : uref) (v : Z) : bool * uref :=
  uref_attr_set u "p.macropixel" (AttrSmallUnsigned (to_uint8 v)).

(** [UREF_ATTR_SMALL_UNSIGNED_VA(pic_flow, hsubsampling, "p.hsub[%" PRIu8 "]", ...)]
    and its siblings: the attribute name is formatted from the plane. *)
Definition hsub_name (plane : Z) : string := "p.hsub[" +:+ print_u8 plane +:+ "]".
Definition vsub_name (plane : Z) : string := "p.vsub[" +:+ print_u8 plane +:+ "]".
Definition macropix_name (plane : Z) : string :=
  "p.macropix[" +:+ print_u8 plane +:+ "]".
Definition chroma_name (plane : Z) : string :=
  "p.chroma[" +:+ print_u8 plane +:+ "]".

Definition uref_pic_flow_set_hsubsampling (u : uref) (v plane : Z) :=
  uref_attr_set u (hsub_name plane) (AttrSmallUnsigned (to_uint8 v)).
Definition uref_pic_flow_get_hsubsampling (u : uref) (plane : Z) :=
  uref_attr_get_small_unsigned u (hsub_name plane).
Definition uref_pic_flow_set_vsubsampling (u : uref) (v plane : Z) :=
  uref_attr_set u (vsub_name plane) (AttrSmallUnsigned (to_uint8 v)).
Definition uref_pic_flow_get_vsubsampling (u : uref) (plane : Z) :=
  uref_attr_get_small_unsigned u (vsub_name plane).
Definition uref_pic_flow_set_macropixel_size (u : uref) (v plane : Z) :=
  uref_attr_set u (macropix_name plane) (AttrSmallUnsigned (to_uint8 v)).
Definition uref_pic_flow_get_macropixel_size (u : uref) (plane : Z) :=
  uref_attr_get_small_unsigned u (macropix_name plane).
Definition uref_pic_flow_set_chroma (u : uref) (v : string) (plane : Z) :=
  uref_attr_set u (chroma_name plane) (AttrString v).
Definition uref_pic_flow_get_chroma (u : uref) (plane : Z) :=
  uref_attr_get_string u (chroma_name plane).

(** [a && b] on two calls that mutate the same [uref]: the second runs only
    when the first returned true. *)
Definition and_then (r : bool * uref) (k : uref -> bool * uref)
    : bool * uref :=
  if fst r then k (snd r) else (false, snd r).

(** [uref_pic_flow_add_plane]; [chroma] is [None] for a NULL pointer.  The
    three numbers are [uint8_t] parameters: whatever the caller passes is
    converted on entry, before the test for 0.  The result pairs the
    returned boolean with the [uref] as the call leaves it. *)
Definition uref_pic_flow_add_plane (u : uref) (hsub vsub macropixel_size : Z)
    (chroma : option string) : bool * uref :=
  let hsub := to_uint8 hsub in
  let vsub := to_uint8 vsub in
  let macropixel_size := to_uint8 macropixel_size in
  match chroma with
  | None => (false, u)
  | Some c =>
      if (hsub =? 0) || (vsub =? 0) || (macropixel_size =? 0) then (false, u)
      else
        match uref_pic_flow_get_planes u with
        | None => (false, u)
        | Some plane =>
            and_then (uref_pic_flow_set_planes u (plane + 1)) (fun u =>
            and_then (uref_pic_flow_set_hsubsampling u hsub plane) (fun u =>
            and_then (uref_pic_flow_set_vsubsampling u vsub plane) (fun u =>
            and_then (uref_pic_flow_set_macropixel_size u macropixel_size plane)
              (fun u => uref_pic_flow_set_chroma u c plane))))
        end
  end.

(** [uref_pic_flow_find_chroma]: the plane whose chroma is [chroma]. *)
Fixpoint find_chroma_from (u : uref) (chroma : string) (plane : Z)
    (todo : nat) : option Z :=
  match todo with
  | O => None
  | S todo' =>
      match uref_pic_flow_get_chroma u plane with
      | None => None
      | Some c =>
          if String.eqb chroma c then Some plane
          else find_chroma_from u chroma (plane + 1) todo'
      end
  end.

Definition uref_pic_flow_find_chroma (u : uref) (chroma : string)
    : option Z :=
  match uref_pic_flow_get_planes u with
  | None => None
  | Some planes => find_chroma_from u chroma 0 (Z.to_nat planes)
  end.

(** A freshly allocated picture flow definition, as
    [uref_pic_flow_alloc_def] fills it in a control packet with room for
    [room] attributes ("f.def" is the flow definition attribute). *)
Definition uref_pic_flow_alloc_def (room : nat) (macropixel : Z)
    : option uref :=
  let r :=
    and_then (uref_attr_set (mk_uref [] room) "f.def" (AttrString "pic."))
      (fun u => and_then (uref_pic_flow_set_macropixel u macropixel)
      (fun u => uref_pic_flow_set_planes u 0)) in
  if fst r then Some (snd r) else None.

(** A registration that goes through, on a concrete packet. *)
Example add_plane_yv12 :
  (u0 ← uref_pic_flow_alloc_def 20 1;
   let r1 := uref_pic_flow_add_plane u0 1 1 1 (Some "y8") in
   let r2 := uref_pic_flow_add_plane (snd r1) 2 2 1 (Some "u8") in
   let r3 := uref_pic_flow_add_plane (snd r2) 2 2 1 (Some "v8") in
   Some (fst r3, uref_pic_flow_get_planes (snd r3),
         uref_pic_flow_find_chroma (snd r3) "v8",
         uref_pic_flow_get_hsubsampling (snd r3) 1))
  = Some (true, Some 3, Some 2, Some 2).
Proof. vm_compute. reflexivity. Qed.

(** C9.  [uref_pic_flow_add_plane] fails and leaves the packet as it was (so
    the "p.planes" count and every plane attribute are unchanged) whenever
    [hsub], [vsub] or [macropixel_size] is 0, the chroma is NULL, or the
    packet has no "p.planes" attribute. *)
Theorem uref_pic_flow_add_plane_rejects :
  forall (u : uref) (hsub vsub macropixel_size : Z) (chroma : option string),
    hsub = 0 \/ vsub = 0 \/ macropixel_size = 0 \/ chroma = None \/
    uref_pic_flow_get_planes u = None ->
    uref_pic_flow_add_plane u hsub vsub macropixel_size chroma = (false, u).
Proof.
  intros u hsub vsub mps chroma H.
  unfold uref_pic_flow_add_plane. cbv zeta.
  destruct chroma as [c|]; [|reflexivity].
  destruct (to_uint8 hsub =? 0) eqn:Eh; [reflexivity|].
  destruct (to_uint8 vsub =? 0) eqn:Ev; [reflexivity|].
  destruct (to_uint8 mps =? 0) eqn:Em; [reflexivity|].
  cbn [orb].
  destruct H as [->|[->|[->|[H|H]]]]; try discriminate.
  now rewrite H.
Qed.

(** The rejection on a packet that lacks "p.planes", and on a zero
    subsampling, for a concrete packet. *)
Lemma uref_pic_flow_add_plane_rejects_witness :
  uref_pic_flow_add_plane (mk_uref [("f.def", AttrString "pic.")] 8)
    1 1 1 (Some "y8"%string)
  = (false, mk_uref [("f.def", AttrString "pic.")] 8).
Proof.
  apply (uref_pic_flow_add_plane_rejects
           (mk_uref [("f.def", AttrString "pic.")] 8) 1 1 1 (Some "y8"%string)).
  right; right; right; right. reflexivity.
Defined.

End PicFlow.

(** ** Block buffers ([ubuf_block_common.h]) *)

Module BlockCommon.

(** [struct ubuf_block], with the pointer to the shared refcounted region
    that the memory manager keeps next to it.  [next_ubuf] owns the ubuf of
    the following segment.  [cached_ubuf] is kept as the index, counted from
    this ubuf, of the segment the locator points to (0 is the ubuf itself). *)
#[local] Unset Elimination Schemes.
Inductive ubuf_block : Type := mk_ubuf_block {
  offset : Z;
  size : Z;
  next_ubuf : option ubuf_block;
  total_size : Z;
  map : bool;
  buffer : option Z;
  cached_ubuf : nat;
  cached_offset : Z;
  shared : nat
}.
#[local] Set Elimination Schemes.

(** The allocator side of a block manager: how many ubuf headers can still
    be obtained (pool and heap together), and the counter of every shared
    region. *)
Record block_heap : Type := mk_block_heap {
  ubuf_avail : nat;
  shared_refs : gmap nat Z
}.

Definition heap_use (sh : nat) (h : block_heap) : block_heap :=
  mk_block_heap (ubuf_avail h)
    (<[sh := urefcount_use (default 0 (shared_refs h !! sh))]> (shared_refs h)).

Definition heap_release (sh : nat) (h : block_heap) : block_heap :=
  mk_block_heap (ubuf_avail h)
    (<[sh := fst (urefcount_release (default 0 (shared_refs h !! sh)))]>
       (shared_refs h)).

(** [ubuf_block_common_init] *)
Definition ubuf_block_common_init (ubuf : ubuf_block) (map : bool)
    : ubuf_block :=
  mk_ubuf_block 0 0 None 0 map None 0 0 (shared ubuf).

(** [ubuf_block_common_set] *)
Definition ubuf_block_common_set (ubuf : ubuf_block) (offset0 size0 : Z)
    : ubuf_block :=
  mk_ubuf_block offset0 size0 (next_ubuf ubuf)
    (to_size_t (total_size ubuf + to_size_t (size0 - size ubuf)))
    (map ubuf) (buffer ubuf) (cached_ubuf ubuf) (cached_offset ubuf)
    (shared ubuf).

(** [ubuf_block_common_set_buffer] *)
Definition ubuf_block_common_set_buffer (ubuf : ubuf_block)
    (buffer0 : option Z) : ubuf_block :=
  mk_ubuf_block (offset ubuf) (size ubuf) (next_ubuf ubuf) (total_size ubuf)
    (map ubuf) buffer0 (cached_ubuf ubuf) (cached_offset ubuf) (shared ubuf).

(** A ubuf header as the allocator hands it out, before initialisation. *)
Definition blank_ubuf : ubuf_block :=
  mk_ubuf_block 0 0 None 0 false None 0 0 0.

Definition set_shared (ubuf : ubuf_block) (sh : nat) : ubuf_block :=
  mk_ubuf_block (offset ubuf) (size ubuf) (next_ubuf ubuf) (total_size ubuf)
    (map ubuf) (buffer ubuf) (cached_ubuf ubuf) (cached_offset ubuf) sh.

(** Freeing a chain ([ubuf_free] on a block ubuf, whose
    [ubuf_block_common_clean] frees the next segments): every header goes
    back to the allocator and every segment drops its reference. *)
Fixpoint ubuf_free (ubuf : ubuf_block) (h : block_heap) : block_heap :=
  let h1 :=
    match next_ubuf ubuf with
    | Some n => ubuf_free n h
    | None => h
    end in
  let h2 := heap_release (shared ubuf) h1 in
  mk_block_heap (S (ubuf_avail h2)) (shared_refs h2).

Section Splice.

(** Whether the program is built with [NDEBUG]. *)
Variable ndebug : bool.

(** [ubuf_block_common_splice].  [splice] stands for [ubuf_block_splice],
    which the function calls on the next segment.  The arguments [offset]
    and [size] are C [int]s, the fields of the block are [size_t]s, and the
    comparisons and subtractions mix them as C does. *)
Definition ubuf_block_common_splice
    (splice : ubuf_block -> Z -> Z -> M block_heap (option ubuf_block))
    (ubuf new_ubuf : ubuf_block) (offset0 size0 : Z)
    : M block_heap (bool * ubuf_block) :=
  (exec c_assert ndebug (to_size_t offset0 <? size ubuf);
   let new_offset := to_size_t (offset ubuf + to_size_t offset0) in
   let new_size := to_size_t (size ubuf - to_size_t offset0) in
   let new_size :=
     if to_size_t size0 <? new_size then to_size_t size0 else new_size in
   let new_total_size := to_size_t size0 in
   let new_buffer := buffer ubuf in
   let size1 := to_int (to_size_t (to_size_t size0 - new_size)) in
   let finish (next : option ubuf_block) :=
     mk_ubuf_block new_offset new_size next new_total_size (map new_ubuf)
       new_buffer 0 0 (shared new_ubuf) in
   if 0 <? size1 then
     exec c_assert ndebug (bool_decide (is_Some (next_ubuf ubuf)));
     match next_ubuf ubuf with
     | None => abort
     | Some next =>
         do r <- splice next 0 size1;
         match r with
         | None =>
             ret (false,
                  mk_ubuf_block new_offset new_size None new_total_size
                    (map new_ubuf) new_buffer (cached_ubuf new_ubuf)
                    (cached_offset new_ubuf) (shared new_ubuf))
         | Some spliced => ret (true, finish (Some spliced))
         end
     end
   else ret (true, finish (next_ubuf new_ubuf)))%cmd.

(** Modelled from the spec: the splice operation of the block memory manager
    ([ubuf_block_mem.c], missing).  It takes a ubuf header (failing when none
    is left), initialises it, lets [ubuf_block_common_splice] fill it in, and
    makes it share the region of the source: "duplication creates a new head
    ubuf pointing at the same shared region", "shares memory where
    possible". *)
Definition ubuf_block_mem_splice
    (splice : ubuf_block -> Z -> Z -> M block_heap (option ubuf_block))
    (ubuf : ubuf_block) (offset0 size0 : Z)
    : M block_heap (option ubuf_block) :=
  fun h =>
    match ubuf_avail h with
    | O => Done None h
    | S avail =>
        let new_ubuf := ubuf_block_common_init blank_ubuf (map ubuf) in
        match ubuf_block_common_splice splice ubuf new_ubuf offset0 size0
                (mk_block_heap avail (shared_refs h)) with
        | Abort => Abort
        | Done (true, new_ubuf') h' =>
            Done (Some (set_shared new_ubuf' (shared ubuf)))
                 (heap_use (shared ubuf) h')
        | Done (false, _) h' =>
            Done None (mk_block_heap (S (ubuf_avail h')) (shared_refs h'))
        end
    end.

(** Modelled from the spec: [ubuf_block_splice] ([ubuf_block.h], missing)
    "fails with OutOfRange if offset+size > total_size" and otherwise "trims
    a head and recursively slices the tail until size octets are
    satisfied". *)
Fixpoint ubuf_block_splice (ubuf : ubuf_block) (offset0 size0 : Z)
    {struct ubuf} : M block_heap (option ubuf_block) :=
  if total_size ubuf <? offset0 + size0 then ret None
  else
    ubuf_block_mem_splice ubuf_block_splice ubuf offset0 size0.

End Splice.

(** *** What a chain of segments denotes *)

(** The view a segment gives on memory: shared region, buffer, offset and
    size. *)
Definition segment_view (b : ubuf_block) : nat * option Z * Z * Z :=
  (shared b, buffer b, offset b, size b).

Fixpoint segments (b : ubuf_block) : list (nat * option Z * Z * Z) :=
  segment_view b ::
  match next_ubuf b with
  | Some n => segments n
  | None => []
  end.

Fixpoint chain_length (b : ubuf_block) : nat :=
  S (match next_ubuf b with
     | Some n => chain_length n
     | None => O
     end).

(** The octets of a segment in a memory [mem] that maps addresses to
    octets, and those of the whole chain. *)
Definition view_bytes (mem : Z -> Z) (v : nat * option Z * Z * Z) : list Z :=
  match v with
  | (_, Some base, off, sz) => (fun i => mem (base + off + i)) <$> seqZ 0 sz
  | (_, None, _, _) => []
  end.

Definition block_bytes (mem : Z -> Z) (b : ubuf_block) : list Z :=
  concat (view_bytes mem <$> segments b).

(** The invariant of a chain: [total_size] caches the sum of the sizes from
    this segment on, no segment is empty, and the fields are [size_t]s. *)
Fixpoint chain_wf (b : ubuf_block) : Prop :=
  0 < size b /\ is_size_t (offset b) /\
  match next_ubuf b with
  | Some n => total_size b = size b + total_size n /\ chain_wf n
  | None => total_size b = size b
  end.

(** Induction along [next_ubuf]. *)
Lemma ubuf_block_chain_ind (P : ubuf_block -> Prop) :
  (forall b, (forall n, next_ubuf b = Some n -> P n) -> P b) ->
  forall b, P b.
Proof.
  intros IH. fix rec 1. intros [o sz nx t m bf c co sh].
  apply IH. cbn. intros n Hn.
  destruct nx as [u|]; [|discriminate].
  injection Hn as <-. apply rec.
Qed.

Lemma chain_wf_total_pos b : chain_wf b -> size b <= total_size b.
Proof.
  induction b as [b IH] using ubuf_block_chain_ind.
  destruct b as [o sz [n|] t m bf c co sh]; cbn.
  - intros (Hs & _ & -> & Hn).
    specialize (IH n eq_refl Hn). cbn in IH.
    assert (0 < size n) by (destruct n; cbn in *; tauto). lia.
  - intros (Hs & _ & ->). lia.
Qed.

Lemma to_size_t_small z : 0 <= z < UINT64_MOD -> to_size_t z = z.
Proof. intros H. unfold to_size_t. now apply Z.mod_small. Qed.

Lemma to_int_small z : INT_MIN <= z <= INT_MAX -> to_int z = z.
Proof.
  unfold to_int, INT_MIN, INT_MAX. intros H.
  rewrite Z.mod_small; lia.
Qed.

Lemma c_assert_true {S} ndebug (s : S) : c_assert ndebug true s = Done tt s.
Proof. unfold c_assert. now destruct ndebug. Qed.

(** Splicing the whole extent of a well-formed chain succeeds as long as the
    allocator has a header for each segment, and rebuilds the chain segment
    by segment. *)
Lemma splice_whole_segments ndebug :
  forall b h,
    chain_wf b -> total_size b <= INT_MAX ->
    (chain_length b <= ubuf_avail h)%nat ->
    exists b' h',
      ubuf_block_splice ndebug b 0 (total_size b) h = Done (Some b') h' /\
      total_size b' = total_size b /\
      segments b' = segments b /\
      ubuf_avail h' = (ubuf_avail h - chain_length b)%nat.
Proof.
  induction b as [b IH] using ubuf_block_chain_ind.
  intros h Hwf Hmax Havail.
  pose proof (chain_wf_total_pos b Hwf) as Hle.
  destruct b as [o sz nx t m bf c co sh]. cbn in *.
  destruct Hwf as (Hsz & Ho & Hnx).
  assert (Ht : 0 <= t < UINT64_MOD) by (unfold INT_MAX, UINT64_MOD in *; lia).
  assert (Hs : 0 <= sz < UINT64_MOD) by (unfold UINT64_MOD in *; lia).
  replace (t <? 0 + t) with false by (symmetry; apply Z.ltb_ge; lia).
  unfold ubuf_block_mem_splice.
  destruct (ubuf_avail h) as [|avail] eqn:Eav; [lia|].
  unfold ubuf_block_common_splice, bind. cbn [size offset next_ubuf
    total_size buffer map shared ubuf_block_common_init blank_ubuf].
  change (to_size_t 0) with 0.
  replace (0 <? sz) with true by (symmetry; apply Z.ltb_lt; lia).
  rewrite c_assert_true.
  rewrite Z.add_0_r, Z.sub_0_r, !(to_size_t_small o), !(to_size_t_small sz),
    !(to_size_t_small t) by assumption.
  replace (t <? sz) with false by (symmetry; apply Z.ltb_ge; lia).
  rewrite (to_size_t_small (t - sz)) by lia.
  rewrite (to_int_small (t - sz)) by (unfold INT_MIN, INT_MAX in *; lia).
  destruct nx as [n|].
  - destruct Hnx as [Ht' Hn].
    pose proof (chain_wf_total_pos n Hn) as Hn'.
    assert (0 < size n) by (destruct n; cbn in *; tauto).
    replace (0 <? t - sz) with true by (symmetry; apply Z.ltb_lt; lia).
    replace (t - sz) with (total_size n) by lia.
    destruct (IH n eq_refl (mk_block_heap avail (shared_refs h)) Hn)
      as (n' & h1 & E & Et & Es & Ea); [lia | cbn; lia |].
    rewrite bool_decide_eq_true_2 by eauto.
    rewrite c_assert_true, E. unfold ret.
    eexists _, _. split; [reflexivity|]. cbn.
    split_and!; [reflexivity | now rewrite Es | rewrite Ea; cbn; lia].
  - subst t. rewrite Z.sub_diag. cbn.
    eexists _, _. split; [reflexivity|]. cbn.
    repeat split. lia.
Qed.

(** C2 (as amended).  For a block ubuf whose chain is well formed (no empty
    segment, [total_size] the sum of the sizes) and whose total size fits
    the [int] argument, [splice(b, 0, b.total_size)] returns a ubuf with the
    same [total_size], whose segments are views on the same shared regions
    and buffers at the same offsets and sizes (nothing is copied), and which
    reads the same octets in every memory. *)
Theorem splice_whole_extent :
  forall (ndebug : bool) (b : ubuf_block) (h : block_heap),
    chain_wf b -> total_size b <= INT_MAX ->
    (chain_length b <= ubuf_avail h)%nat ->
    exists b' h',
      ubuf_block_splice ndebug b 0 (total_size b) h = Done (Some b') h' /\
      total_size b' = total_size b /\
      segments b' = segments b /\
      (forall mem, block_bytes mem b' = block_bytes mem b).
Proof.
  intros ndebug b h Hwf Hmax Hav.
  destruct (splice_whole_segments ndebug b h Hwf Hmax Hav)
    as (b' & h' & E & Et & Es & _).
  exists b', h'. repeat split; try assumption.
  intros mem. unfold block_bytes. now rewrite Es.
Qed.

(** *** Concrete chains *)

(** Ten octets at offset 0 of the buffer at address 4096, region 1. *)
Definition block10 : ubuf_block :=
  mk_ubuf_block 0 10 None 10 false (Some 4096) 0 0 1.

(** A chain of two segments, of 6 and 4 octets, over two regions. *)
Definition chain_6_4 : ubuf_block :=
  mk_ubuf_block 2 6
    (Some (mk_ubuf_block 0 4 None 4 false (Some 8192) 0 0 2))
    10 false (Some 4096) 0 0 1.

(** An empty block, as [alloc(0)] leaves it. *)
Definition empty_block : ubuf_block :=
  mk_ubuf_block 0 0 None 0 false (Some 4096) 0 0 1.

Definition heap0 : block_heap :=
  mk_block_heap 4 (<[1%nat := 1]> (<[2%nat := 1]> ∅)).

(** [splice(b, 3, 4)] of ten octets is a view of four octets at offset 3. *)
Example splice_3_4 :
  match ubuf_block_splice false block10 3 4 heap0 with
  | Done (Some s) h =>
      segments s = [(1%nat, Some 4096, 3, 4)] /\ total_size s = 4 /\
      shared_refs h !! 1%nat = Some 2
  | _ => False
  end.
Proof. vm_compute. repeat split. Qed.

(** A splice past the end is refused. *)
Example splice_out_of_range :
  ubuf_block_splice false block10 8 4 heap0 = Done None heap0.
Proof. reflexivity. Qed.

(** The whole extent of the two-segment chain. *)
Lemma splice_whole_extent_witness :
  exists b' h',
    ubuf_block_splice false chain_6_4 0 (total_size chain_6_4) heap0
      = Done (Some b') h' /\
    total_size b' = total_size chain_6_4 /\
    segments b' = segments chain_6_4 /\
    (forall mem, block_bytes mem b' = block_bytes mem chain_6_4).
Proof.
  apply (splice_whole_extent false chain_6_4 heap0).
  - cbn. unfold is_size_t, UINT64_MOD. lia.
  - cbn. unfold INT_MAX. lia.
  - cbn. lia.
Defined.

(** C2 as stated fails on an empty block when assertions are compiled in:
    [assert(offset < block->size)] does not hold for [offset = 0] and
    [size = 0], and the splice of the whole (empty) extent aborts instead of
    returning a ubuf. *)
Lemma splice_whole_extent_empty_aborts :
  ubuf_block_splice false empty_block 0 (total_size empty_block) heap0
  = Abort.
Proof. reflexivity. Qed.

(** Without assertions the same call returns an empty view. *)
Example splice_empty_ndebug :
  match ubuf_block_splice true empty_block 0 0 heap0 with
  | Done (Some s) _ => segments s = segments empty_block
  | _ => False
  end.
Proof. vm_compute. reflexivity. Qed.

(** *** Resizing a segment *)

(** [ubuf_block_common_set] keeps [total_size] in step with the size of
    the first segment: what the following segments hold ([rest]) is carried
    over, whether the segment grows or shrinks, the wrap-around of the
    unsigned subtraction being undone by that of the addition. *)
Theorem ubuf_block_common_set_total :
  forall (b : ubuf_block) (offset0 size0 rest : Z),
    0 <= size b -> 0 <= rest -> total_size b = size b + rest ->
    size b + rest < UINT64_MOD ->
    0 <= size0 -> size0 + rest < UINT64_MOD ->
    total_size (ubuf_block_common_set b offset0 size0) = size0 + rest /\
    size (ubuf_block_common_set b offset0 size0) = size0 /\
    offset (ubuf_block_common_set b offset0 size0) = offset0 /\
    next_ubuf (ubuf_block_common_set b offset0 size0) = next_ubuf b /\
    buffer (ubuf_block_common_set b offset0 size0) = buffer b.
Proof.
  intros b o s rest Hsz Hrest Ht Hlt Hs Hs'.
  unfold ubuf_block_common_set. cbn. split_and!; try reflexivity.
  rewrite Ht. unfold to_size_t.
  rewrite Zplus_mod_idemp_r.
  replace (size b + rest + (s - size b)) with (s + rest) by lia.
  apply Z.mod_small. lia.
Qed.

Lemma ubuf_block_common_set_total_witness :
  total_size (ubuf_block_common_set chain_6_4 0 2) = 2 + 4 /\
  size (ubuf_block_common_set chain_6_4 0 2) = 2 /\
  offset (ubuf_block_common_set chain_6_4 0 2) = 0 /\
  next_ubuf (ubuf_block_common_set chain_6_4 0 2) = next_ubuf chain_6_4 /\
  buffer (ubuf_block_common_set chain_6_4 0 2) = buffer chain_6_4.
Proof.
  apply (ubuf_block_common_set_total chain_6_4 0 2 4);
    cbn; unfold UINT64_MOD; lia.
Defined.

(** *** A splice inside the first segment *)

(** When the range asked for lies inside the first segment,
    [ubuf_block_common_splice] fills the new ubuf with a view of [size0]
    octets at [offset0] and returns true without looking at the following
    segments: whatever [ubuf_block_splice] is, it is not called, and the
    allocator is left alone. *)
Theorem splice_within_first_segment :
  forall (ndebug : bool)
         (splice : ubuf_block -> Z -> Z -> M block_heap (option ubuf_block))
         (b new_ubuf : ubuf_block) (offset0 size0 : Z) (h : block_heap),
    0 <= offset b -> offset b + offset0 < UINT64_MOD ->
    size b < UINT64_MOD ->
    0 <= offset0 < size b -> 0 <= size0 <= size b - offset0 ->
    ubuf_block_common_splice ndebug splice b new_ubuf offset0 size0 h =
    Done (true,
          mk_ubuf_block (offset b + offset0) size0 (next_ubuf new_ubuf) size0
            (map new_ubuf) (buffer b) 0 0 (shared new_ubuf)) h.
Proof.
  intros ndebug splice b new_ubuf off sz h Ho Hoo Hs Hoff Hsz.
  unfold ubuf_block_common_splice, bind.
  rewrite (to_size_t_small off), (to_size_t_small sz),
    (to_size_t_small (offset b + off)), (to_size_t_small (size b - off))
    by lia.
  replace (off <? size b) with true by (symmetry; apply Z.ltb_lt; lia).
  rewrite c_assert_true.
  destruct (sz <? size b - off) eqn:E.
  - rewrite Z.sub_diag. reflexivity.
  - apply Z.ltb_ge in E. replace (size b - off) with sz by lia.
    rewrite Z.sub_diag. reflexivity.
Qed.

Lemma splice_within_first_segment_witness :
  ubuf_block_common_splice false (ubuf_block_splice false) chain_6_4
    (ubuf_block_common_init blank_ubuf false) 1 5 heap0 =
  Done (true,
        mk_ubuf_block (2 + 1) 5 None 5 false (Some 4096) 0 0 0) heap0.
Proof.
  apply (splice_within_first_segment false (ubuf_block_splice false)
           chain_6_4 (ubuf_block_common_init blank_ubuf false) 1 5 heap0);
    cbn; unfold UINT64_MOD; lia.
Defined.

(** *** The octets of a spliced range *)

(** Every segment has its buffer. *)
Fixpoint chain_mapped (b : ubuf_block) : Prop :=
  is_Some (buffer b) /\
  match next_ubuf b with
  | Some n => chain_mapped n
  | None => True
  end.

Lemma length_view_bytes mem sh base off sz :
  length (view_bytes mem (sh, Some base, off, sz)) = Z.to_nat sz.
Proof. cbn. now rewrite length_fmap, length_seqZ. Qed.

Lemma view_bytes_split mem sh base off sz k :
  0 <= k <= sz ->
  view_bytes mem (sh, Some base, off, sz) =
  view_bytes mem (sh, Some base, off, k)
  ++ view_bytes mem (sh, Some base, off + k, sz - k).
Proof.
  intros Hk. cbn. replace sz with (k + (sz - k)) at 1 by lia.
  rewrite seqZ_app, fmap_app by lia. f_equal.
  rewrite Z.add_0_l.
  replace (seqZ k (sz - k)) with (Z.add k <$> seqZ 0 (sz - k))
    by (now rewrite fmap_add_seqZ, Z.add_0_r).
  rewrite <- list_fmap_compose. apply list_fmap_ext.
  intros _ i _. cbn. f_equal. lia.
Qed.

(** Cutting [len] octets at [off] out of a segment followed by [rest]. *)
Lemma cut_bytes mem sh base o sz off len (rest : list Z) :
  0 <= off <= sz -> 0 <= len ->
  take (Z.to_nat len)
    (drop (Z.to_nat off) (view_bytes mem (sh, Some base, o, sz) ++ rest)) =
  if len <=? sz - off then view_bytes mem (sh, Some base, o + off, len)
  else view_bytes mem (sh, Some base, o + off, sz - off)
       ++ take (Z.to_nat (len - (sz - off))) rest.
Proof.
  intros Hoff Hlen.
  rewrite (view_bytes_split mem sh base o sz off) by lia.
  rewrite <- app_assoc, drop_app_length'
    by (now rewrite length_view_bytes).
  destruct (len <=? sz - off) eqn:E.
  - apply Z.leb_le in E.
    rewrite (view_bytes_split mem sh base (o + off) (sz - off) len) by lia.
    rewrite <- app_assoc. apply take_app_length'.
    now rewrite length_view_bytes.
  - apply Z.leb_gt in E.
    replace (Z.to_nat len)
      with (length (view_bytes mem (sh, Some base, (o + off)%Z, (sz - off)%Z))
            + Z.to_nat (len - (sz - off))%Z)%nat
      by (rewrite length_view_bytes; lia).
    apply take_app_add.
Qed.

(** For a well-formed chain whose segments all have their buffer, the
    splice of [len] octets at an offset [off] inside the first segment
    returns a ubuf of total size [len] that reads, in every memory, the
    octets [off .. off + len - 1] of the original, across as many segments
    as the range spans.  (The octets are those of the same buffers: see
    [splice_whole_extent] for the sharing.) *)
Theorem splice_reads_range (ndebug : bool) :
  forall (b : ubuf_block) (h : block_heap) (off len : Z),
    chain_wf b -> chain_mapped b -> total_size b <= INT_MAX ->
    offset b + off < UINT64_MOD ->
    0 <= off < size b -> 0 <= len -> off + len <= total_size b ->
    (chain_length b <= ubuf_avail h)%nat ->
    exists b' h',
      ubuf_block_splice ndebug b off len h = Done (Some b') h' /\
      total_size b' = len /\
      forall mem,
        block_bytes mem b' =
        take (Z.to_nat len) (drop (Z.to_nat off) (block_bytes mem b)).
Proof.
  induction b as [b IH] using ubuf_block_chain_ind.
  intros h off len Hwf Hmapped Hmax Hoo Hoff Hlen Hfit Havail.
  pose proof (chain_wf_total_pos b Hwf) as Hle.
  destruct b as [o sz nx t m bf c co sh]. cbn in *.
  destruct Hwf as (Hsz & Ho & Hnx).
  destruct Hmapped as [[base ->] Hmn].
  unfold INT_MAX, is_size_t in *.
  replace (t <? off + len) with false by (symmetry; apply Z.ltb_ge; lia).
  unfold ubuf_block_mem_splice.
  destruct (ubuf_avail h) as [|avail] eqn:Eav; [lia|].
  unfold ubuf_block_common_splice, bind. cbn [size offset next_ubuf
    total_size buffer map shared ubuf_block_common_init blank_ubuf].
  rewrite (to_size_t_small off), (to_size_t_small len),
    (to_size_t_small (o + off)), (to_size_t_small (sz - off))
    by (unfold UINT64_MOD in *; lia).
  replace (off <? sz) with true by (symmetry; apply Z.ltb_lt; lia).
  rewrite c_assert_true.
  destruct (len <? sz - off) eqn:E.
  - (* the range ends inside this segment *)
    apply Z.ltb_lt in E. rewrite Z.sub_diag. cbn.
    eexists _, _. split; [reflexivity|]. cbn [total_size set_shared].
    split; [reflexivity|]. intros mem.
    unfold block_bytes. cbn [segments segment_view set_shared next_ubuf
      shared buffer offset size fmap list_fmap concat].
    destruct nx as [n|]; cbn [fmap list_fmap concat].
    + rewrite (cut_bytes mem sh base o sz off len) by lia.
      replace (len <=? sz - off) with true by (symmetry; apply Z.leb_le; lia).
      now rewrite app_nil_r.
    + rewrite (cut_bytes mem sh base o sz off len) by lia.
      replace (len <=? sz - off) with true by (symmetry; apply Z.leb_le; lia).
      now rewrite app_nil_r.
  - apply Z.ltb_ge in E.
    rewrite (to_size_t_small (len - (sz - off)))
      by (unfold UINT64_MOD in *; lia).
    rewrite (to_int_small (len - (sz - off)))
      by (unfold INT_MIN, INT_MAX; lia).
    destruct (0 <? len - (sz - off)) eqn:E1.
    + (* the range goes on in the next segments *)
      apply Z.ltb_lt in E1.
      destruct nx as [n|]; [|lia].
      destruct Hnx as [Ht Hn].
      pose proof (chain_wf_total_pos n Hn) as Hn'.
      assert (Hn0 : 0 < size n /\ is_size_t (offset n))
        by (destruct n; cbn in *; tauto).
      destruct (IH n eq_refl (mk_block_heap avail (shared_refs h)) 0
                  (len - (sz - off)) Hn Hmn)
        as (n' & h1 & En & Et & Eb);
        [lia | unfold is_size_t in Hn0; lia | lia | lia | lia | cbn; lia |].
      rewrite bool_decide_eq_true_2 by eauto.
      rewrite c_assert_true, En. unfold ret.
      eexists _, _. split; [reflexivity|]. cbn [total_size set_shared].
      split; [reflexivity|]. intros mem.
      unfold block_bytes in *. cbn [segments segment_view set_shared next_ubuf
        shared buffer offset size fmap list_fmap concat].
      rewrite (cut_bytes mem sh base o sz off len) by lia.
      replace (len <=? sz - off) with false by (symmetry; apply Z.leb_gt; lia).
      f_equal. rewrite Eb. now rewrite drop_0.
    + (* the range ends with this segment *)
      apply Z.ltb_ge in E1. cbn.
      eexists _, _. split; [reflexivity|]. cbn [total_size set_shared].
      split; [reflexivity|]. intros mem.
      unfold block_bytes. cbn [segments segment_view set_shared next_ubuf
        shared buffer offset size fmap list_fmap concat].
      assert (Elen : sz - off = len) by lia. rewrite Elen.
      destruct nx as [n|]; cbn [fmap list_fmap concat];
        rewrite (cut_bytes mem sh base o sz off len) by lia;
        (replace (len <=? sz - off) with true
           by (symmetry; apply Z.leb_le; lia));
        now rewrite app_nil_r.
Qed.

Lemma splice_reads_range_witness :
  exists b' h',
    ubuf_block_splice false chain_6_4 3 5 heap0 = Done (Some b') h' /\
    total_size b' = 5 /\
    forall mem,
      block_bytes mem b' =
      take (Z.to_nat 5) (drop (Z.to_nat 3) (block_bytes mem chain_6_4)).
Proof.
  apply (splice_reads_range false chain_6_4 heap0 3 5).
  - cbn. unfold is_size_t, UINT64_MOD. lia.
  - cbn. eauto.
  - cbn. unfold INT_MAX. lia.
  - cbn. unfold UINT64_MOD. lia.
  - cbn. lia.
  - lia.
  - cbn. lia.
  - cbn. lia.
Defined.

(** *** Duplicating a chain *)

(** [ubuf_block_common_dup].  [dup] stands for [ubuf_dup], which the
    function calls on the next segment; when that fails the function returns
    false after it has stored NULL in [next_ubuf], before it resets the
    cache. *)
Definition ubuf_block_common_dup
    (dup : ubuf_block -> M block_heap (option ubuf_block))
    (ubuf new_ubuf : ubuf_block) : M block_heap (bool * ubuf_block) :=
  let copy (next : option ubuf_block) (cached : nat) (cached_off : Z) :=
    mk_ubuf_block (offset ubuf) (size ubuf) next (total_size ubuf)
      (map new_ubuf) (buffer ubuf) cached cached_off (shared new_ubuf) in
  match next_ubuf ubuf with
  | Some next =>
      (do r <- dup next;
       match r with
       | None =>
           ret (false,
                copy None (cached_ubuf new_ubuf) (cached_offset new_ubuf))
       | Some d => ret (true, copy (Some d) 0%nat 0)
       end)%cmd
  | None => ret (true, copy (next_ubuf new_ubuf) 0%nat 0)
  end.

(** Modelled from the spec: the dup operation of the block memory manager
    ([ubuf_block_mem.c], missing) takes a ubuf header (failing when none is
    left), lets [ubuf_block_common_dup] fill it in and makes it share the
    region of the source: "duplication creates a new head ubuf pointing at
    the same shared region". *)
Definition ubuf_block_mem_dup
    (dup : ubuf_block -> M block_heap (option ubuf_block))
    (ubuf : ubuf_block) : M block_heap (option ubuf_block) :=
  fun h =>
    match ubuf_avail h with
    | O => Done None h
    | S avail =>
        let new_ubuf := ubuf_block_common_init blank_ubuf (map ubuf) in
        match ubuf_block_common_dup dup ubuf new_ubuf
                (mk_block_heap avail (shared_refs h)) with
        | Abort => Abort
        | Done (true, new_ubuf') h' =>
            Done (Some (set_shared new_ubuf' (shared ubuf)))
                 (heap_use (shared ubuf) h')
        | Done (false, _) h' =>
            Done None (mk_block_heap (S (ubuf_avail h')) (shared_refs h'))
        end
    end.

(** Modelled from the spec: [ubuf_dup] ([ubuf.h], missing) hands the ubuf
    to the dup operation of its manager. *)
Fixpoint ubuf_dup (ubuf : ubuf_block) {struct ubuf}
    : M block_heap (option ubuf_block) :=
  ubuf_block_mem_dup ubuf_dup ubuf.

(** The number of segments of a chain that lie in region [sh]. *)
Fixpoint region_count (sh : nat) (b : ubuf_block) : Z :=
  (if Nat.eqb (shared b) sh then 1 else 0)
  + match next_ubuf b with
    | Some n => region_count sh n
    | None => 0
    end.

Definition refs (h : block_heap) (sh : nat) : Z :=
  default 0 (shared_refs h !! sh).

(** Duplicating a chain, with a header at hand for each of its segments,
    gives a chain of the same segments: the same regions and buffers at the
    same offsets and sizes, hence the same octets and the same total size.
    Nothing is copied: every region gets one more reference for each segment
    that lies in it, and the locator of the new head is reset. *)
Theorem dup_same_segments :
  forall (b : ubuf_block) (h : block_heap),
    (chain_length b <= ubuf_avail h)%nat ->
    exists b' h',
      ubuf_dup b h = Done (Some b') h' /\
      segments b' = segments b /\
      total_size b' = total_size b /\
      cached_ubuf b' = 0%nat /\ cached_offset b' = 0 /\
      (forall mem, block_bytes mem b' = block_bytes mem b) /\
      ubuf_avail h' = (ubuf_avail h - chain_length b)%nat /\
      (forall sh, refs h' sh = refs h sh + region_count sh b).
Proof.
  induction b as [b IH] using ubuf_block_chain_ind.
  intros h Hav.
  destruct b as [o sz nx t m bf c co sh]. cbn in Hav.
  cbn [ubuf_dup]. unfold ubuf_block_mem_dup.
  destruct (ubuf_avail h) as [|avail] eqn:Eav; [lia|].
  unfold ubuf_block_common_dup, bind. cbn [next_ubuf].
  destruct nx as [n|].
  - destruct (IH n eq_refl (mk_block_heap avail (shared_refs h)))
      as (n' & h1 & En & Es & Et & _ & _ & _ & Ea & Er); [cbn; lia|].
    change (ubuf_block_mem_dup ubuf_dup n) with (ubuf_dup n).
    rewrite En. unfold ret.
    eexists _, _. split; [reflexivity|].
    cbn [segments segment_view set_shared next_ubuf shared buffer offset size
         total_size cached_ubuf cached_offset ubuf_avail heap_use].
    split_and!; try reflexivity.
    + now rewrite Es.
    + intros mem. unfold block_bytes.
      cbn [segments segment_view set_shared next_ubuf shared buffer offset
           size]. now rewrite Es.
    + rewrite Ea. cbn. lia.
    + intros s. unfold refs in *. cbn [shared_refs heap_use region_count
        shared next_ubuf]. specialize (Er s). cbn [shared_refs] in Er.
      destruct (Nat.eqb_spec sh s) as [->|Hne].
      * rewrite lookup_insert_eq. cbn. unfold urefcount_use. lia.
      * rewrite lookup_insert_ne by assumption. lia.
  - unfold ret.
    eexists _, _. split; [reflexivity|].
    cbn [segments segment_view set_shared next_ubuf shared buffer offset size
         total_size cached_ubuf cached_offset ubuf_avail heap_use
         ubuf_block_common_init blank_ubuf].
    split_and!; try reflexivity.
    + cbn. lia.
    + intros s. unfold refs. cbn [shared_refs heap_use region_count shared
        next_ubuf].
      destruct (Nat.eqb_spec sh s) as [->|Hne].
      * rewrite lookup_insert_eq. cbn. unfold urefcount_use. lia.
      * rewrite lookup_insert_ne by assumption. lia.
Qed.

Lemma dup_same_segments_witness :
  exists b' h',
    ubuf_dup chain_6_4 heap0 = Done (Some b') h' /\
    segments b' = segments chain_6_4 /\
    total_size b' = total_size chain_6_4 /\
    cached_ubuf b' = 0%nat /\ cached_offset b' = 0 /\
    (forall mem, block_bytes mem b' = block_bytes mem chain_6_4) /\
    ubuf_avail h' = (ubuf_avail heap0 - chain_length chain_6_4)%nat /\
    (forall sh, refs h' sh = refs heap0 sh + region_count sh chain_6_4).
Proof.
  apply (dup_same_segments chain_6_4 heap0). cbn. lia.
Defined.

(** Without a header for the second segment the dup fails, and the header
    taken for the first one is given back. *)
Example dup_out_of_headers :
  ubuf_dup chain_6_4 (mk_block_heap 1 (shared_refs heap0))
  = Done None (mk_block_heap 1 (shared_refs heap0)).
Proof. reflexivity. Qed.

End BlockCommon.

(** ** Picture buffers in umem storage ([ubuf_pic_mem.c]) *)

Module PicMem.

(** *** Data *)

(** [struct umem]: a region of the raw-memory allocator. *)
Record umem : Type := mk_umem {
  umem_buffer : Z;
  umem_size : Z
}.

(** [struct ubuf_pic_mem_shared] *)
Record ubuf_pic_mem_shared : Type := mk_shared {
  refcount : urefcount;
  shared_umem : umem
}.

(** A plane of a picture ubuf: base pointer (NULL before initialisation) and
    stride. *)
Record ubuf_pic_common_plane : Type := mk_plane {
  buffer : option Z;
  stride : Z
}.

(** [struct ubuf_pic_common]; [planes] is the array of plane structures
    that follows it in memory, by plane index (a slot that was never written
    has no entry). *)
Record ubuf_pic_common : Type := mk_common {
  hmprepend : Z;
  hmappend : Z;
  hmsize : Z;
  vprepend : Z;
  vappend : Z;
  vsize : Z;
  planes : gmap nat ubuf_pic_common_plane
}.

(** [struct ubuf_pic_mem]; [readers] only exists without [NDEBUG] and stays
    0 otherwise. *)
Record ubuf_pic_mem : Type := mk_pic {
  shared : option nat;
  readers : Z;
  common : ubuf_pic_common
}.

(** A plane as the manager describes it. *)
Record ubuf_pic_common_mgr_plane : Type := mk_mgr_plane {
  chroma : string;
  hsub : Z;
  vsub : Z;
  macropixel_size : Z
}.

(** [struct ubuf_pic_mem_mgr] with the fields of the common manager
    ([macropixel], the planes).  A pool is the list of the handles it holds,
    most recently pushed first, with its depth. *)
Record ubuf_pic_mem_mgr : Type := mk_mgr {
  mgr_hmprepend : Z;
  mgr_hmappend : Z;
  mgr_vprepend : Z;
  mgr_vappend : Z;
  align : Z;
  align_hmoffset : Z;
  ubuf_pool : list nat;
  ubuf_pool_depth : nat;
  shared_pool : list nat;
  shared_pool_depth : nat;
  mgr_refcount : urefcount;
  macropixel : Z;
  mgr_planes : list ubuf_pic_common_mgr_plane
}.

(** [struct ubuf_pic_common_mgr], the part of the manager that the functions
    of [ubuf_pic_common.c] work on. *)
Record ubuf_pic_common_mgr : Type := mk_common_mgr {
  common_macropixel : Z;
  common_planes : list ubuf_pic_common_mgr_plane
}.

Definition common_mgr (m : ubuf_pic_mem_mgr) : ubuf_pic_common_mgr :=
  mk_common_mgr (macropixel m) (mgr_planes m).

(** The manager together with the memory it works in: the ubuf and shared
    structures by address, the state of [malloc] (next fresh address, number
    of allocations that will still succeed) and of the umem allocator (next
    address, end of its arena, live regions with their octets). *)
Record world : Type := mk_world {
  mgr : ubuf_pic_mem_mgr;
  ubufs : gmap nat ubuf_pic_mem;
  shareds : gmap nat ubuf_pic_mem_shared;
  heap_next : nat;
  heap_budget : nat;
  umem_next : Z;
  umem_limit : Z;
  umem_live : gmap Z (list Z)
}.

Definition set_mgr (f : ubuf_pic_mem_mgr -> ubuf_pic_mem_mgr) (w : world) :=
  mk_world (f (mgr w)) (ubufs w) (shareds w) (heap_next w) (heap_budget w)
    (umem_next w) (umem_limit w) (umem_live w).
Definition set_ubufs (f : gmap nat ubuf_pic_mem -> gmap nat ubuf_pic_mem)
    (w : world) :=
  mk_world (mgr w) (f (ubufs w)) (shareds w) (heap_next w) (heap_budget w)
    (umem_next w) (umem_limit w) (umem_live w).
Definition set_shareds
    (f : gmap nat ubuf_pic_mem_shared -> gmap nat ubuf_pic_mem_shared)
    (w : world) :=
  mk_world (mgr w) (ubufs w) (f (shareds w)) (heap_next w) (heap_budget w)
    (umem_next w) (umem_limit w) (umem_live w).
Definition set_heap (next budget : nat) (w : world) :=
  mk_world (mgr w) (ubufs w) (shareds w) next budget
    (umem_next w) (umem_limit w) (umem_live w).
Definition set_umem (next : Z) (live : gmap Z (list Z)) (w : world) :=
  mk_world (mgr w) (ubufs w) (shareds w) (heap_next w) (heap_budget w)
    next (umem_limit w) live.

Definition with_ubuf_pool (p : list nat) (m : ubuf_pic_mem_mgr) :=
  mk_mgr (mgr_hmprepend m) (mgr_hmappend m) (mgr_vprepend m) (mgr_vappend m)
    (align m) (align_hmoffset m) p (ubuf_pool_depth m) (shared_pool m)
    (shared_pool_depth m) (mgr_refcount m) (macropixel m) (mgr_planes m).
Definition with_shared_pool (p : list nat) (m : ubuf_pic_mem_mgr) :=
  mk_mgr (mgr_hmprepend m) (mgr_hmappend m) (mgr_vprepend m) (mgr_vappend m)
    (align m) (align_hmoffset m) (ubuf_pool m) (ubuf_pool_depth m) p
    (shared_pool_depth m) (mgr_refcount m) (macropixel m) (mgr_planes m).
Definition with_mgr_refcount (r : urefcount) (m : ubuf_pic_mem_mgr) :=
  mk_mgr (mgr_hmprepend m) (mgr_hmappend m) (mgr_vprepend m) (mgr_vappend m)
    (align m) (align_hmoffset m) (ubuf_pool m) (ubuf_pool_depth m)
    (shared_pool m) (shared_pool_depth m) r (macropixel m) (mgr_planes m).
Definition with_planes (ps : list ubuf_pic_common_mgr_plane)
    (m : ubuf_pic_mem_mgr) :=
  mk_mgr (mgr_hmprepend m) (mgr_hmappend m) (mgr_vprepend m) (mgr_vappend m)
    (align m) (align_hmoffset m) (ubuf_pool m) (ubuf_pool_depth m)
    (shared_pool m) (shared_pool_depth m) (mgr_refcount m) (macropixel m) ps.

Definition with_shared (s : option nat) (p : ubuf_pic_mem) :=
  mk_pic s (readers p) (common p).
Definition with_readers (r : Z) (p : ubuf_pic_mem) :=
  mk_pic (shared p) r (common p).
Definition with_common (c : ubuf_pic_common) (p : ubuf_pic_mem) :=
  mk_pic (shared p) (readers p) c.

(** *** The collaborators that are not in this file *)

(** [malloc] and [free]. *)
Definition malloc : M world (option nat) :=
  fun w =>
    match heap_budget w with
    | O => Done None w
    | S budget => Done (Some (heap_next w)) (set_heap (S (heap_next w)) budget w)
    end.

Definition free_mem : M world unit :=
  modify (fun w => set_heap (heap_next w) (S (heap_budget w)) w).

(** Modelled from the spec: the pools ([upipe/ulifo.h], missing) are
    "fixed-capacity" LIFOs where "push rejects when full" and [pop] returns
    nothing when empty. *)
Definition ulifo_pop (pool : list nat) : option nat * list nat :=
  match pool with
  | [] => (None, [])
  | x :: pool' => (Some x, pool')
  end.

Definition ulifo_push (depth : nat) (pool : list nat) (x : nat)
    : bool * list nat :=
  if (length pool <? depth)%nat then (true, x :: pool) else (false, pool).

(** Modelled from the spec: the raw-memory allocator ([upipe/umem.h],
    missing) "allocates/frees aligned octet regions".  Regions are carved out
    of an arena, never overlap, and start zeroed; an allocation fails when
    the arena is exhausted. *)
Definition umem_alloc (size : Z) : M world (option umem) :=
  fun w =>
    if umem_next w + size <=? umem_limit w then
      Done (Some (mk_umem (umem_next w) size))
        (set_umem (umem_next w + Z.max size 1)
           (<[umem_next w := replicate (Z.to_nat size) 0]> (umem_live w)) w)
    else Done None w.

Definition umem_free (u : umem) : M world unit :=
  modify (fun w => set_umem (umem_next w) (delete (umem_buffer u) (umem_live w)) w).

(** Modelled from the spec: [ubuf_pic_common_check_size]
    ([ubuf_pic_common.c], missing): allocation "requires
    [hsize % macropixel == 0]". *)
Definition ubuf_pic_common_check_size (m : ubuf_pic_mem_mgr)
    (hsize vsize : Z) : bool :=
  Z.rem hsize (macropixel m) =? 0.

(** Modelled from the spec: [ubuf_pic_common_init] "initializes common
    header with the declared margins". *)
Definition ubuf_pic_common_init (c : ubuf_pic_common)
    (hmprepend0 hmappend0 hmsize0 vprepend0 vappend0 vsize0 : Z)
    : ubuf_pic_common :=
  mk_common hmprepend0 hmappend0 hmsize0 vprepend0 vappend0 vsize0 (planes c).

(** Modelled from the spec: [ubuf_pic_common_plane_init] sets the base
    pointer and stride of one plane. *)
Definition ubuf_pic_common_plane_init (c : ubuf_pic_common) (plane : nat)
    (buffer0 : Z) (stride0 : Z) : ubuf_pic_common :=
  mk_common (hmprepend c) (hmappend c) (hmsize c) (vprepend c) (vappend c)
    (vsize c) (<[plane := mk_plane (Some buffer0) stride0]> (planes c)).

(** Modelled from the spec: [ubuf_pic_common_dup] and
    [ubuf_pic_common_plane_dup]: dup "initializes plane views to the same
    base/stride", next to the same sizes and margins. *)
Definition ubuf_pic_common_dup (c new_c : ubuf_pic_common)
    : bool * ubuf_pic_common :=
  (true, mk_common (hmprepend c) (hmappend c) (hmsize c) (vprepend c)
           (vappend c) (vsize c) (planes new_c)).

Definition ubuf_pic_common_plane_dup (c new_c : ubuf_pic_common)
    (plane : nat) : bool * ubuf_pic_common :=
  (true, mk_common (hmprepend new_c) (hmappend new_c) (hmsize new_c)
           (vprepend new_c) (vappend new_c) (vsize new_c)
           (partial_alter (fun _ => planes c !! plane) plane (planes new_c))).

(** *** Access through pointers

    Dereferencing a pointer that is NULL or does not point to a live
    structure is undefined behaviour. *)

Definition lookup_ubuf (ubuf : nat) : M world ubuf_pic_mem :=
  fun w => match ubufs w !! ubuf with
           | Some pic => Done pic w
           | None => Abort
           end.

Definition lookup_shared (sh : option nat) : M world ubuf_pic_mem_shared :=
  fun w => match sh with
           | Some s =>
               match shareds w !! s with
               | Some shr => Done shr w
               | None => Abort
               end
           | None => Abort
           end.

Definition store_ubuf (ubuf : nat) (pic : ubuf_pic_mem) : M world unit :=
  modify (set_ubufs (insert ubuf pic)).

Definition store_shared (sh : option nat) (shr : ubuf_pic_mem_shared)
    : M world unit :=
  match sh with
  | Some s => modify (set_shareds (insert s shr))
  | None => abort
  end.

(** *** The functions of [ubuf_pic_mem.c] *)

Section Functions.

(** Whether the file is compiled with [NDEBUG]. *)
Variable ndebug : bool.

(** [ubuf_pic_mem_use] *)
Definition ubuf_pic_mem_use (ubuf : nat) : M world unit :=
  (do pic <- lookup_ubuf ubuf;
   do shr <- lookup_shared (shared pic);
   store_shared (shared pic)
     (mk_shared (urefcount_use (refcount shr)) (shared_umem shr)))%cmd.

(** [ubuf_pic_mem_single] *)
Definition ubuf_pic_mem_single (ubuf : nat) : M world bool :=
  (do pic <- lookup_ubuf ubuf;
   do shr <- lookup_shared (shared pic);
   ret (urefcount_single (refcount shr)))%cmd.

(** [ubuf_pic_mem_buffer] *)
Definition ubuf_pic_mem_buffer (ubuf : nat) : M world Z :=
  (do pic <- lookup_ubuf ubuf;
   do shr <- lookup_shared (shared pic);
   ret (umem_buffer (shared_umem shr)))%cmd.

(** [ubuf_mgr_use] and [ubuf_pic_mem_mgr_use] *)
Definition ubuf_mgr_use : M world unit :=
  modify (set_mgr (fun m => with_mgr_refcount (urefcount_use (mgr_refcount m)) m)).

(** The memory [malloc] returns for a [struct ubuf_pic_mem]: nothing is
    initialised yet. *)
Definition blank_pic : ubuf_pic_mem :=
  mk_pic None 0 (mk_common 0 0 0 0 0 0 ∅).

(** [ubuf_pic_mem_alloc_inner] *)
Definition ubuf_pic_mem_alloc_inner : M world (option nat) :=
  (do w <- get;
   match ulifo_pop (ubuf_pool (mgr w)) with
   | (Some ubuf, pool) =>
       exec modify (set_mgr (with_ubuf_pool pool));
       do pic <- lookup_ubuf ubuf;
       exec store_ubuf ubuf (with_shared None pic);
       ret (Some ubuf)
   | (None, _) =>
       do r <- malloc;
       match r with
       | None => ret None
       | Some ubuf =>
           exec store_ubuf ubuf blank_pic;
           ret (Some ubuf)
       end
   end)%cmd.

(** [ubuf_pic_mem_free_inner] and [ubuf_pic_mem_shared_free_inner] *)
Definition ubuf_pic_mem_free_inner (ubuf : nat) : M world unit :=
  (exec modify (set_ubufs (delete ubuf)); free_mem)%cmd.

Definition ubuf_pic_mem_shared_free_inner (sh : nat) : M world unit :=
  (exec modify (set_shareds (delete sh)); free_mem)%cmd.

(** [if (!ulifo_push(&pic_mgr->ubuf_pool, ubuf)) ubuf_pic_mem_free_inner(ubuf)] *)
Definition recycle_ubuf (ubuf : nat) : M world unit :=
  (do w <- get;
   match ulifo_push (ubuf_pool_depth (mgr w)) (ubuf_pool (mgr w)) ubuf with
   | (true, pool) => modify (set_mgr (with_ubuf_pool pool))
   | (false, _) => ubuf_pic_mem_free_inner ubuf
   end)%cmd.

(** [if (!ulifo_push(&pic_mgr->shared_pool, shared)) ubuf_pic_mem_shared_free_inner(shared)] *)
Definition recycle_shared (sh : nat) : M world unit :=
  (do w <- get;
   match ulifo_push (shared_pool_depth (mgr w)) (shared_pool (mgr w)) sh with
   | (true, pool) => modify (set_mgr (with_shared_pool pool))
   | (false, _) => ubuf_pic_mem_shared_free_inner sh
   end)%cmd.

(** The first half of [ubuf_pic_mem_alloc]: a shared structure from the pool
    (its counter reset) or from [malloc] (its counter initialised). *)
Definition alloc_shared : M world (option nat) :=
  (do w <- get;
   match ulifo_pop (shared_pool (mgr w)) with
   | (Some sh, pool) =>
       exec modify (set_mgr (with_shared_pool pool));
       do shr <- lookup_shared (Some sh);
       exec store_shared (Some sh)
         (mk_shared (urefcount_reset (refcount shr)) (shared_umem shr));
       ret (Some sh)
   | (None, _) =>
       do r <- malloc;
       match r with
       | None => ret None
       | Some sh =>
           exec store_shared (Some sh) (mk_shared urefcount_init (mk_umem 0 0));
           ret (Some sh)
       end
   end)%cmd.

(** [strides[plane]], [plane_sizes[plane]] and [buffer_size], in [size_t]
    arithmetic. *)
Definition plane_stride (m : ubuf_pic_mem_mgr) (hmsize0 : Z)
    (p : ubuf_pic_common_mgr_plane) : Z :=
  to_size_t
    (to_size_t
       (to_size_t (hmsize0 + mgr_hmprepend m + mgr_hmappend m) / hsub p
        * macropixel_size p)
     + align m).

Definition plane_size (m : ubuf_pic_mem_mgr) (hmsize0 vsize0 : Z)
    (p : ubuf_pic_common_mgr_plane) : Z :=
  to_size_t
    (to_size_t (vsize0 + mgr_vprepend m + mgr_vappend m) / vsub p
     * plane_stride m hmsize0 p).

Definition buffer_size (m : ubuf_pic_mem_mgr) (hmsize0 vsize0 : Z) : Z :=
  fold_left (fun acc p => to_size_t (acc + plane_size m hmsize0 vsize0 p))
    (mgr_planes m) 0.

(** The octet offset, within a line of plane [p], of the macropixel that is
    to be aligned:
    [(align_hmoffset + hmprepend) / hsub * macropixel_size], where the [int]
    [align_hmoffset] is converted to [size_t] for the addition. *)
Definition align_offset (m : ubuf_pic_mem_mgr)
    (p : ubuf_pic_common_mgr_plane) : Z :=
  to_size_t
    (to_size_t (align_hmoffset m + mgr_hmprepend m) / hsub p
     * macropixel_size p).

(** The base pointer of a plane whose region starts at [buffer0]. *)
Definition plane_base (m : ubuf_pic_mem_mgr) (buffer0 : Z)
    (p : ubuf_pic_common_mgr_plane) : Z :=
  let plane_buffer := buffer0 + align m in
  if align m =? 0 then plane_buffer
  else plane_buffer - to_size_t (plane_buffer + align_offset m p) mod align m.

(** The second loop of [ubuf_pic_mem_alloc]. *)
Fixpoint init_planes (m : ubuf_pic_mem_mgr) (hmsize0 vsize0 : Z)
    (ps : list ubuf_pic_common_mgr_plane) (plane : nat) (buffer0 : Z)
    (c : ubuf_pic_common) : ubuf_pic_common :=
  match ps with
  | [] => c
  | p :: ps' =>
      init_planes m hmsize0 vsize0 ps' (S plane)
        (buffer0 + plane_size m hmsize0 vsize0 p)
        (ubuf_pic_common_plane_init c plane (plane_base m buffer0 p)
           (plane_stride m hmsize0 p))
  end.

(** A division by a zero [hsub] or [vsub] is undefined. *)
Definition zero_subsampling (m : ubuf_pic_mem_mgr) : bool :=
  existsb (fun p => (hsub p =? 0) || (vsub p =? 0)) (mgr_planes m).

(** [ubuf_pic_mem_alloc] *)
Definition ubuf_pic_mem_alloc (hsize vsize : Z) : M world (option nat) :=
  (do w0 <- get;
   let m := mgr w0 in
   if macropixel m =? 0 then abort
   else if negb (ubuf_pic_common_check_size m hsize vsize) then ret None
   else
     do r <- ubuf_pic_mem_alloc_inner;
     match r with
     | None => ret None
     | Some ubuf =>
         do s <- alloc_shared;
         match s with
         | None => exec recycle_ubuf ubuf; ret None
         | Some sh =>
             do pic <- lookup_ubuf ubuf;
             exec store_ubuf ubuf (with_shared (Some sh) pic);
             if zero_subsampling m then abort
             else
               let hmsize0 := to_size_t (Z.quot hsize (macropixel m)) in
               do um <- umem_alloc (buffer_size m hmsize0 vsize);
               match um with
               | None =>
                   exec recycle_shared sh;
                   exec recycle_ubuf ubuf;
                   ret None
               | Some u =>
                   do shr <- lookup_shared (Some sh);
                   exec store_shared (Some sh) (mk_shared (refcount shr) u);
                   do buffer0 <- ubuf_pic_mem_buffer ubuf;
                   do pic <- lookup_ubuf ubuf;
                   exec store_ubuf ubuf
                     (with_common
                        (init_planes m hmsize0 vsize (mgr_planes m) 0 buffer0
                           (ubuf_pic_common_init (common pic)
                              (mgr_hmprepend m) (mgr_hmappend m) hmsize0
                              (mgr_vprepend m) (mgr_vappend m) vsize))
                        pic);
                   exec ubuf_mgr_use;
                   ret (Some ubuf)
               end
         end
     end)%cmd.

(** [ubuf_pic_mem_mgr_vacuum]: every pooled structure goes back to the
    heap. *)
Definition ubuf_pic_mem_mgr_vacuum : M world unit :=
  (do w <- get;
   exec modify (set_ubufs (fun u => foldr delete u (ubuf_pool (mgr w))));
   exec modify (set_shareds (fun u => foldr delete u (shared_pool (mgr w))));
   exec modify (fun w' =>
     set_heap (heap_next w')
       (heap_budget w' + length (ubuf_pool (mgr w))
        + length (shared_pool (mgr w)))%nat w');
   modify (set_mgr (fun m => with_shared_pool [] (with_ubuf_pool [] m))))%cmd.

(** [ubuf_mgr_release] and [ubuf_pic_mem_mgr_release]: the last reference
    empties the pools and frees the manager, whose counter stays at 0. *)
Definition ubuf_pic_mem_mgr_release : M world unit :=
  (do w <- get;
   let (r, last) := urefcount_release (mgr_refcount (mgr w)) in
   exec modify (set_mgr (with_mgr_refcount r));
   if last then (exec ubuf_pic_mem_mgr_vacuum; free_mem) else ret tt)%cmd.

(** [ubuf_pic_mem_free] *)
Definition ubuf_pic_mem_free (ubuf : nat) : M world unit :=
  (do pic <- lookup_ubuf ubuf;
   exec c_assert ndebug (readers pic =? 0);
   do shr <- lookup_shared (shared pic);
   let (r, last) := urefcount_release (refcount shr) in
   exec store_shared (shared pic) (mk_shared r (shared_umem shr));
   exec (if last then
           exec umem_free (shared_umem shr);
           match shared pic with
           | Some sh => recycle_shared sh
           | None => abort
           end
         else ret tt);
   exec recycle_ubuf ubuf;
   ubuf_pic_mem_mgr_release)%cmd.

(** The loop of [ubuf_pic_mem_dup] over the planes; it stops at the first
    plane that cannot be duplicated. *)
Fixpoint dup_planes (c : ubuf_pic_common) (todo : nat) (plane : nat)
    (new_c : ubuf_pic_common) : bool * ubuf_pic_common :=
  match todo with
  | O => (true, new_c)
  | S todo' =>
      match ubuf_pic_common_plane_dup c new_c plane with
      | (true, new_c') => dup_planes c todo' (S plane) new_c'
      | (false, new_c') => (false, new_c')
      end
  end.

(** [ubuf_pic_mem_dup]: [Some new_ubuf] when it returns true, having written
    [new_ubuf] to [*new_ubuf_p]. *)
Definition ubuf_pic_mem_dup (ubuf : nat) : M world (option nat) :=
  (do r <- ubuf_pic_mem_alloc_inner;
   match r with
   | None => ret None
   | Some new_ubuf =>
       do pic <- lookup_ubuf ubuf;
       do new_pic <- lookup_ubuf new_ubuf;
       match ubuf_pic_common_dup (common pic) (common new_pic) with
       | (false, new_c) =>
           exec store_ubuf new_ubuf (with_common new_c new_pic);
           exec ubuf_pic_mem_free new_ubuf;
           ret None
       | (true, new_c) =>
           do w <- get;
           match dup_planes (common pic) (length (mgr_planes (mgr w))) 0 new_c
           with
           | (false, new_c') =>
               exec store_ubuf new_ubuf (with_common new_c' new_pic);
               exec ubuf_pic_mem_free new_ubuf;
               ret None
           | (true, new_c') =>
               exec store_ubuf new_ubuf
                 (with_shared (shared pic) (with_common new_c' new_pic));
               exec ubuf_pic_mem_use new_ubuf;
               exec ubuf_mgr_use;
               ret (Some new_ubuf)
           end
       end
   end)%cmd.

(** *** Control commands *)

(** The commands a picture ubuf can receive, with their arguments; the
    pointers through which results are returned are left out and the
    results are given by [control_out].  [UBUF_OTHER] stands for every
    command of [enum ubuf_command] that the [switch] does not list. *)
Inductive ubuf_command : Type :=
| UBUF_DUP
| UBUF_SIZE_PICTURE
| UBUF_ITERATE_PICTURE_PLANE (chroma_p : option string)
| UBUF_SIZE_PICTURE_PLANE (chroma0 : string)
| UBUF_READ_PICTURE_PLANE (chroma0 : string) (hoffset voffset hsize vsize : Z)
| UBUF_WRITE_PICTURE_PLANE (chroma0 : string) (hoffset voffset hsize vsize : Z)
| UBUF_UNMAP_PICTURE_PLANE (chroma0 : string) (hoffset voffset hsize vsize : Z)
| UBUF_RESIZE_PICTURE (hskip vskip new_hsize new_vsize : Z)
| UBUF_OTHER.

(** What a command wrote through its result pointers. *)
Inductive control_out : Type :=
| OutNothing
| OutUbuf (new_ubuf : nat)
| OutSize (hsize vsize macropixel0 : Z)
| OutChroma (chroma_p : option string)
| OutPlaneSize (stride0 hsub0 vsub0 macropixel_size0 : Z)
| OutBuffer (buffer0 : Z).

(** The functions of [ubuf_pic_common.c] that the commands are delegated
    to are not in this file; they are parameters here.  The first four only
    read the ubuf and return what they write through their result pointers
    ([None] when they return false); [ubuf_pic_common_resize] returns the
    new common structure. *)
Variable ubuf_pic_common_size :
  ubuf_pic_common_mgr -> ubuf_pic_common -> option (Z * Z * Z).
Variable ubuf_pic_common_plane_iterate :
  ubuf_pic_common_mgr -> ubuf_pic_common -> option string ->
  option (option string).
Variable ubuf_pic_common_plane_size :
  ubuf_pic_common_mgr -> ubuf_pic_common -> string -> option (Z * Z * Z * Z).
Variable ubuf_pic_common_plane_map :
  ubuf_pic_common_mgr -> ubuf_pic_common -> string -> Z -> Z -> Z -> Z ->
  option Z.
Variable ubuf_pic_common_resize :
  ubuf_pic_common_mgr -> ubuf_pic_common -> Z -> Z -> Z -> Z ->
  option ubuf_pic_common.

(** [uatomic_fetch_add(&pic->readers, 1)] and [uatomic_fetch_sub], present
    without [NDEBUG] only. *)
Definition readers_add (ubuf : nat) (d : Z) : M world unit :=
  if ndebug then ret tt
  else
    (do pic <- lookup_ubuf ubuf;
     store_ubuf ubuf (with_readers (to_uint32 (readers pic + d)) pic))%cmd.

(** The body shared by the read and write commands once the write command
    has checked the counter. *)
Definition plane_map_and_count (ubuf : nat) (chroma0 : string)
    (hoffset voffset hsize vsize : Z) : M world (bool * control_out) :=
  (do w <- get;
   do pic <- lookup_ubuf ubuf;
   match ubuf_pic_common_plane_map (common_mgr (mgr w)) (common pic) chroma0
           hoffset voffset hsize vsize with
   | Some buffer0 => exec readers_add ubuf 1; ret (true, OutBuffer buffer0)
   | None => ret (false, OutNothing)
   end)%cmd.

(** [ubuf_pic_mem_control] *)
Definition ubuf_pic_mem_control (ubuf : nat) (command : ubuf_command)
    : M world (bool * control_out) :=
  (match command with
   | UBUF_DUP =>
       do r <- ubuf_pic_mem_dup ubuf;
       match r with
       | Some new_ubuf => ret (true, OutUbuf new_ubuf)
       | None => ret (false, OutNothing)
       end
   | UBUF_SIZE_PICTURE =>
       do w <- get;
       do pic <- lookup_ubuf ubuf;
       match ubuf_pic_common_size (common_mgr (mgr w)) (common pic) with
       | Some (h, v, mp) => ret (true, OutSize h v mp)
       | None => ret (false, OutNothing)
       end
   | UBUF_ITERATE_PICTURE_PLANE chroma_p =>
       do w <- get;
       do pic <- lookup_ubuf ubuf;
       match ubuf_pic_common_plane_iterate (common_mgr (mgr w)) (common pic) chroma_p with
       | Some c => ret (true, OutChroma c)
       | None => ret (false, OutNothing)
       end
   | UBUF_SIZE_PICTURE_PLANE chroma0 =>
       do w <- get;
       do pic <- lookup_ubuf ubuf;
       match ubuf_pic_common_plane_size (common_mgr (mgr w)) (common pic) chroma0 with
       | Some (st, hs, vs, ms) => ret (true, OutPlaneSize st hs vs ms)
       | None => ret (false, OutNothing)
       end
   | UBUF_READ_PICTURE_PLANE chroma0 hoffset voffset hsize vsize =>
       plane_map_and_count ubuf chroma0 hoffset voffset hsize vsize
   | UBUF_WRITE_PICTURE_PLANE chroma0 hoffset voffset hsize vsize =>
       do single <- ubuf_pic_mem_single ubuf;
       if negb single then ret (false, OutNothing)
       else plane_map_and_count ubuf chroma0 hoffset voffset hsize vsize
   | UBUF_UNMAP_PICTURE_PLANE _ _ _ _ _ =>
       exec readers_add ubuf (-1);
       ret (true, OutNothing)
   | UBUF_RESIZE_PICTURE hskip vskip new_hsize new_vsize =>
       do w <- get;
       do pic <- lookup_ubuf ubuf;
       match ubuf_pic_common_resize (common_mgr (mgr w)) (common pic) hskip vskip
               new_hsize new_vsize with
       | Some c => exec store_ubuf ubuf (with_common c pic); ret (true, OutNothing)
       | None => ret (false, OutNothing)
       end
   | UBUF_OTHER => ret (false, OutNothing)
   end)%cmd.

(** *** Managers *)

Definition UBUF_DEFAULT_HPREPEND : Z := 8.
Definition UBUF_DEFAULT_HAPPEND : Z := 8.
Definition UBUF_DEFAULT_VPREPEND : Z := 2.
Definition UBUF_DEFAULT_VAPPEND : Z := 2.
Definition UBUF_DEFAULT_ALIGN : Z := 0.

(** [ubuf_pic_mem_mgr_alloc], run in a world that has no manager yet;
    returns whether a manager was allocated.  The arguments other than the
    pool depths and [macropixel] are [int]s. *)
Definition ubuf_pic_mem_mgr_alloc (ubuf_pool_depth0 shared_pool_depth0 : nat)
    (macropixel0 hprepend happend vprepend0 vappend0 align0 align_hmoffset0 : Z)
    : M world bool :=
  (if macropixel0 =? 0 then abort
   else
     exec c_assert ndebug
       ((hprepend =? -1) || (Z.rem hprepend macropixel0 =? 0));
     exec c_assert ndebug
       ((happend =? -1) || (Z.rem happend macropixel0 =? 0));
     do r <- malloc;
     match r with
     | None => ret false
     | Some _ =>
         exec modify (set_mgr (fun _ =>
           mk_mgr
             (to_size_t
                (Z.quot (if 0 <=? hprepend then hprepend
                         else UBUF_DEFAULT_HPREPEND) macropixel0))
             (to_size_t
                (Z.quot (if 0 <=? happend then happend
                         else UBUF_DEFAULT_HAPPEND) macropixel0))
             (to_size_t
                (if 0 <=? vprepend0 then vprepend0 else UBUF_DEFAULT_VPREPEND))
             (to_size_t
                (if 0 <=? vappend0 then vappend0 else UBUF_DEFAULT_VAPPEND))
             (to_size_t (if 0 <=? align0 then align0 else UBUF_DEFAULT_ALIGN))
             align_hmoffset0
             [] ubuf_pool_depth0 [] shared_pool_depth0
             urefcount_init macropixel0 []));
         ret true
     end)%cmd.

(** Modelled from the spec: [ubuf_pic_common_mgr_add_plane]
    ([ubuf_pic_common.c], missing) appends a plane; "chroma names are opaque
    short strings; duplicates forbidden". *)
Definition ubuf_pic_common_mgr_add_plane (m : ubuf_pic_mem_mgr)
    (chroma0 : string) (hsub0 vsub0 macropixel_size0 : Z)
    : bool * ubuf_pic_mem_mgr :=
  if existsb (fun p => String.eqb (chroma p) chroma0) (mgr_planes m)
  then (false, m)
  else (true,
        with_planes
          (mgr_planes m ++ [mk_mgr_plane chroma0 hsub0 vsub0 macropixel_size0])
          m).

(** [ubuf_pic_mem_mgr_add_plane] *)
Definition ubuf_pic_mem_mgr_add_plane (chroma0 : string)
    (hsub0 vsub0 macropixel_size0 : Z) : M world bool :=
  (do w <- get;
   exec c_assert ndebug (urefcount_single (mgr_refcount (mgr w)));
   exec ubuf_pic_mem_mgr_vacuum;
   do w1 <- get;
   let (r, m) :=
     ubuf_pic_common_mgr_add_plane (mgr w1) chroma0 hsub0 vsub0
       macropixel_size0 in
   exec modify (set_mgr (fun _ => m));
   ret r)%cmd.

(** The planes [ubuf_pic_mem_mgr_alloc_fourcc] registers for a fourcc, with
    the macropixel of the format. *)
Definition fourcc_format (fcc : string)
    : option (Z * list (string * Z * Z * Z)) :=
  if (String.eqb fcc "I420" || String.eqb fcc "YV12" || String.eqb fcc "IYUV")
  then Some (1, [("y8", 1, 1, 1); ("u8", 2, 2, 1); ("v8", 2, 2, 1)])
  else if String.eqb fcc "YV16"
  then Some (1, [("y8", 1, 1, 1); ("u8", 2, 1, 1); ("v8", 2, 1, 1)])
  else if (String.eqb fcc "YUVY" || String.eqb fcc "YUY2"
           || String.eqb fcc "YUNV" || String.eqb fcc "V422")
  then Some (2, [("y8u8y8v8", 1, 1, 4)])
  else if String.eqb fcc "UYVY" then Some (2, [("u8y8v8y8", 1, 1, 4)])
  else if String.eqb fcc "YVYU" then Some (2, [("y8v8y8u8", 1, 1, 4)])
  else if String.eqb fcc "AYUV" then Some (1, [("a8y8u8v8", 1, 1, 4)])
  else if String.eqb fcc "V410" then Some (1, [("u10y10v10", 1, 1, 4)])
  else if String.eqb fcc "RGBA" then Some (1, [("a8r8g8b8", 1, 1, 4)])
  else None.

(** The chain [!add_plane(..) || !add_plane(..) || ...]: true when every
    plane was added. *)
Fixpoint add_planes (ps : list (string * Z * Z * Z)) : M world bool :=
  match ps with
  | [] => ret true
  | (c, h, v, ms) :: ps' =>
      (do r <- ubuf_pic_mem_mgr_add_plane c h v ms;
       if r then add_planes ps' else ret false)%cmd
  end.

(** [ubuf_pic_mem_mgr_alloc_fourcc] *)
Definition ubuf_pic_mem_mgr_alloc_fourcc (ubuf_pool_depth0 shared_pool_depth0 : nat)
    (fcc : string)
    (hmprepend0 hmappend0 vprepend0 vappend0 align0 align_hmoffset0 : Z)
    : M world bool :=
  match fourcc_format fcc with
  | None => ret false
  | Some (macropixel0, ps) =>
      (do r <- ubuf_pic_mem_mgr_alloc ubuf_pool_depth0 shared_pool_depth0
                 macropixel0 hmprepend0 hmappend0 vprepend0 vappend0 align0
                 align_hmoffset0;
       if r then
         do ok <- add_planes ps;
         if ok then ret true
         else exec ubuf_pic_mem_mgr_release; ret false
       else ret false)%cmd
  end.

End Functions.

(** A machine in which no manager has been allocated: [budget] calls of
    [malloc] will succeed, and the umem arena spans [[arena, limit)]. *)
Definition machine (budget : nat) (arena limit : Z) : world :=
  mk_world (mk_mgr 0 0 0 0 0 0 [] 0 [] 0 0 0 []) ∅ ∅ 1 budget arena limit ∅.

(** *** Strides and alignment of an allocated picture *)

(** The sizes a manager is built from: [ubuf_pic_mem_mgr_alloc] gets [int]s
    and a [uint8_t] macropixel, a plane has [uint8_t] subsamplings (not 0,
    which would be divided by) and macropixel size. *)
Definition plane_ok (p : ubuf_pic_common_mgr_plane) : Prop :=
  1 <= hsub p <= 255 /\ 1 <= vsub p <= 255 /\ 0 <= macropixel_size p <= 255.

Definition mgr_wf (m : ubuf_pic_mem_mgr) : Prop :=
  1 <= macropixel m <= 255 /\
  0 <= mgr_hmprepend m <= INT_MAX /\
  0 <= mgr_hmappend m <= INT_MAX /\
  0 <= mgr_vprepend m <= INT_MAX /\
  0 <= mgr_vappend m <= INT_MAX /\
  0 <= align m <= INT_MAX /\
  INT_MIN <= align_hmoffset m <= INT_MAX /\
  Forall plane_ok (mgr_planes m).









(** *** What a successful allocation leaves behind *)

(** Reading a field of a world that was just updated. *)
Ltac wsimpl :=
  repeat (progress
    (cbn [mgr ubufs shareds heap_next heap_budget umem_next umem_limit
          umem_live set_mgr set_ubufs set_shareds set_heap set_umem
          shared readers common with_shared with_readers with_common
          refcount shared_umem umem_buffer umem_size fst snd] in *;
     rewrite ?lookup_insert_eq in *)).

Lemma alloc_shared_inv w sh w1 :
  alloc_shared w = Done (Some sh) w1 ->
  ubufs w1 = ubufs w /\
  exists u0, shareds w1 !! sh = Some (mk_shared 1 u0).
Proof.
  unfold alloc_shared, bind, get. cbn beta.
  destruct (ulifo_pop (shared_pool (mgr w))) as [[s|] pool].
  - unfold modify, lookup_shared, store_shared, modify, ret. cbn.
    destruct (shareds w !! s) as [shr|]; [|discriminate].
    intros [= <- <-]. cbn. split; [reflexivity|].
    eexists. apply lookup_insert_eq.
  - unfold malloc. destruct (heap_budget w); [discriminate|].
    unfold store_shared, modify, ret. cbn.
    intros [= <- <-]. cbn. split; [reflexivity|].
    eexists. apply lookup_insert_eq.
Qed.



(** *** Scenario: a YV12 picture of 64x32 *)

(** The manager of the scenario: macropixel 1, margins 8/8/2/2, lines
    aligned on 16 octets at macropixel offset 0; pools of 2, [malloc] good
    for 8 allocations, umem arena from address 4096. *)
Definition yv12_world : world :=
  match ubuf_pic_mem_mgr_alloc_fourcc false 2 2 "YV12" 8 8 2 2 16 0
          (machine 8 4096 1048576) with
  | Done _ w => w
  | Abort => machine 0 0 0
  end.

Definition yv12_alloc : outcome world (option nat) :=
  ubuf_pic_mem_alloc 64 32 yv12_world.

Definition yv12_allocated : world :=
  match yv12_alloc with
  | Done _ w => w
  | Abort => yv12_world
  end.

Example yv12_mgr :
  ubuf_pic_mem_mgr_alloc_fourcc false 2 2 "YV12" 8 8 2 2 16 0
    (machine 8 4096 1048576) = Done true yv12_world /\
  mgr_planes (mgr yv12_world) =
    [mk_mgr_plane "y8" 1 1 1; mk_mgr_plane "u8" 2 2 1; mk_mgr_plane "v8" 2 2 1].
Proof. split; vm_compute; reflexivity. Qed.

(** The strides are 80 + 16 and 40 + 16 octets; each base is placed so that
    the first visible macropixel, 8 (resp. 4) octets further, is on a
    multiple of 16. *)
Example yv12_planes :
  yv12_alloc = Done (Some 2%nat) yv12_allocated /\
  (pic ← ubufs yv12_allocated !! 2%nat;
   Some (planes (common pic) !! 0%nat, planes (common pic) !! 1%nat,
         planes (common pic) !! 2%nat)) =
  Some (Some (mk_plane (Some 4104) 96), Some (mk_plane (Some 7564) 56),
        Some (mk_plane (Some 8572) 56)) /\
  (4104 + 8) mod 16 = 0 /\ (7564 + 4) mod 16 = 0 /\ (8572 + 4) mod 16 = 0.
Proof. split_and!; vm_compute; reflexivity. Qed.



(** A manager with one plane subsampled by 3, lines aligned on 16 octets and
    [align_hmoffset = -9] against a margin of 8 macropixels: the aligned
    macropixel lies one macropixel before the margin. *)
Definition skew_world : world :=
  match (exec ubuf_pic_mem_mgr_alloc false 2 2 1 8 8 2 2 16 (-9);
         ubuf_pic_mem_mgr_add_plane false "r8g8b8" 3 1 1)%cmd
          (machine 8 4096 1048576) with
  | Done _ w => w
  | Abort => machine 0 0 0
  end.

Definition skew_allocated : world :=
  match ubuf_pic_mem_alloc 66 32 skew_world with
  | Done _ w => w
  | Abort => skew_world
  end.

Definition skew_plane : ubuf_pic_common_mgr_plane :=
  mk_mgr_plane "r8g8b8" 3 1 1.

(** C3 as stated fails when [align_hmoffset + hmprepend] is negative (the
    source allows it: [align_hmoffset] "may be negative").  The sum is
    computed in [size_t] and wraps, so that the base that is chosen, 4107,
    makes the wrapped offset aligned; with the integer offset of the claim,
    [(align_hmoffset + hmprepend) / hsub * macropixel_size], the address is
    11 modulo 16 when the division truncates as in C, and 10 when it rounds
    down. *)
Lemma alloc_negative_hmoffset_unaligned :
  mgr_wf (mgr skew_world) /\
  mgr_planes (mgr skew_world) = [skew_plane] /\
  align (mgr skew_world) = 16 /\
  align_hmoffset (mgr skew_world) + mgr_hmprepend (mgr skew_world) = -1 /\
  ubuf_pic_mem_alloc 66 32 skew_world = Done (Some 2%nat) skew_allocated /\
  (pic ← ubufs skew_allocated !! 2%nat; planes (common pic) !! 0%nat)
  = Some (mk_plane (Some 4107) 43) /\
  (4107
   + Z.quot (align_hmoffset (mgr skew_world) + mgr_hmprepend (mgr skew_world))
       (hsub skew_plane) * macropixel_size skew_plane) mod 16 = 11 /\
  (4107
   + (align_hmoffset (mgr skew_world) + mgr_hmprepend (mgr skew_world))
       / hsub skew_plane * macropixel_size skew_plane) mod 16 = 10 /\
  to_size_t (4107 + align_offset (mgr skew_world) skew_plane) mod 16 = 0.
Proof.
  split.
  { unfold mgr_wf. vm_compute.
    split_and!; try (intros ?; discriminate).
    repeat constructor; intros ?; discriminate. }
  split_and!; vm_compute; reflexivity.
Qed.

(** The same with a format of [ubuf_pic_mem_mgr_alloc_fourcc]: for YV12 with
    [align_hmoffset = -9] the chroma planes get the bases 7553 and 8561,
    which the truncated offset 0 leaves at 1 modulo 16. *)
Example yv12_negative_hmoffset :
  match ubuf_pic_mem_mgr_alloc_fourcc false 2 2 "YV12" 8 8 2 2 16 (-9)
          (machine 8 4096 1048576) with
  | Done true w =>
      match ubuf_pic_mem_alloc 64 32 w with
      | Done (Some ubuf) w' =>
          (pic ← ubufs w' !! ubuf;
           Some (buffer <$> planes (common pic) !! 1%nat,
                 buffer <$> planes (common pic) !! 2%nat))
          = Some (Some (Some 7553), Some (Some 8561)) /\
          (7553 + Z.quot (-9 + 8) 2 * 1) mod 16 = 1 /\
          (8561 + Z.quot (-9 + 8) 2 * 1) mod 16 = 1
      | _ => False
      end
  | _ => False
  end.
Proof. vm_compute. split_and!; reflexivity. Qed.

(** *** Duplicating and freeing *)

(** A ubuf is live when it is a structure of the world that is not waiting
    in the pool. *)
Definition live (w : world) (ubuf : nat) (pic : ubuf_pic_mem) : Prop :=
  ubufs w !! ubuf = Some pic /\ ubuf ∉ ubuf_pool (mgr w).

(** What the allocator guarantees: the pool holds each structure once, and
    [malloc] returns addresses above those in use. *)
Definition heap_wf (w : world) : Prop :=
  NoDup (ubuf_pool (mgr w)) /\
  map_Forall (fun k _ => (k < heap_next w)%nat) (ubufs w).

Lemma alloc_inner_inv w b2 w1 :
  heap_wf w ->
  ubuf_pic_mem_alloc_inner w = Done (Some b2) w1 ->
  exists pic0,
    ubufs w1 = <[b2 := with_shared None pic0]> (ubufs w) /\
    (forall y, y ∉ ubuf_pool (mgr w) -> is_Some (ubufs w !! y) -> y <> b2) /\
    (b2 ∉ ubuf_pool (mgr w1)) /\
    (forall y, y ∈ ubuf_pool (mgr w1) -> y ∈ ubuf_pool (mgr w)) /\
    shareds w1 = shareds w /\ umem_live w1 = umem_live w /\
    mgr_refcount (mgr w1) = mgr_refcount (mgr w) /\
    mgr_planes (mgr w1) = mgr_planes (mgr w) /\
    shared_pool (mgr w1) = shared_pool (mgr w) /\
    common_mgr (mgr w1) = common_mgr (mgr w).
Proof.
  intros [Hnd Hfresh].
  unfold ubuf_pic_mem_alloc_inner, bind, get. cbn beta.
  destruct (ubuf_pool (mgr w)) as [|x pool] eqn:Ep; cbn [ulifo_pop].
  - unfold malloc. destruct (heap_budget w); [discriminate|].
    unfold store_ubuf, modify, ret. intros [= <- <-]. wsimpl.
    exists blank_pic. split_and!; try reflexivity.
    + intros y _ [py Hy] -> . apply Hfresh in Hy. lia.
    + rewrite Ep. apply not_elem_of_nil.
    + rewrite Ep. auto.
  - unfold modify, lookup_ubuf, store_ubuf, modify, ret. wsimpl.
    destruct (ubufs w !! x) as [picx|]; [|discriminate].
    intros [= <- <-]. wsimpl.
    exists picx. apply NoDup_cons in Hnd as [Hx Hnd].
    split_and!; try reflexivity.
    + intros y Hy _ ->. apply Hy. apply elem_of_cons. now left.
    + exact Hx.
    + intros y Hy. apply elem_of_cons. now right.
Qed.

Lemma dup_planes_spec c : forall n k new_c,
  exists new_c',
    dup_planes c n k new_c = (true, new_c') /\
    hmprepend new_c' = hmprepend new_c /\ hmappend new_c' = hmappend new_c /\
    hmsize new_c' = hmsize new_c /\ vprepend new_c' = vprepend new_c /\
    vappend new_c' = vappend new_c /\ vsize new_c' = vsize new_c /\
    (forall i, (k <= i < k + n)%nat -> planes new_c' !! i = planes c !! i) /\
    (forall i, (i < k)%nat -> planes new_c' !! i = planes new_c !! i).
Proof.
  induction n as [|n IH]; intros k new_c; cbn [dup_planes].
  - exists new_c. split_and!; try reflexivity. intros i Hi. lia.
  - unfold ubuf_pic_common_plane_dup.
    destruct (IH (S k) (mk_common (hmprepend new_c) (hmappend new_c)
                (hmsize new_c) (vprepend new_c) (vappend new_c) (vsize new_c)
                (partial_alter (fun _ => planes c !! k) k (planes new_c))))
      as (c' & E & H1 & H2 & H3 & H4 & H5 & H6 & Hp & Hq).
    exists c'. rewrite E. split_and!; try assumption; try reflexivity.
    + intros i Hi. destruct (decide (i = k)) as [->|Hne].
      * rewrite Hq by lia. cbn. apply lookup_partial_alter_eq.
      * apply Hp. lia.
    + intros i Hi. rewrite Hq by lia. cbn.
      apply lookup_partial_alter_ne. lia.
Qed.

Lemma recycle_ubuf_spec x w :
  exists w',
    recycle_ubuf x w = Done tt w' /\
    shareds w' = shareds w /\ umem_live w' = umem_live w /\
    mgr_refcount (mgr w') = mgr_refcount (mgr w) /\
    shared_pool (mgr w') = shared_pool (mgr w) /\
    (forall y, y <> x -> ubufs w' !! y = ubufs w !! y) /\
    (forall y, y ∈ ubuf_pool (mgr w') -> y = x \/ y ∈ ubuf_pool (mgr w)) /\
    common_mgr (mgr w') = common_mgr (mgr w).
Proof.
  unfold recycle_ubuf, bind, get, ulifo_push. cbn beta.
  destruct (_ <? _)%nat.
  - eexists. split; [reflexivity|]. wsimpl.
    split_and!; try reflexivity. intros y Hy. cbn in Hy.
    apply elem_of_cons in Hy. tauto.
  - eexists. split; [reflexivity|]. wsimpl.
    split_and!; try reflexivity; [|auto].
    intros y Hy. now apply lookup_delete_ne.
Qed.

Lemma recycle_shared_spec sh w :
  exists w',
    recycle_shared sh w = Done tt w' /\
    ubufs w' = ubufs w /\ umem_live w' = umem_live w /\
    mgr_refcount (mgr w') = mgr_refcount (mgr w) /\
    ubuf_pool (mgr w') = ubuf_pool (mgr w) /\
    ubuf_pool_depth (mgr w') = ubuf_pool_depth (mgr w) /\
    common_mgr (mgr w') = common_mgr (mgr w).
Proof.
  unfold recycle_shared, bind, get, ulifo_push. cbn beta.
  destruct (_ <? _)%nat; eexists; (split; [reflexivity|]); wsimpl;
    split_and!; reflexivity.
Qed.

Lemma ubuf_pic_mem_mgr_release_spec w :
  exists w',
    ubuf_pic_mem_mgr_release w = Done tt w' /\
    umem_live w' = umem_live w /\
    (forall y, y ∉ ubuf_pool (mgr w) -> ubufs w' !! y = ubufs w !! y) /\
    (forall s, s ∉ shared_pool (mgr w) -> shareds w' !! s = shareds w !! s) /\
    common_mgr (mgr w') = common_mgr (mgr w).
Proof.
  unfold ubuf_pic_mem_mgr_release, bind, get, urefcount_release. cbn beta iota.
  destruct (mgr_refcount (mgr w) =? 1).
  - eexists. split; [reflexivity|]. wsimpl. split_and!; [reflexivity|..].
    + intros y Hy. now apply lookup_foldr_delete_not_elem_of.
    + intros s Hs. now apply lookup_foldr_delete_not_elem_of.
    + reflexivity.
  - eexists. split; [reflexivity|]. wsimpl. auto.
Qed.

(** What [ubuf_pic_mem_dup] does when it returns true. *)
Lemma ubuf_pic_mem_dup_inv ndebug w b pic sh shr b2 w1 :
  heap_wf w -> live w b pic ->
  shared pic = Some sh -> shareds w !! sh = Some shr ->
  ubuf_pic_mem_dup ndebug b w = Done (Some b2) w1 ->
  b2 <> b /\
  ubufs w1 !! b = Some pic /\
  (exists pic2,
     ubufs w1 !! b2 = Some pic2 /\ shared pic2 = Some sh /\
     hmprepend (common pic2) = hmprepend (common pic) /\
     hmappend (common pic2) = hmappend (common pic) /\
     hmsize (common pic2) = hmsize (common pic) /\
     vprepend (common pic2) = vprepend (common pic) /\
     vappend (common pic2) = vappend (common pic) /\
     vsize (common pic2) = vsize (common pic) /\
     forall i, (i < length (mgr_planes (mgr w)))%nat ->
       planes (common pic2) !! i = planes (common pic) !! i) /\
  shareds w1 =
    <[sh := mk_shared (refcount shr + 1) (shared_umem shr)]> (shareds w) /\
  umem_live w1 = umem_live w /\
  (b ∉ ubuf_pool (mgr w1)) /\ (b2 ∉ ubuf_pool (mgr w1)) /\
  mgr_refcount (mgr w1) = mgr_refcount (mgr w) + 1 /\
  shared_pool (mgr w1) = shared_pool (mgr w) /\
  common_mgr (mgr w1) = common_mgr (mgr w).
Proof.
  intros Hwf [Hb Hpool] Hsh Hshr.
  unfold ubuf_pic_mem_dup, bind. 
  destruct (ubuf_pic_mem_alloc_inner w) as [[n|] w0|] eqn:E0; try discriminate.
  destruct (alloc_inner_inv w n w0 Hwf E0)
    as (pic0 & Eu & Hne & Hn & Hsub & Es & El & Er & Ep & Esp & Ecm).
  assert (Hbn : b <> n) by (apply Hne; [assumption | now rewrite Hb]).
  unfold lookup_ubuf at 1. rewrite Eu, lookup_insert_ne, Hb by auto.
  cbn beta iota.
  unfold lookup_ubuf at 1. rewrite Eu, lookup_insert_eq.
  cbn beta iota. unfold ubuf_pic_common_dup. cbn beta iota.
  unfold get at 1. cbn beta iota. rewrite Ep.
  destruct (dup_planes_spec (common pic) (length (mgr_planes (mgr w))) 0
              (mk_common (hmprepend (common pic)) (hmappend (common pic))
                 (hmsize (common pic)) (vprepend (common pic))
                 (vappend (common pic)) (vsize (common pic))
                 (planes (common (with_shared None pic0)))))
    as (c' & Ed & H1 & H2 & H3 & H4 & H5 & H6 & Hp & _).
  rewrite Ed.
  unfold store_ubuf, ubuf_pic_mem_use, ubuf_mgr_use, lookup_ubuf,
    lookup_shared, store_shared, modify, bind, ret. wsimpl.
  rewrite Hsh, Es, Hshr.
  intros [= <- <-]. wsimpl.
  split; [auto|]. split.
  { rewrite lookup_insert_ne, Eu, lookup_insert_ne by auto. exact Hb. }
  split.
  { eexists. split; [reflexivity|]. wsimpl.
    split_and!; try assumption; try reflexivity.
    intros i Hi. apply Hp. lia. }
  cbn [ubuf_pool shared_pool mgr_refcount with_mgr_refcount].
  unfold urefcount_use. rewrite Es, El, Er, Esp.
  split_and!; try reflexivity.
  - intros Hin. apply Hpool. now apply Hsub.
  - exact Hn.
  - exact Ecm.
Qed.

(** What [ubuf_pic_mem_free] does to a ubuf that has no outstanding
    mapping. *)
Lemma ubuf_pic_mem_free_spec ndebug w x picx sh shr :
  ubufs w !! x = Some picx -> ndebug = true \/ readers picx = 0 ->
  shared picx = Some sh -> shareds w !! sh = Some shr ->
  exists w2,
    ubuf_pic_mem_free ndebug x w = Done tt w2 /\
    (forall y, y <> x -> y ∉ ubuf_pool (mgr w) ->
               ubufs w2 !! y = ubufs w !! y) /\
    (refcount shr <> 1 ->
       umem_live w2 = umem_live w /\
       (sh ∉ shared_pool (mgr w) ->
        shareds w2 !! sh =
          Some (mk_shared (refcount shr - 1) (shared_umem shr)))) /\
    (refcount shr = 1 ->
       umem_live w2 =
         delete (umem_buffer (shared_umem shr)) (umem_live w)) /\
    common_mgr (mgr w2) = common_mgr (mgr w).
Proof.
  intros Hx Hr Hsh Hshr.
  unfold ubuf_pic_mem_free, bind, lookup_ubuf. rewrite Hx.
  assert (Ha : c_assert ndebug (readers picx =? 0) w = Done tt w).
  { destruct Hr as [-> | ->]; [reflexivity | now destruct ndebug]. }
  rewrite Ha. unfold lookup_shared. rewrite Hsh, Hshr.
  unfold urefcount_release, store_shared, modify. cbn beta iota.
  destruct (refcount shr =? 1) eqn:E1.
  - apply Z.eqb_eq in E1.
    unfold bind, umem_free, modify.
    set (wa := set_umem _ _ _).
    destruct (recycle_shared_spec sh wa)
      as (wb & -> & Eu & El & Er & Ep & _ & C1).
    destruct (recycle_ubuf_spec x wb)
      as (wc & -> & Es & El' & Er' & Esp & Hu & Hpool & C2).
    destruct (ubuf_pic_mem_mgr_release_spec wc)
      as (wd & -> & El'' & Hu' & _ & C3).
    exists wd. split; [reflexivity|]. split_and!.
    + intros y Hy Hp.
      assert (Hy' : y ∉ ubuf_pool (mgr wc)).
      { intros Hin. apply Hpool in Hin as [?|Hin]; [congruence|].
        rewrite Ep in Hin. subst wa. wsimpl. contradiction. }
      rewrite Hu', Hu, Eu by assumption.
      subst wa. wsimpl. reflexivity.
    + intros Hne. contradiction.
    + intros _. rewrite El'', El', El. subst wa. wsimpl. reflexivity.
    + rewrite C3, C2, C1. reflexivity.
  - apply Z.eqb_neq in E1. unfold ret.
    set (wa := set_shareds _ _).
    destruct (recycle_ubuf_spec x wa)
      as (wc & -> & Es & El' & Er' & Esp & Hu & Hpool & C2).
    destruct (ubuf_pic_mem_mgr_release_spec wc)
      as (wd & -> & El'' & Hu' & Hs' & C3).
    exists wd. split; [reflexivity|]. split_and!.
    + intros y Hy Hp.
      assert (Hy' : y ∉ ubuf_pool (mgr wc)).
      { intros Hin. apply Hpool in Hin as [?|Hin]; [congruence|].
        subst wa. wsimpl. contradiction. }
      rewrite Hu', Hu by assumption.
      subst wa. wsimpl. reflexivity.
    + intros _. split.
      * rewrite El'', El'. subst wa. wsimpl. reflexivity.
      * intros Hp. rewrite Hs', Es by (rewrite Esp; subst wa; wsimpl; exact Hp).
        subst wa. wsimpl. reflexivity.
    + intros Heq. contradiction.
    + rewrite C3, C2. reflexivity.
Qed.

(** The life of a duplicate, shared by the statements below. *)
Lemma dup_then_free_helper :
  forall (ndebug : bool) (w : world) (b : nat) (pic : ubuf_pic_mem) (sh : nat)
         (shr : ubuf_pic_mem_shared) (b2 : nat) (w1 : world),
    heap_wf w -> live w b pic ->
    shared pic = Some sh -> shareds w !! sh = Some shr ->
    sh ∉ shared_pool (mgr w) -> 1 <= refcount shr ->
    ubuf_pic_mem_dup ndebug b w = Done (Some b2) w1 ->
    exists pic2,
      b2 <> b /\ live w1 b pic /\ live w1 b2 pic2 /\
      shared pic2 = Some sh /\
      (forall i, (i < length (mgr_planes (mgr w)))%nat ->
         planes (common pic2) !! i = planes (common pic) !! i) /\
      shareds w1 !! sh =
        Some (mk_shared (refcount shr + 1) (shared_umem shr)) /\
      umem_live w1 = umem_live w /\
      forall x y picx,
        x = b /\ y = b2 \/ x = b2 /\ y = b ->
        ubufs w1 !! x = Some picx -> ndebug = true \/ readers picx = 0 ->
        exists w2,
          ubuf_pic_mem_free ndebug x w1 = Done tt w2 /\
          ubufs w2 !! y = ubufs w1 !! y /\
          shareds w2 !! sh =
            Some (mk_shared (refcount shr) (shared_umem shr)) /\
          umem_live w2 = umem_live w /\
          (refcount shr = 1 ->
           forall picy,
             ubufs w2 !! y = Some picy -> ndebug = true \/ readers picy = 0 ->
             exists w3,
               ubuf_pic_mem_free ndebug y w2 = Done tt w3 /\
               umem_live w3 =
                 delete (umem_buffer (shared_umem shr)) (umem_live w)).
Proof.
  intros ndebug w b pic sh shr b2 w1 Hwf Hlive Hsh Hshr Hsp Hrc Hdup.
  destruct (ubuf_pic_mem_dup_inv ndebug w b pic sh shr b2 w1
              Hwf Hlive Hsh Hshr Hdup)
    as (Hne & Hb & (pic2 & Hb2 & Hsh2 & _ & _ & _ & _ & _ & _ & Hpl)
        & Es & El & Hpb & Hpb2 & _ & Esp & _).
  assert (Hs1 : shareds w1 !! sh =
                  Some (mk_shared (refcount shr + 1) (shared_umem shr)))
    by (rewrite Es; apply lookup_insert_eq).
  exists pic2. split_and!; try assumption; try (split; assumption).
  intros x y picx Hxy Hx Hr.
  assert (Hshx : shared picx = Some sh).
  { destruct Hxy as [[-> ->]|[-> ->]]; congruence. }
  assert (Hyx : y <> x /\ y ∉ ubuf_pool (mgr w1)).
  { destruct Hxy as [[-> ->]|[-> ->]]; auto. }
  destruct (ubuf_pic_mem_free_spec ndebug w1 x picx sh _ Hx Hr Hshx Hs1)
    as (w2 & Hfree & Hkeep & Hnl & _ & _).
  cbn [refcount shared_umem] in Hnl.
  destruct Hnl as [El2 Hs2]; [lia|].
  exists w2. split; [exact Hfree|]. split; [apply Hkeep; tauto|].
  assert (Hs2' : shareds w2 !! sh =
                   Some (mk_shared (refcount shr) (shared_umem shr))).
  { rewrite Hs2 by (now rewrite Esp). f_equal. f_equal. lia. }
  split; [exact Hs2'|]. split; [congruence|].
  intros H1 picy Hy Hry.
  assert (Hshy : shared picy = Some sh).
  { rewrite Hkeep in Hy by tauto.
    destruct Hxy as [[-> ->]|[-> ->]]; congruence. }
  destruct (ubuf_pic_mem_free_spec ndebug w2 y picy sh _ Hy Hry Hshy Hs2')
    as (w3 & Hfree3 & _ & _ & Hlast & _).
  exists w3. split; [exact Hfree3|].
  rewrite Hlast by exact H1. cbn. congruence.
Qed.

(** C6.  [dup(b)] gives a new ubuf on the same shared structure, whose
    counter is incremented, with the same sizes and the same base and stride
    for each plane.  Freeing either of the two then brings the counter back
    to its value before the dup (1 for an unshared buffer), leaves the umem
    region and its octets in place and the other ubuf as it was; when the
    counter is back to 1, freeing the other ubuf releases the umem
    region. *)
Theorem dup_then_free :
  forall (ndebug : bool) (w : world) (b : nat) (pic : ubuf_pic_mem) (sh : nat)
         (shr : ubuf_pic_mem_shared) (b2 : nat) (w1 : world),
    heap_wf w -> live w b pic ->
    shared pic = Some sh -> shareds w !! sh = Some shr ->
    sh ∉ shared_pool (mgr w) -> 1 <= refcount shr ->
    ubuf_pic_mem_dup ndebug b w = Done (Some b2) w1 ->
    exists pic2,
      b2 <> b /\ live w1 b pic /\ live w1 b2 pic2 /\
      shared pic2 = Some sh /\
      (forall i, (i < length (mgr_planes (mgr w)))%nat ->
         planes (common pic2) !! i = planes (common pic) !! i) /\
      shareds w1 !! sh =
        Some (mk_shared (refcount shr + 1) (shared_umem shr)) /\
      umem_live w1 = umem_live w /\
      forall x y picx,
        x = b /\ y = b2 \/ x = b2 /\ y = b ->
        ubufs w1 !! x = Some picx -> ndebug = true \/ readers picx = 0 ->
        exists w2,
          ubuf_pic_mem_free ndebug x w1 = Done tt w2 /\
          ubufs w2 !! y = ubufs w1 !! y /\
          shareds w2 !! sh =
            Some (mk_shared (refcount shr) (shared_umem shr)) /\
          umem_live w2 = umem_live w /\
          (refcount shr = 1 ->
           forall picy,
             ubufs w2 !! y = Some picy -> ndebug = true \/ readers picy = 0 ->
             exists w3,
               ubuf_pic_mem_free ndebug y w2 = Done tt w3 /\
               umem_live w3 =
                 delete (umem_buffer (shared_umem shr)) (umem_live w)).
Proof. exact dup_then_free_helper. Qed.

(** *** Writing needs a single reference *)

Section WritePlane.

Variable ndebug : bool.
Variable common_size :
  ubuf_pic_common_mgr -> ubuf_pic_common -> option (Z * Z * Z).
Variable common_plane_iterate :
  ubuf_pic_common_mgr -> ubuf_pic_common -> option string ->
  option (option string).
Variable common_plane_size :
  ubuf_pic_common_mgr -> ubuf_pic_common -> string -> option (Z * Z * Z * Z).
Variable common_plane_map :
  ubuf_pic_common_mgr -> ubuf_pic_common -> string -> Z -> Z -> Z -> Z ->
  option Z.
Variable common_resize :
  ubuf_pic_common_mgr -> ubuf_pic_common -> Z -> Z -> Z -> Z ->
  option ubuf_pic_common.

Let control :=
  ubuf_pic_mem_control ndebug common_size common_plane_iterate
    common_plane_size common_plane_map common_resize.

(** The ubuf after a successful mapping: one more reader is counted, unless
    the count is compiled out. *)
Definition mapped (pic : ubuf_pic_mem) : ubuf_pic_mem :=
  if ndebug then pic else with_readers (to_uint32 (readers pic + 1)) pic.

Lemma write_plane_shared w b pic sh shr chroma0 ho vo hs vs :
  ubufs w !! b = Some pic -> shared pic = Some sh ->
  shareds w !! sh = Some shr -> refcount shr <> 1 ->
  control b (UBUF_WRITE_PICTURE_PLANE chroma0 ho vo hs vs) w
  = Done (false, OutNothing) w.
Proof.
  intros Hb Hsh Hshr Hrc.
  unfold control, ubuf_pic_mem_control, ubuf_pic_mem_single, bind,
    lookup_ubuf, lookup_shared, ret.
  rewrite Hb, Hsh, Hshr. unfold urefcount_single.
  now replace (refcount shr =? 1) with false by (symmetry; apply Z.eqb_neq; lia).
Qed.

Lemma write_plane_single w b pic sh shr chroma0 ho vo hs vs buffer0 :
  ubufs w !! b = Some pic -> shared pic = Some sh ->
  shareds w !! sh = Some shr -> refcount shr = 1 ->
  common_plane_map (common_mgr (mgr w)) (common pic) chroma0 ho vo hs vs
    = Some buffer0 ->
  control b (UBUF_WRITE_PICTURE_PLANE chroma0 ho vo hs vs) w
  = Done (true, OutBuffer buffer0)
      (if ndebug then w else set_ubufs (insert b (mapped pic)) w).
Proof.
  intros Hb Hsh Hshr Hrc Hmap.
  unfold control, ubuf_pic_mem_control, ubuf_pic_mem_single, bind,
    lookup_ubuf, lookup_shared, ret.
  rewrite Hb, Hsh, Hshr, Hrc. cbn [urefcount_single Z.eqb Pos.eqb negb].
  unfold plane_map_and_count, bind, get, lookup_ubuf. rewrite Hb, Hmap.
  unfold readers_add, mapped. destruct ndebug; [reflexivity|].
  unfold bind, lookup_ubuf, store_ubuf, modify, ret. now rewrite Hb.
Qed.

End WritePlane.

(** C1.  On a picture ubuf whose shared counter is greater than 1 the
    write-plane command returns false, maps nothing and changes nothing.
    When the counter is 1, the same command returns true with the buffer
    that [ubuf_pic_common_plane_map] maps for these arguments (whenever
    that function accepts them), and only counts one more reader. *)
Theorem write_plane_requires_single :
  forall (ndebug : bool) common_size common_plane_iterate common_plane_size
         common_plane_map common_resize
         (w : world) (b : nat) (pic : ubuf_pic_mem) (sh : nat)
         (shr : ubuf_pic_mem_shared) (chroma0 : string) (ho vo hs vs : Z),
    ubufs w !! b = Some pic -> shared pic = Some sh ->
    shareds w !! sh = Some shr ->
    (1 < refcount shr ->
     ubuf_pic_mem_control ndebug common_size common_plane_iterate
       common_plane_size common_plane_map common_resize b
       (UBUF_WRITE_PICTURE_PLANE chroma0 ho vo hs vs) w
     = Done (false, OutNothing) w) /\
    (refcount shr = 1 ->
     forall buffer0,
       common_plane_map (common_mgr (mgr w)) (common pic) chroma0 ho vo hs vs
         = Some buffer0 ->
       ubuf_pic_mem_control ndebug common_size common_plane_iterate
         common_plane_size common_plane_map common_resize b
         (UBUF_WRITE_PICTURE_PLANE chroma0 ho vo hs vs) w
       = Done (true, OutBuffer buffer0)
           (if ndebug then w
            else set_ubufs (insert b (mapped ndebug pic)) w)).
Proof.
  intros ndebug f1 f2 f3 f4 f5 w b pic sh shr chroma0 ho vo hs vs Hb Hsh Hshr.
  split.
  - intros Hrc. eapply write_plane_shared; eauto. lia.
  - intros Hrc buffer0 Hmap. eapply write_plane_single; eauto.
Qed.

(** The scenario of the specification, for any world: after [dup] the write
    is refused; after the duplicate is freed the same write goes through. *)
Lemma write_refused_until_duplicate_freed
    ndebug f1 f2 f3 common_plane_map f5 w b pic sh shr b2 w1 chroma0 ho vo hs vs
    buffer0 :
  heap_wf w -> live w b pic ->
  shared pic = Some sh -> shareds w !! sh = Some shr ->
  sh ∉ shared_pool (mgr w) -> refcount shr = 1 ->
  ubuf_pic_mem_dup ndebug b w = Done (Some b2) w1 ->
  common_plane_map (common_mgr (mgr w)) (common pic) chroma0 ho vo hs vs
    = Some buffer0 ->
  ubuf_pic_mem_control ndebug f1 f2 f3 common_plane_map f5 b
    (UBUF_WRITE_PICTURE_PLANE chroma0 ho vo hs vs) w1
  = Done (false, OutNothing) w1 /\
  forall pic2, ubufs w1 !! b2 = Some pic2 -> ndebug = true \/ readers pic2 = 0 ->
    exists w2 w3,
      ubuf_pic_mem_free ndebug b2 w1 = Done tt w2 /\
      ubuf_pic_mem_control ndebug f1 f2 f3 common_plane_map f5 b
        (UBUF_WRITE_PICTURE_PLANE chroma0 ho vo hs vs) w2
      = Done (true, OutBuffer buffer0) w3.
Proof.
  intros Hwf Hlive Hsh Hshr Hsp Hrc Hdup Hmap.
  destruct (ubuf_pic_mem_dup_inv ndebug w b pic sh shr b2 w1
              Hwf Hlive Hsh Hshr Hdup)
    as (Hne & Hb & (pic2 & Hb2 & Hsh2 & _) & Es & _ & Hpb & _ & _ & Esp & Ecm).
  assert (Hs1 : shareds w1 !! sh =
                  Some (mk_shared (refcount shr + 1) (shared_umem shr)))
    by (rewrite Es; apply lookup_insert_eq).
  split.
  - eapply write_plane_shared; eauto. cbn. lia.
  - intros pic2' Hb2' Hr.
    assert (Hsh2' : shared pic2' = Some sh) by congruence.
    destruct (ubuf_pic_mem_free_spec ndebug w1 b2 pic2' sh _ Hb2' Hr Hsh2' Hs1)
      as (w2 & Hf & Hkeep & Hnl & _ & Ecm2).
    cbn [refcount shared_umem] in Hnl.
    destruct Hnl as [_ Hs2]; [lia|].
    eexists w2, _. split; [exact Hf|].
    eapply write_plane_single.
    + rewrite Hkeep by auto. exact Hb.
    + exact Hsh.
    + apply Hs2. now rewrite Esp.
    + cbn. lia.
    + rewrite Ecm2, Ecm. exact Hmap.
Qed.

(** *** Scenario: copy on write *)

(** Modelled from the spec: [ubuf_pic_common_plane_map]
    ([ubuf_pic_common.c], missing) maps a plane "with bounds check
    [hoffset+hsize <= hmsize], [voffset+vsize <= vsize], and [hoffset]
    aligned to macropixel"; it fails for a chroma the manager does not know,
    and returns the address of the first octet asked for. *)
Definition plane_map_model (cm : ubuf_pic_common_mgr) (c : ubuf_pic_common)
    (chroma0 : string) (hoffset voffset hsize0 vsize0 : Z) : option Z :=
  '(i, p) ← list_find (fun p => String.eqb (chroma p) chroma0 = true)
              (common_planes cm);
  pl ← planes c !! i;
  base ← buffer pl;
  if (Z.rem hoffset (common_macropixel cm) =? 0)
     && (hoffset + hsize0 <=? hmsize c) && (voffset + vsize0 <=? vsize c)
  then Some (base + (vprepend c + voffset) / vsub p * stride pl
             + (hmprepend c + hoffset / common_macropixel cm) / hsub p
               * macropixel_size p)
  else None.

(** The other delegates are not exercised by the scenario. *)
Definition control_model (ubuf : nat) (command : ubuf_command)
    : M world (bool * control_out) :=
  ubuf_pic_mem_control false (fun _ _ => None) (fun _ _ _ => None)
    (fun _ _ _ => None) plane_map_model (fun _ _ _ _ _ _ => None)
    ubuf command.

(** The picture [b1 = 2] of the YV12 scenario, its duplicate [b2 = 4], and
    the worlds after [dup(b1)] and after [free(b2)]. *)
Definition yv12_pic : ubuf_pic_mem :=
  default blank_pic (ubufs yv12_allocated !! 2%nat).

Definition yv12_shared : ubuf_pic_mem_shared :=
  mk_shared 1 (mk_umem 4096 5472).

Definition yv12_dup : world :=
  match ubuf_pic_mem_dup false 2 yv12_allocated with
  | Done _ w => w
  | Abort => yv12_allocated
  end.

Definition yv12_freed : world :=
  match ubuf_pic_mem_free false 4 yv12_dup with
  | Done _ w => w
  | Abort => yv12_dup
  end.

Example yv12_dup_free_run :
  ubuf_pic_mem_dup false 2 yv12_allocated = Done (Some 4%nat) yv12_dup /\
  ubuf_pic_mem_free false 4 yv12_dup = Done tt yv12_freed /\
  ubuf_pool (mgr yv12_freed) = [4%nat] /\
  shareds yv12_dup !! 3%nat = Some (mk_shared 2 (mk_umem 4096 5472)) /\
  shareds yv12_freed !! 3%nat = Some yv12_shared.
Proof. split_and!; vm_compute; reflexivity. Qed.

Lemma yv12_allocated_heap_wf : heap_wf yv12_allocated.
Proof.
  split.
  - vm_compute. constructor.
  - refine (bool_decide_unpack _ _). vm_compute. exact I.
Qed.

Lemma yv12_pic_live : live yv12_allocated 2 yv12_pic.
Proof.
  split; [vm_compute; reflexivity|].
  change (ubuf_pool (mgr yv12_allocated)) with (@nil nat).
  apply not_elem_of_nil.
Qed.

Lemma dup_then_free_witness :
  exists w2,
    ubuf_pic_mem_free false 4 yv12_dup = Done tt w2 /\
    ubufs w2 !! 2%nat = ubufs yv12_dup !! 2%nat /\
    shareds w2 !! 3%nat = Some yv12_shared /\
    umem_live w2 = umem_live yv12_allocated.
Proof.
  destruct (dup_then_free false yv12_allocated 2 yv12_pic 3 yv12_shared 4
              yv12_dup)
    as (pic2 & _ & _ & [H2 _] & _ & _ & _ & _ & Hfree).
  - exact yv12_allocated_heap_wf.
  - exact yv12_pic_live.
  - vm_compute. reflexivity.
  - vm_compute. reflexivity.
  - change (shared_pool (mgr yv12_allocated)) with (@nil nat).
    apply not_elem_of_nil.
  - cbn. lia.
  - vm_compute. reflexivity.
  - destruct (Hfree 4%nat 2%nat pic2) as (w2 & Hf & Hk & Hs & Hl & _).
    + right. split; reflexivity.
    + exact H2.
    + right. revert H2. vm_compute. intros [= <-]. reflexivity.
    + exists w2. split_and!; assumption.
Defined.

Lemma write_plane_requires_single_witness :
  control_model 2 (UBUF_WRITE_PICTURE_PLANE "y8" 0 0 64 32) yv12_dup
    = Done (false, OutNothing) yv12_dup /\
  control_model 2 (UBUF_WRITE_PICTURE_PLANE "y8" 0 0 64 32) yv12_freed
    = Done (true, OutBuffer 4304)
        (set_ubufs (insert 2%nat (mapped false yv12_pic)) yv12_freed).
Proof.
  split.
  - apply (write_plane_requires_single false (fun _ _ => None)
             (fun _ _ _ => None) (fun _ _ _ => None) plane_map_model
             (fun _ _ _ _ _ _ => None) yv12_dup 2 yv12_pic 3
             (mk_shared 2 (mk_umem 4096 5472)) "y8" 0 0 64 32);
      [vm_compute; reflexivity.. | cbn; lia].
  - apply (write_plane_requires_single false (fun _ _ => None)
             (fun _ _ _ => None) (fun _ _ _ => None) plane_map_model
             (fun _ _ _ _ _ _ => None) yv12_freed 2 yv12_pic 3
             yv12_shared "y8" 0 0 64 32);
      vm_compute; reflexivity.
Defined.

(** *** Mappings must be undone before a free *)

(** With assertions compiled in, every successful mapping is counted: a
    picture that was mapped for reading cannot be freed (the [assert] on the
    count of readers aborts) until it has been unmapped; the unmap brings
    the ubuf back to what it was, and the free then goes through. *)
Theorem free_requires_unmap :
  forall common_size common_plane_iterate common_plane_size
         common_plane_map common_resize
         (w : world) (b : nat) (pic : ubuf_pic_mem) (sh : nat)
         (shr : ubuf_pic_mem_shared) (chroma0 : string) (ho vo hs vs : Z)
         (buffer0 : Z),
    ubufs w !! b = Some pic -> readers pic = 0 ->
    shared pic = Some sh -> shareds w !! sh = Some shr ->
    common_plane_map (common_mgr (mgr w)) (common pic) chroma0 ho vo hs vs
      = Some buffer0 ->
    exists w1,
      ubuf_pic_mem_control false common_size common_plane_iterate
        common_plane_size common_plane_map common_resize b
        (UBUF_READ_PICTURE_PLANE chroma0 ho vo hs vs) w
      = Done (true, OutBuffer buffer0) w1 /\
      ubuf_pic_mem_free false b w1 = Abort /\
      ubuf_pic_mem_control false common_size common_plane_iterate
        common_plane_size common_plane_map common_resize b
        (UBUF_UNMAP_PICTURE_PLANE chroma0 ho vo hs vs) w1
      = Done (true, OutNothing) (set_ubufs (insert b pic) w) /\
      exists w3,
        ubuf_pic_mem_free false b (set_ubufs (insert b pic) w) = Done tt w3.
Proof.
  intros f1 f2 f3 f4 f5 w b pic sh shr chroma0 ho vo hs vs buffer0
    Hb Hr Hsh Hshr Hmap.
  eexists. split.
  { unfold ubuf_pic_mem_control, plane_map_and_count, readers_add, bind, get,
      lookup_ubuf, store_ubuf, modify, ret.
    rewrite Hb, Hmap, Hb. reflexivity. }
  split.
  { unfold ubuf_pic_mem_free, bind, lookup_ubuf. wsimpl.
    rewrite Hr. reflexivity. }
  split.
  { unfold ubuf_pic_mem_control, readers_add, bind, lookup_ubuf, store_ubuf,
      modify, ret. wsimpl. rewrite Hr.
    unfold set_ubufs. cbn [mgr ubufs shareds heap_next heap_budget umem_next
      umem_limit umem_live]. rewrite insert_insert_eq.
    destruct pic as [s r c]. cbn in Hr. subst r. reflexivity. }
  destruct (ubuf_pic_mem_free_spec false (set_ubufs (insert b pic) w) b pic
              sh shr) as (w3 & Hf & _); wsimpl; auto.
  exists w3. exact Hf.
Qed.

Lemma free_requires_unmap_witness :
  exists w1,
    control_model 2 (UBUF_READ_PICTURE_PLANE "y8" 0 0 64 32) yv12_allocated
    = Done (true, OutBuffer 4304) w1 /\
    ubuf_pic_mem_free false 2 w1 = Abort /\
    control_model 2 (UBUF_UNMAP_PICTURE_PLANE "y8" 0 0 64 32) w1
    = Done (true, OutNothing)
        (set_ubufs (insert 2%nat yv12_pic) yv12_allocated) /\
    exists w3,
      ubuf_pic_mem_free false 2
        (set_ubufs (insert 2%nat yv12_pic) yv12_allocated) = Done tt w3.
Proof.
  apply (free_requires_unmap (fun _ _ => None) (fun _ _ _ => None)
           (fun _ _ _ => None) plane_map_model (fun _ _ _ _ _ _ => None)
           yv12_allocated 2 yv12_pic 3 yv12_shared "y8" 0 0 64 32 4304);
    vm_compute; reflexivity.
Defined.

(** Without the count ([NDEBUG]) mapping and unmapping leave the ubuf as it
    is, and nothing stops a free. *)
Example map_uncounted_ndebug :
  ubuf_pic_mem_control true (fun _ _ => None) (fun _ _ _ => None)
    (fun _ _ _ => None) plane_map_model (fun _ _ _ _ _ _ => None) 2
    (UBUF_READ_PICTURE_PLANE "y8" 0 0 64 32) yv12_allocated
  = Done (true, OutBuffer 4304) yv12_allocated.
Proof. vm_compute. reflexivity. Qed.

(** *** The planes lie inside the buffer *)

(** The number of lines of a plane, margins included, and the octets the
    planes need together when no [size_t] computation wraps around. *)
Definition plane_lines (m : ubuf_pic_mem_mgr) (vsize0 : Z)
    (p : ubuf_pic_common_mgr_plane) : Z :=
  to_size_t (vsize0 + mgr_vprepend m + mgr_vappend m) / vsub p.

Definition exact_size (m : ubuf_pic_mem_mgr) (hmsize0 vsize0 : Z)
    (ps : list ubuf_pic_common_mgr_plane) : Z :=
  foldr (fun p acc => plane_lines m vsize0 p * plane_stride m hmsize0 p + acc)
    0 ps.












(** In the scenario: 36 lines of 96 octets, then twice 18 lines of 56. *)
Example yv12_exact_size :
  exact_size (mgr yv12_world) 64 32 (mgr_planes (mgr yv12_world)) = 5472.
Proof. vm_compute. reflexivity. Qed.

(** *** Accounting for the structures *)

(** The structures at the disposal of the manager: those [malloc] can still
    give, and those that wait in the two pools. *)
Definition held (w : world) : nat :=
  (heap_budget w + length (ubuf_pool (mgr w))
   + length (shared_pool (mgr w)))%nat.

(** No ubuf structure counts a reader. *)
Definition unmapped (w : world) : Prop :=
  map_Forall (fun _ pic => readers pic = 0) (ubufs w).

(** The shared structures are allocated below the next address of
    [malloc], and the pool holds each of them once. *)
Definition shared_wf (w : world) : Prop :=
  NoDup (shared_pool (mgr w)) /\
  map_Forall (fun k _ => (k < heap_next w)%nat) (shareds w).

Lemma alloc_inner_acct w r w1 :
  ubuf_pic_mem_alloc_inner w = Done r w1 ->
  shareds w1 = shareds w /\ umem_live w1 = umem_live w /\
  umem_next w1 = umem_next w /\ umem_limit w1 = umem_limit w /\
  mgr_refcount (mgr w1) = mgr_refcount (mgr w) /\
  shared_pool (mgr w1) = shared_pool (mgr w) /\
  (heap_next w <= heap_next w1)%nat /\
  (unmapped w -> unmapped w1) /\
  match r with
  | None => w1 = w
  | Some _ => (held w1 + 1 = held w)%nat
  end.
Proof.
  unfold ubuf_pic_mem_alloc_inner, bind, get. cbn beta.
  destruct (ubuf_pool (mgr w)) as [|x pool] eqn:Ep; cbn [ulifo_pop].
  - unfold malloc. destruct (heap_budget w) eqn:Eb.
    + intros [= <- <-]. split_and!; auto.
    + unfold store_ubuf, modify, ret. intros [= <- <-]. wsimpl.
      split_and!; try reflexivity; try lia.
      * intros Hu. unfold unmapped. wsimpl.
        apply map_Forall_insert_2; [reflexivity | exact Hu].
      * unfold held. wsimpl. rewrite Ep, Eb. cbn. lia.
  - unfold modify, lookup_ubuf, store_ubuf, modify, ret. wsimpl.
    destruct (ubufs w !! x) as [picx|] eqn:Ex; [|discriminate].
    intros [= <- <-]. wsimpl.
    split_and!; try reflexivity; try lia.
    + intros Hu. unfold unmapped. wsimpl.
      apply map_Forall_insert_2; [exact (Hu x picx Ex) | exact Hu].
    + unfold held. wsimpl. rewrite Ep. cbn. lia.
Qed.

Lemma alloc_shared_acct w r w1 :
  alloc_shared w = Done r w1 ->
  ubufs w1 = ubufs w /\ umem_live w1 = umem_live w /\
  umem_next w1 = umem_next w /\ umem_limit w1 = umem_limit w /\
  mgr_refcount (mgr w1) = mgr_refcount (mgr w) /\
  ubuf_pool (mgr w1) = ubuf_pool (mgr w) /\
  (heap_next w <= heap_next w1)%nat /\
  match r with
  | None => w1 = w
  | Some sh =>
      (held w1 + 1 = held w)%nat /\
      (shared_wf w ->
       forall s shr, shareds w !! s = Some shr -> s ∉ shared_pool (mgr w) ->
         s <> sh /\ shareds w1 !! s = Some shr)
  end.
Proof.
  unfold alloc_shared, bind, get. cbn beta.
  destruct (shared_pool (mgr w)) as [|x pool] eqn:Ep; cbn [ulifo_pop].
  - unfold malloc. destruct (heap_budget w) eqn:Eb.
    + intros [= <- <-]. split_and!; auto.
    + unfold store_shared, modify, ret. intros [= <- <-]. wsimpl.
      split_and!; try reflexivity; try lia.
      * unfold held. wsimpl. rewrite Ep, Eb. cbn. lia.
      * intros [_ Hfresh] s shr Hs _.
        assert (s <> heap_next w) by (apply Hfresh in Hs; lia).
        split; [assumption|]. now rewrite lookup_insert_ne.
  - unfold modify, lookup_shared, store_shared, modify, ret. wsimpl.
    destruct (shareds w !! x) as [shx|] eqn:Ex; [|discriminate].
    intros [= <- <-]. wsimpl.
    split_and!; try reflexivity; try lia.
    + unfold held. wsimpl. rewrite Ep. cbn. lia.
    + intros _ s shr Hs Hpool.
      assert (s <> x) by (intros ->; apply Hpool, elem_of_cons; now left).
      split; [assumption|]. now rewrite lookup_insert_ne.
Qed.

Lemma recycle_ubuf_acct x w :
  exists w',
    recycle_ubuf x w = Done tt w' /\
    (held w' = S (held w))%nat /\
    shareds w' = shareds w /\ umem_live w' = umem_live w /\
    umem_next w' = umem_next w /\
    mgr_refcount (mgr w') = mgr_refcount (mgr w) /\
    shared_pool (mgr w') = shared_pool (mgr w) /\
    (forall y, y <> x -> ubufs w' !! y = ubufs w !! y) /\
    (forall y, y ∈ ubuf_pool (mgr w') -> y = x \/ y ∈ ubuf_pool (mgr w)).
Proof.
  unfold recycle_ubuf, bind, get, ulifo_push. cbn beta.
  destruct (_ <? _)%nat.
  - eexists. split; [reflexivity|]. unfold held. wsimpl.
    split_and!; try reflexivity; try (cbn; lia).
    intros y Hy. cbn in Hy. apply elem_of_cons in Hy. tauto.
  - eexists. split; [reflexivity|]. unfold held. wsimpl.
    split_and!; try reflexivity; try lia; [|auto].
    intros y Hy. now apply lookup_delete_ne.
Qed.

Lemma recycle_shared_acct sh w :
  exists w',
    recycle_shared sh w = Done tt w' /\
    (held w' = S (held w))%nat /\
    ubufs w' = ubufs w /\ umem_live w' = umem_live w /\
    umem_next w' = umem_next w /\
    mgr_refcount (mgr w') = mgr_refcount (mgr w) /\
    ubuf_pool (mgr w') = ubuf_pool (mgr w) /\
    ubuf_pool_depth (mgr w') = ubuf_pool_depth (mgr w) /\
    (forall s, s <> sh -> shareds w' !! s = shareds w !! s).
Proof.
  unfold recycle_shared, bind, get, ulifo_push. cbn beta.
  destruct (_ <? _)%nat.
  - eexists. split; [reflexivity|]. unfold held. wsimpl.
    split_and!; try reflexivity; try (cbn; lia).
  - eexists. split; [reflexivity|]. unfold held. wsimpl.
    split_and!; try reflexivity; try lia.
    intros s Hs. now apply lookup_delete_ne.
Qed.

(** A failed [alloc] leaves no trace: whatever made it return NULL (a size
    that is refused, no structure to be had, no umem), the manager has no
    more references than before, the umem allocator is as it was, the live
    ubufs and the shared structures in use are untouched, and every
    structure that was taken is back in a pool or on the heap. *)
Theorem ubuf_pic_mem_alloc_failure_clean :
  forall (w : world) (hsize vsize : Z) (w' : world),
    heap_wf w -> shared_wf w ->
    ubuf_pic_mem_alloc hsize vsize w = Done None w' ->
    mgr_refcount (mgr w') = mgr_refcount (mgr w) /\
    umem_live w' = umem_live w /\ umem_next w' = umem_next w /\
    held w' = held w /\
    (forall y pic, live w y pic -> live w' y pic) /\
    (forall s shr, shareds w !! s = Some shr -> s ∉ shared_pool (mgr w) ->
       shareds w' !! s = Some shr).
Proof.
  intros w hsize vsize w' Hwf Hswf.
  unfold ubuf_pic_mem_alloc, bind, get. cbn beta zeta.
  destruct (macropixel (mgr w) =? 0); [discriminate|].
  destruct (negb _).
  { intros [= <-]. split_and!; auto. }
  destruct (ubuf_pic_mem_alloc_inner w) as [[b|] w1|] eqn:E1;
    [| |discriminate].
  2:{ apply alloc_inner_acct in E1 as (_ & _ & _ & _ & _ & _ & _ & _ & ->).
      intros [= <-]. split_and!; auto. }
  pose proof (alloc_inner_acct w _ w1 E1)
    as (As & Al & An & _ & Ar & Asp & Ahn & _ & Ah).
  destruct (alloc_inner_inv w b w1 Hwf E1)
    as (pic0 & Eu & Hne & Hb & Hsub & _).
  assert (Hlive1 : forall y pic, live w y pic ->
            y <> b /\ ubufs w1 !! y = Some pic /\ y ∉ ubuf_pool (mgr w1)).
  { intros y pic [Hy Hp].
    assert (y <> b) by (apply Hne; [assumption | rewrite Hy; eauto]).
    split_and!; [assumption | now rewrite Eu, lookup_insert_ne | auto]. }
  destruct (alloc_shared w1) as [[sh|] w2|] eqn:E2; [| |discriminate].
  2:{ apply alloc_shared_acct in E2 as (_ & _ & _ & _ & _ & _ & _ & ->).
      destruct (recycle_ubuf_acct b w1)
        as (w3 & -> & Rh & Rs & Rl & Rn & Rr & Rsp & Ru & Rp).
      intros [= <-].
      split_and!; try congruence; try lia.
      intros y pic Hl. destruct (Hlive1 y pic Hl) as (Hyb & Hy & Hp).
      split; [now rewrite Ru|].
      intros Hin. apply Rp in Hin as [?|?]; [congruence | contradiction]. }
  pose proof (alloc_shared_acct w1 _ w2 E2)
    as (Su & Sl & Sn & Slim & Sr & Sp & _ & Sh & Skeep).
  assert (Hswf1 : shared_wf w1).
  { destruct Hswf as [Hnd Hfr]. split; [now rewrite Asp|].
    rewrite As. intros k v Hk. apply Hfr in Hk. lia. }
  unfold lookup_ubuf at 1.
  destruct (ubufs w2 !! b) as [picb|] eqn:Eb; [|discriminate].
  unfold store_ubuf at 1, modify at 1.
  destruct (zero_subsampling (mgr w)); [discriminate|].
  unfold umem_alloc. cbn [umem_next umem_limit set_ubufs umem_live].
  destruct (_ <=? _).
  { unfold lookup_shared, store_shared, ubuf_pic_mem_buffer, lookup_ubuf,
      lookup_shared, store_ubuf, ubuf_mgr_use, modify, bind, ret.
    wsimpl.
    destruct (alloc_shared_inv w1 sh w2 E2) as (_ & u0 & Esh).
    rewrite Esh. wsimpl. discriminate. }
  set (wa := set_ubufs _ w2).
  destruct (recycle_shared_acct sh wa)
    as (wb & -> & Bh & Bu & Bl & Bn & Br & Bp & _ & Bs).
  destruct (recycle_ubuf_acct b wb)
    as (wc & -> & Ch & Cs & Cl & Cn & Cr & Csp & Cu & Cp).
  intros [= <-].
  assert (Ha : held wa = held w2) by reflexivity.
  split_and!.
  - rewrite Cr, Br. subst wa. wsimpl. congruence.
  - rewrite Cl, Bl. subst wa. wsimpl. congruence.
  - rewrite Cn, Bn. subst wa. wsimpl. congruence.
  - lia.
  - intros y pic Hl. destruct (Hlive1 y pic Hl) as (Hyb & Hy & Hp).
    split.
    + rewrite Cu, Bu by assumption. subst wa. wsimpl.
      rewrite lookup_insert_ne by auto. now rewrite Su.
    + intros Hin. apply Cp in Hin as [?|Hin]; [congruence|].
      rewrite Bp in Hin. subst wa. wsimpl. rewrite Sp in Hin. contradiction.
  - intros s shr Hs Hpool.
    destruct (Skeep Hswf1 s shr) as [Hne' Hs2];
      [now rewrite As | now rewrite Asp |].
    rewrite Cs, Bs by assumption. subst wa. wsimpl. exact Hs2.
Qed.

(** A manager whose umem arena is too small for a picture of 64x32. *)
Definition yv12_small : world :=
  match ubuf_pic_mem_mgr_alloc_fourcc false 2 2 "YV12" 8 8 2 2 16 0
          (machine 8 4096 8192) with
  | Done _ w => w
  | Abort => machine 0 0 0
  end.

Definition yv12_small_failed : world :=
  match ubuf_pic_mem_alloc 64 32 yv12_small with
  | Done _ w => w
  | Abort => yv12_small
  end.

Lemma ubuf_pic_mem_alloc_failure_clean_witness :
  mgr_refcount (mgr yv12_small_failed) = mgr_refcount (mgr yv12_small) /\
  umem_live yv12_small_failed = umem_live yv12_small /\
  umem_next yv12_small_failed = umem_next yv12_small /\
  held yv12_small_failed = held yv12_small /\
  (forall y pic, live yv12_small y pic -> live yv12_small_failed y pic) /\
  (forall s shr, shareds yv12_small !! s = Some shr ->
     s ∉ shared_pool (mgr yv12_small) ->
     shareds yv12_small_failed !! s = Some shr).
Proof.
  apply (ubuf_pic_mem_alloc_failure_clean yv12_small 64 32
           yv12_small_failed).
  - split; [vm_compute; constructor|].
    refine (bool_decide_unpack _ _). vm_compute. exact I.
  - split; [vm_compute; constructor|].
    refine (bool_decide_unpack _ _). vm_compute. exact I.
  - vm_compute. reflexivity.
Defined.

(** The two structures of the failed allocation wait in the pools. *)
Example yv12_small_failed_pools :
  ubuf_pool (mgr yv12_small_failed) = [2%nat] /\
  shared_pool (mgr yv12_small_failed) = [3%nat] /\
  heap_budget yv12_small_failed = 5%nat /\ heap_budget yv12_small = 7%nat.
Proof. split_and!; vm_compute; reflexivity. Qed.

(** What a successful [alloc] takes. *)
Lemma ubuf_pic_mem_alloc_acct hsize vsize w ubuf w1 :
  heap_wf w ->
  ubuf_pic_mem_alloc hsize vsize w = Done (Some ubuf) w1 ->
  exists pic sh u,
    ubufs w1 !! ubuf = Some pic /\ shared pic = Some sh /\
    shareds w1 !! sh = Some (mk_shared 1 u) /\
    umem_buffer u = umem_next w /\
    umem_live w1 =
      <[umem_next w := replicate (Z.to_nat (umem_size u)) 0]> (umem_live w) /\
    mgr_refcount (mgr w1) = mgr_refcount (mgr w) + 1 /\
    (held w1 + 2 = held w)%nat /\
    (unmapped w -> readers pic = 0) /\
    (forall y picy, live w y picy -> y <> ubuf /\ live w1 y picy).
Proof.
  intros Hwf.
  unfold ubuf_pic_mem_alloc, bind, get. cbn beta zeta.
  destruct (macropixel (mgr w) =? 0); [discriminate|].
  destruct (negb _); [discriminate|].
  destruct (ubuf_pic_mem_alloc_inner w) as [[b|] w1'|] eqn:E1;
    try discriminate.
  pose proof (alloc_inner_acct w _ w1' E1)
    as (As & Al & An & _ & Ar & Asp & Ahn & Aun & Ah).
  destruct (alloc_inner_inv w b w1' Hwf E1)
    as (pic0 & Eu & Hne & Hb & Hsub & _).
  destruct (alloc_shared w1') as [[sh|] w2|] eqn:E2; try discriminate.
  2:{ destruct (recycle_ubuf b w2); discriminate. }
  pose proof (alloc_shared_acct w1' _ w2 E2)
    as (Su & Sl & Sn & Slim & Sr & Sp & _ & Sh & _).
  destruct (alloc_shared_inv w1' sh w2 E2) as (_ & u0 & Esh).
  unfold lookup_ubuf at 1.
  destruct (ubufs w2 !! b) as [picb|] eqn:Eb; [|discriminate].
  unfold store_ubuf at 1, modify at 1.
  destruct (zero_subsampling (mgr w)); [discriminate|].
  unfold umem_alloc. cbn [umem_next umem_limit set_ubufs umem_live].
  destruct (_ <=? _).
  2:{ destruct (recycle_shared _ _) as [? w3|]; [|discriminate].
      destruct (recycle_ubuf _ _); discriminate. }
  unfold lookup_shared, store_shared, ubuf_pic_mem_buffer, lookup_ubuf,
    lookup_shared, store_ubuf, ubuf_mgr_use, modify, bind, ret.
  wsimpl. rewrite Esh. wsimpl.
  intros [= <- <-]. wsimpl.
  eexists _, sh, _.
  split; [reflexivity|]. split; [reflexivity|].
  split; [cbn; rewrite lookup_insert_eq; reflexivity|].
  cbn [umem_buffer umem_size]. split; [congruence|].
  split; [now rewrite Sn, An, Sl, Al|].
  split.
  { cbn [mgr_refcount with_mgr_refcount]. unfold urefcount_use.
    rewrite Sr, Ar. reflexivity. }
  split.
  { unfold held in *. wsimpl.
    cbn [ubuf_pool shared_pool with_mgr_refcount] in *. lia. }
  split.
  { intros Hun. cbn [readers]. apply Aun in Hun.
    rewrite Su in Eb. exact (Hun b picb Eb). }
  intros y picy [Hy Hp].
  assert (Hyb : y <> b) by (apply Hne; [assumption | rewrite Hy; eauto]).
  split; [assumption|]. split.
  - wsimpl. rewrite !lookup_insert_ne by auto.
    rewrite Su, Eu, lookup_insert_ne by auto. exact Hy.
  - wsimpl. cbn [ubuf_pool with_mgr_refcount]. rewrite Sp. auto.
Qed.

(** What [free] gives back while the manager keeps other references. *)
Lemma ubuf_pic_mem_free_acct ndebug w x picx sh shr :
  ubufs w !! x = Some picx -> ndebug = true \/ readers picx = 0 ->
  shared picx = Some sh -> shareds w !! sh = Some shr ->
  mgr_refcount (mgr w) <> 1 ->
  exists w2,
    ubuf_pic_mem_free ndebug x w = Done tt w2 /\
    mgr_refcount (mgr w2) = mgr_refcount (mgr w) - 1 /\
    held w2 = (held w + (if (refcount shr =? 1)%Z then 2 else 1))%nat /\
    umem_live w2 =
      (if refcount shr =? 1
       then delete (umem_buffer (shared_umem shr)) (umem_live w)
       else umem_live w) /\
    (forall y, y <> x -> ubufs w2 !! y = ubufs w !! y) /\
    (forall y, y ∈ ubuf_pool (mgr w2) -> y = x \/ y ∈ ubuf_pool (mgr w)).
Proof.
  intros Hx Hr Hsh Hshr Hmr.
  unfold ubuf_pic_mem_free, bind, lookup_ubuf. rewrite Hx.
  assert (Ha : c_assert ndebug (readers picx =? 0) w = Done tt w).
  { destruct Hr as [-> | ->]; [reflexivity | now destruct ndebug]. }
  rewrite Ha. unfold lookup_shared. rewrite Hsh, Hshr.
  unfold urefcount_release, store_shared, modify. cbn beta iota.
  assert (Hrel : forall wc,
            mgr_refcount (mgr wc) = mgr_refcount (mgr w) ->
            ubuf_pic_mem_mgr_release wc =
            Done tt (set_mgr (with_mgr_refcount (mgr_refcount (mgr w) - 1))
                       wc)).
  { intros wc Hc.
    unfold ubuf_pic_mem_mgr_release, bind, get, urefcount_release, modify.
    cbn beta iota. rewrite Hc.
    replace (mgr_refcount (mgr w) =? 1) with false
      by (symmetry; apply Z.eqb_neq; assumption).
    reflexivity. }
  destruct (refcount shr =? 1) eqn:E1.
  - unfold bind, umem_free, modify.
    set (wa := set_umem _ _ _).
    destruct (recycle_shared_acct sh wa)
      as (wb & -> & Bh & Bu & Bl & Bn & Br & Bp & _ & Bs).
    destruct (recycle_ubuf_acct x wb)
      as (wc & -> & Ch & Cs & Cl & Cn & Cr & Csp & Cu & Cp).
    rewrite Hrel by (rewrite Cr, Br; reflexivity).
    eexists. split; [reflexivity|].
    split; [reflexivity|]. split.
    { unfold held in *. cbn [mgr heap_budget ubuf_pool shared_pool set_mgr
        with_mgr_refcount]. subst wa.
      cbn [mgr heap_budget ubuf_pool shared_pool set_umem set_shareds] in *.
      lia. }
    split.
    { cbn [umem_live set_mgr]. rewrite Cl, Bl. reflexivity. }
    split.
    { intros y Hy. cbn [ubufs set_mgr]. rewrite Cu, Bu by assumption.
      reflexivity. }
    intros y Hy. cbn [mgr set_mgr ubuf_pool with_mgr_refcount] in Hy.
    apply Cp in Hy as [?|Hy]; [now left|]. right.
    rewrite Bp in Hy. exact Hy.
  - unfold ret.
    set (wa := set_shareds _ _).
    destruct (recycle_ubuf_acct x wa)
      as (wc & -> & Ch & Cs & Cl & Cn & Cr & Csp & Cu & Cp).
    rewrite Hrel by (rewrite Cr; reflexivity).
    eexists. split; [reflexivity|].
    split; [reflexivity|]. split.
    { unfold held in *. cbn [mgr heap_budget ubuf_pool shared_pool set_mgr
        with_mgr_refcount]. subst wa.
      cbn [mgr heap_budget ubuf_pool shared_pool set_shareds] in *. lia. }
    split.
    { cbn [umem_live set_mgr]. rewrite Cl. reflexivity. }
    split.
    { intros y Hy. cbn [ubufs set_mgr]. rewrite Cu by assumption.
      reflexivity. }
    intros y Hy. cbn [mgr set_mgr ubuf_pool with_mgr_refcount] in Hy.
    apply Cp in Hy as [?|Hy]; [now left | now right].
Qed.

(** Allocating a picture and freeing it nets to zero: the manager has the
    references it had, the umem region is released, the two structures are
    back (in the pools or on the heap), and the other live ubufs were never
    touched. *)
Theorem alloc_then_free_nets_to_zero :
  forall (ndebug : bool) (w : world) (hsize vsize : Z) (ubuf : nat)
         (w1 : world),
    heap_wf w -> unmapped w -> 1 <= mgr_refcount (mgr w) ->
    umem_live w !! umem_next w = None ->
    ubuf_pic_mem_alloc hsize vsize w = Done (Some ubuf) w1 ->
    exists w2,
      ubuf_pic_mem_free ndebug ubuf w1 = Done tt w2 /\
      mgr_refcount (mgr w2) = mgr_refcount (mgr w) /\
      umem_live w2 = umem_live w /\
      held w2 = held w /\
      (forall y pic, live w y pic -> live w2 y pic).
Proof.
  intros ndebug w hsize vsize ubuf w1 Hwf Hun Hmr Hfresh Halloc.
  destruct (ubuf_pic_mem_alloc_acct hsize vsize w ubuf w1 Hwf Halloc)
    as (pic & sh & u & Hu & Hsh & Hs & Hbuf & Hlive & Hr & Hh & Hrd & Hkeep).
  destruct (ubuf_pic_mem_free_acct ndebug w1 ubuf pic sh (mk_shared 1 u))
    as (w2 & Hf & Fr & Fh & Fl & Fu & Fp); auto; [lia|].
  cbn [refcount shared_umem Z.eqb Pos.eqb] in Fh, Fl.
  exists w2. split; [exact Hf|]. split; [lia|]. split.
  { rewrite Fl, Hlive, Hbuf. now apply delete_insert_id. }
  split; [lia|].
  intros y picy Hl. destruct (Hkeep y picy Hl) as (Hne & Hy & Hp).
  split; [now rewrite Fu|].
  intros Hin. apply Fp in Hin as [?|?]; [congruence | contradiction].
Qed.

Lemma alloc_then_free_nets_to_zero_witness :
  exists w2,
    ubuf_pic_mem_free false 2 yv12_allocated = Done tt w2 /\
    mgr_refcount (mgr w2) = mgr_refcount (mgr yv12_world) /\
    umem_live w2 = umem_live yv12_world /\
    held w2 = held yv12_world /\
    (forall y pic, live yv12_world y pic -> live w2 y pic).
Proof.
  apply (alloc_then_free_nets_to_zero false yv12_world 64 32 2%nat
           yv12_allocated).
  - split; [vm_compute; constructor|].
    refine (bool_decide_unpack _ _). vm_compute. exact I.
  - refine (bool_decide_unpack _ _). vm_compute. exact I.
  - vm_compute. discriminate.
  - vm_compute. reflexivity.
  - vm_compute. reflexivity.
Defined.

(** *** Managers built from a fourcc *)

(** The eight formats of [ubuf_pic_mem_mgr_alloc_fourcc]. *)
Lemma fourcc_format_cases fcc mp ps :
  fourcc_format fcc = Some (mp, ps) ->
  (mp = 1 \/ mp = 2) /\
  NoDup (map (fun p => fst (fst (fst p))) ps) /\
  Forall (fun p => 1 <= snd (fst (fst p)) <= 255 /\
                   1 <= snd (fst p) <= 255 /\ 0 <= snd p <= 255) ps.
Proof.
  unfold fourcc_format.
  repeat (match goal with
          | |- context [if ?b then _ else _] => destruct b
          end);
    intros [= <- <-];
    (split; [lia|]);
    (split; [refine (bool_decide_unpack _ _); vm_compute; exact I|]);
    repeat constructor; cbn; lia.
Qed.

(** With empty pools there is nothing to vacuum. *)
Lemma vacuum_nothing w :
  ubuf_pool (mgr w) = [] -> shared_pool (mgr w) = [] ->
  ubuf_pic_mem_mgr_vacuum w = Done tt w.
Proof.
  intros Hu Hs.
  unfold ubuf_pic_mem_mgr_vacuum, modify, bind, get. rewrite Hu, Hs. cbn.
  destruct w as [m ub sh hn hb un ul uv]. destruct m. cbn in *. subst.
  unfold set_mgr, set_heap, set_ubufs, set_shareds, with_shared_pool,
    with_ubuf_pool. cbn.
  rewrite !Nat.add_0_r. reflexivity.
Qed.

Definition plane_of (p : string * Z * Z * Z) : ubuf_pic_common_mgr_plane :=
  mk_mgr_plane (fst (fst (fst p))) (snd (fst (fst p))) (snd (fst p)) (snd p).

Lemma add_planes_run ndebug ps : forall w,
  mgr_refcount (mgr w) = 1 ->
  ubuf_pool (mgr w) = [] -> shared_pool (mgr w) = [] ->
  NoDup (map chroma (mgr_planes (mgr w)) ++ map (fun p => fst (fst (fst p))) ps) ->
  add_planes ndebug ps w
  = Done true (set_mgr (with_planes (mgr_planes (mgr w) ++ map plane_of ps)) w).
Proof.
  induction ps as [|[[[c h] v] ms] ps IH]; intros w Hr Hu Hs Hnd.
  - cbn. unfold ret. f_equal. rewrite app_nil_r.
    destruct w as [m ub sh hn hb un ul uv]. destruct m. reflexivity.
  - cbn [add_planes]. unfold bind at 1, ubuf_pic_mem_mgr_add_plane.
    unfold bind at 1, get at 1. rewrite Hr. cbn [urefcount_single].
    change (1 =? 1) with true. unfold bind at 1.
    rewrite BlockCommon.c_assert_true. unfold bind at 1.
    rewrite (vacuum_nothing w Hu Hs). unfold bind at 1, get at 1.
    unfold ubuf_pic_common_mgr_add_plane.
    assert (Hex : existsb (fun p => String.eqb (chroma p) c)
                    (mgr_planes (mgr w)) = false).
    { apply not_true_is_false. intros Hex.
      apply existsb_exists in Hex as (p & Hp & He).
      apply String.eqb_eq in He. cbn in Hnd.
      apply NoDup_app in Hnd as (_ & Hd & _).
      apply (Hd c); [|apply elem_of_cons; now left].
      apply list_elem_of_In, in_map_iff. eauto. }
    rewrite Hex. unfold bind at 1, modify at 1. unfold ret at 1.
    rewrite IH.
    + f_equal. destruct w as [m ub sh hn hb un ul uv]. destruct m.
      unfold set_mgr, with_planes. cbn. rewrite <- app_assoc. reflexivity.
    + assumption.
    + assumption.
    + assumption.
    + cbn. rewrite map_app, <- app_assoc. cbn. cbn in Hnd. exact Hnd.
Qed.

(** [ubuf_pic_mem_mgr_alloc_fourcc] on a known fourcc, with [int] arguments
    and memory for the manager, returns a manager whose sizes are all in
    range ([mgr_wf]), with the macropixel and the planes of the format and
    one reference.  The two horizontal margins are divided by the
    macropixel of the format: they are counted in pixels, and for the packed
    4:2:2 formats, whose macropixel is 2, they must be even (or -1). *)
Theorem ubuf_pic_mem_mgr_alloc_fourcc_wf :
  forall (ndebug : bool) (ubuf_pool_depth0 shared_pool_depth0 : nat)
         (fcc : string)
         (hmprepend0 hmappend0 vprepend0 vappend0 align0 align_hmoffset0 : Z)
         (w : world) (mp : Z) (ps : list (string * Z * Z * Z)),
    fourcc_format fcc = Some (mp, ps) ->
    (0 < heap_budget w)%nat ->
    INT_MIN <= hmprepend0 <= INT_MAX -> INT_MIN <= hmappend0 <= INT_MAX ->
    INT_MIN <= vprepend0 <= INT_MAX -> INT_MIN <= vappend0 <= INT_MAX ->
    INT_MIN <= align0 <= INT_MAX -> INT_MIN <= align_hmoffset0 <= INT_MAX ->
    hmprepend0 = -1 \/ Z.rem hmprepend0 mp = 0 ->
    hmappend0 = -1 \/ Z.rem hmappend0 mp = 0 ->
    exists w',
      ubuf_pic_mem_mgr_alloc_fourcc ndebug ubuf_pool_depth0 shared_pool_depth0
        fcc hmprepend0 hmappend0 vprepend0 vappend0 align0 align_hmoffset0 w
      = Done true w' /\
      mgr_wf (mgr w') /\
      macropixel (mgr w') = mp /\
      mgr_planes (mgr w') = map plane_of ps /\
      mgr_hmprepend (mgr w')
      = Z.quot (if 0 <=? hmprepend0 then hmprepend0 else UBUF_DEFAULT_HPREPEND)
          mp /\
      mgr_hmappend (mgr w')
      = Z.quot (if 0 <=? hmappend0 then hmappend0 else UBUF_DEFAULT_HAPPEND)
          mp /\
      mgr_refcount (mgr w') = 1 /\
      ubuf_pool (mgr w') = [] /\ shared_pool (mgr w') = [] /\
      ubufs w' = ubufs w /\ shareds w' = shareds w.
Proof.
  intros ndebug upd spd fcc hmp hma vp va al aho w mp ps Hf Hb
    Hhmp Hhma Hvp Hva Hal Haho Hr1 Hr2.
  destruct (fourcc_format_cases fcc mp ps Hf) as (Hmp & Hnd & Hps).
  unfold ubuf_pic_mem_mgr_alloc_fourcc. rewrite Hf.
  unfold bind at 1, ubuf_pic_mem_mgr_alloc.
  replace (mp =? 0) with false by (symmetry; apply Z.eqb_neq; lia).
  assert (Hc1 : (hmp =? -1) || (Z.rem hmp mp =? 0) = true).
  { apply orb_true_iff. destruct Hr1 as [->| ->]; [now left | now right]. }
  assert (Hc2 : (hma =? -1) || (Z.rem hma mp =? 0) = true).
  { apply orb_true_iff. destruct Hr2 as [->| ->]; [now left | now right]. }
  rewrite Hc1, Hc2. unfold bind at 1. rewrite BlockCommon.c_assert_true.
  unfold bind at 1. rewrite BlockCommon.c_assert_true.
  unfold bind at 1, malloc.
  destruct w as [m ub sh hn hb un ul uv]. cbn [heap_budget] in *.
  destruct hb as [|hb]; [lia|].
  unfold bind at 1, modify at 1, ret at 1. unfold bind at 1.
  rewrite add_planes_run; try reflexivity; [|exact Hnd].
  unfold ret. eexists. split; [reflexivity|].
  assert (Hi : forall x, INT_MIN <= x <= INT_MAX -> forall dflt,
             0 <= dflt <= 8 ->
             0 <= (if 0 <=? x then x else dflt) <= INT_MAX).
  { intros x Hx dflt Hd. unfold INT_MIN, INT_MAX in *.
    destruct (0 <=? x) eqn:E; [apply Z.leb_le in E|]; lia. }
  assert (Hq : forall x, INT_MIN <= x <= INT_MAX -> forall dflt,
             0 <= dflt <= 8 ->
             0 <= Z.quot (if 0 <=? x then x else dflt) mp <= INT_MAX).
  { intros x Hx dflt Hd. specialize (Hi x Hx dflt Hd).
    destruct Hmp as [-> | ->]; [now rewrite Z.quot_1_r|].
    split; [apply Z.quot_pos; lia | apply Z.quot_le_upper_bound; lia]. }
  assert (Hs : forall x, 0 <= x <= INT_MAX -> to_size_t x = x).
  { intros x Hx. unfold to_size_t, UINT64_MOD, INT_MAX in *.
    apply Z.mod_small. lia. }
  cbn.
  rewrite !Hs by (first [apply Hq | apply Hi];
                  first [assumption | unfold UBUF_DEFAULT_HPREPEND,
                           UBUF_DEFAULT_HAPPEND, UBUF_DEFAULT_VPREPEND,
                           UBUF_DEFAULT_VAPPEND, UBUF_DEFAULT_ALIGN; lia]).
  split_and!; try reflexivity.
  unfold mgr_wf. cbn.
  split_and!;
    try (first [apply Hq | apply Hi];
         first [assumption | unfold UBUF_DEFAULT_HPREPEND,
                  UBUF_DEFAULT_HAPPEND, UBUF_DEFAULT_VPREPEND,
                  UBUF_DEFAULT_VAPPEND, UBUF_DEFAULT_ALIGN; lia]);
    try lia.
  apply Forall_forall. intros p Hp. apply list_elem_of_In, in_map_iff in Hp.
  destruct Hp as (q & <- & Hq'). rewrite Forall_forall in Hps.
  apply list_elem_of_In in Hq'. specialize (Hps q Hq').
  unfold plane_ok, plane_of. cbn. exact Hps.
Qed.

Lemma ubuf_pic_mem_mgr_alloc_fourcc_wf_witness :
  exists w',
    ubuf_pic_mem_mgr_alloc_fourcc false 4 4 "YUY2" 4 (-1) 2 2 16 0
      (machine 8 4096 8192)
    = Done true w' /\
    mgr_wf (mgr w') /\
    macropixel (mgr w') = 2 /\
    mgr_planes (mgr w') = [mk_mgr_plane "y8u8y8v8" 1 1 4] /\
    mgr_hmprepend (mgr w') = 2 /\ mgr_hmappend (mgr w') = 4 /\
    mgr_refcount (mgr w') = 1 /\
    ubuf_pool (mgr w') = [] /\ shared_pool (mgr w') = [] /\
    ubufs w' = ubufs (machine 8 4096 8192) /\
    shareds w' = shareds (machine 8 4096 8192).
Proof.
  apply (ubuf_pic_mem_mgr_alloc_fourcc_wf false 4 4 "YUY2" 4 (-1) 2 2 16 0
           (machine 8 4096 8192) 2 [("y8u8y8v8"%string, 1, 1, 4)]);
    try reflexivity; try (vm_compute; lia);
    try (unfold INT_MIN, INT_MAX; lia).
Defined.

End PicMem.

(** ** The avformat source pipe ([upipe_avformat_source.c]) *)

Module Avfsrc.

(** *** What libavformat shows of a container *)

Inductive AVMediaType : Type :=
| AVMEDIA_TYPE_UNKNOWN | AVMEDIA_TYPE_VIDEO | AVMEDIA_TYPE_AUDIO
| AVMEDIA_TYPE_DATA | AVMEDIA_TYPE_SUBTITLE | AVMEDIA_TYPE_ATTACHMENT.

(** The fields of [AVCodecContext] that the source reads; the numbers are
    [int]s. *)
Record AVCodecContext : Type := mk_codec {
  codec_type : AVMediaType;
  codec_id : Z;
  bits_per_coded_sample : Z;
  channels : Z;
  sample_rate : Z;
  block_align : Z;
  bit_rate : Z;
  width : Z;
  height : Z;
  ticks_per_frame : Z;
  time_base_num : Z;
  time_base_den : Z
}.

(** [AVStream]: its codec and the value of its "language" metadata. *)
Record AVStream : Type := mk_stream {
  codec : AVCodecContext;
  language : option string
}.

(** [AVFormatContext]: [nb_streams] is the length of [streams]. *)
Record AVFormatContext : Type := mk_context {
  streams : list AVStream
}.

Record AVPacket : Type := mk_packet {
  stream_index : Z;
  data : list Z
}.

(** Codec identifiers delimiting the raw audio (PCM) range, and raw video
    ([libavcodec/avcodec.h]). *)
Definition CODEC_ID_RAWVIDEO : Z := 14.
Definition CODEC_ID_FIRST_AUDIO : Z := 65536.
Definition CODEC_ID_ADPCM_IMA_QT : Z := 69632.

(** *** Events and records leaving the pipe *)

(** A record handed to an output: its attributes, its reception time and
    its block of octets, if any. *)
Record packet_uref : Type := mk_packet_uref {
  attributes : uref;
  systime : option Z;
  block : option (list Z)
}.

(** What the pipe and its sub-pipes do to the outside, in order: the events
    thrown to the probes (with the pipe that throws; [None] is the source,
    [Some o] its output sub-pipe at address [o]), the records given to the
    input of an output pipe, and the watchers started. *)
Inductive uprobe_event : Type :=
| UPROBE_READY
| UPROBE_DEAD
| UPROBE_AERROR
| UPROBE_UPUMP_ERROR
| UPROBE_READ_END (location : option string)
| UPROBE_NEED_UREF_MGR
| UPROBE_NEED_UPUMP_MGR
| UPROBE_NEED_UBUF_MGR (flow_def0 : option uref)
| UPROBE_SPLIT_ADD_FLOW (flow_id : Z) (flow_def0 : uref).

Inductive effect : Type :=
| Throw (sub : option nat) (e : uprobe_event)
| Input (output_pipe : nat) (u : packet_uref)
| WorkerStarted (upump0 : nat)
| DealerStarted (upump0 : nat).

(** *** The pipe and its outputs *)

(** [struct upipe_avfsrc_output]; [self] is the address of the structure,
    by which the list of outputs tells its elements apart. *)
Record upipe_avfsrc_output : Type := mk_output {
  self : nat;
  id : Z;
  output : option nat;
  flow_def : option uref;
  flow_def_sent : bool;
  ubuf_mgr : option nat;
  output_refcount : urefcount
}.

(** [struct upipe_avfsrc] *)
Record upipe_avfsrc : Type := mk_avfsrc {
  uref_mgr : option nat;
  upump_mgr : option nat;
  upump : option nat;
  uclock : option nat;
  outputs : list upipe_avfsrc_output;
  url : option string;
  upump_av_deal : option nat;
  options : list (string * string);
  context : option AVFormatContext;
  probed : bool;
  refcount : urefcount
}.

(** The pipe in its surroundings: what it has done so far, the state of
    [malloc] and of the uref manager (how many urefs it can still hand out,
    and the room in the dictionary of a fresh one). *)
Record world : Type := mk_world {
  pipe : upipe_avfsrc;
  effects : list effect;
  heap_next : nat;
  heap_budget : nat;
  urefs_left : nat;
  dict_room : nat
}.

Definition set_pipe (f : upipe_avfsrc -> upipe_avfsrc) (w : world) : world :=
  mk_world (f (pipe w)) (effects w) (heap_next w) (heap_budget w)
    (urefs_left w) (dict_room w).
Definition emit (e : effect) : M world unit :=
  modify (fun w => mk_world (pipe w) (effects w ++ [e]) (heap_next w)
                     (heap_budget w) (urefs_left w) (dict_room w)).
Definition set_heap (next budget : nat) (w : world) : world :=
  mk_world (pipe w) (effects w) next budget (urefs_left w) (dict_room w).
Definition set_urefs_left (n : nat) (w : world) : world :=
  mk_world (pipe w) (effects w) (heap_next w) (heap_budget w) n (dict_room w).

Definition with_uref_mgr (v : option nat) (s : upipe_avfsrc) :=
  mk_avfsrc v (upump_mgr s) (upump s) (uclock s) (outputs s) (url s)
    (upump_av_deal s) (options s) (context s) (probed s) (refcount s).
Definition with_upump_mgr (v : option nat) (s : upipe_avfsrc) :=
  mk_avfsrc (uref_mgr s) v (upump s) (uclock s) (outputs s) (url s)
    (upump_av_deal s) (options s) (context s) (probed s) (refcount s).
Definition with_upump (v : option nat) (s : upipe_avfsrc) :=
  mk_avfsrc (uref_mgr s) (upump_mgr s) v (uclock s) (outputs s) (url s)
    (upump_av_deal s) (options s) (context s) (probed s) (refcount s).
Definition with_uclock (v : option nat) (s : upipe_avfsrc) :=
  mk_avfsrc (uref_mgr s) (upump_mgr s) (upump s) v (outputs s) (url s)
    (upump_av_deal s) (options s) (context s) (probed s) (refcount s).
Definition with_outputs (v : list upipe_avfsrc_output) (s : upipe_avfsrc) :=
  mk_avfsrc (uref_mgr s) (upump_mgr s) (upump s) (uclock s) v (url s)
    (upump_av_deal s) (options s) (context s) (probed s) (refcount s).
Definition with_url (v : option string) (s : upipe_avfsrc) :=
  mk_avfsrc (uref_mgr s) (upump_mgr s) (upump s) (uclock s) (outputs s) v
    (upump_av_deal s) (options s) (context s) (probed s) (refcount s).
Definition with_upump_av_deal (v : option nat) (s : upipe_avfsrc) :=
  mk_avfsrc (uref_mgr s) (upump_mgr s) (upump s) (uclock s) (outputs s)
    (url s) v (options s) (context s) (probed s) (refcount s).
Definition with_options (v : list (string * string)) (s : upipe_avfsrc) :=
  mk_avfsrc (uref_mgr s) (upump_mgr s) (upump s) (uclock s) (outputs s)
    (url s) (upump_av_deal s) v (context s) (probed s) (refcount s).
Definition with_context (v : option AVFormatContext) (s : upipe_avfsrc) :=
  mk_avfsrc (uref_mgr s) (upump_mgr s) (upump s) (uclock s) (outputs s)
    (url s) (upump_av_deal s) (options s) v (probed s) (refcount s).
Definition with_probed (v : bool) (s : upipe_avfsrc) :=
  mk_avfsrc (uref_mgr s) (upump_mgr s) (upump s) (uclock s) (outputs s)
    (url s) (upump_av_deal s) (options s) (context s) v (refcount s).
Definition with_refcount (v : urefcount) (s : upipe_avfsrc) :=
  mk_avfsrc (uref_mgr s) (upump_mgr s) (upump s) (uclock s) (outputs s)
    (url s) (upump_av_deal s) (options s) (context s) (probed s) v.

Definition with_id (v : Z) (o : upipe_avfsrc_output) :=
  mk_output (self o) v (output o) (flow_def o) (flow_def_sent o) (ubuf_mgr o)
    (output_refcount o).
Definition with_output (v : option nat) (o : upipe_avfsrc_output) :=
  mk_output (self o) (id o) v (flow_def o) (flow_def_sent o) (ubuf_mgr o)
    (output_refcount o).
Definition with_flow_def (v : option uref) (sent : bool)
    (o : upipe_avfsrc_output) :=
  mk_output (self o) (id o) (output o) v sent (ubuf_mgr o) (output_refcount o).
Definition with_ubuf_mgr (v : option nat) (o : upipe_avfsrc_output) :=
  mk_output (self o) (id o) (output o) (flow_def o) (flow_def_sent o) v
    (output_refcount o).
Definition with_output_refcount (v : urefcount) (o : upipe_avfsrc_output) :=
  mk_output (self o) (id o) (output o) (flow_def o) (flow_def_sent o)
    (ubuf_mgr o) v.

(** *** The collaborators that are not in this file *)

Definition malloc : M world (option nat) :=
  fun w =>
    match heap_budget w with
    | O => Done None w
    | S budget => Done (Some (heap_next w)) (set_heap (S (heap_next w)) budget w)
    end.

Definition free_mem : M world unit :=
  modify (fun w => set_heap (heap_next w) (S (heap_budget w)) w).

(** Modelled from the spec: the watchers ([upipe/upump.h], missing) are
    allocated by the upump manager of the event loop, which "may fail";
    [upump_alloc_idler] and [upipe_av_deal_upump_alloc] take the watcher
    from the memory that is left, like [malloc].  [upump_free] hands the
    watcher back to its manager: the memory is not given back to [malloc],
    and nothing follows for a later allocation. *)
Definition upump_alloc_idler : M world (option nat) := malloc.
Definition upipe_av_deal_upump_alloc : M world (option nat) := malloc.
Definition upump_free : M world unit := ret tt.

(** Modelled from the spec: urefs ([upipe/uref.h], missing) are
    pool-allocated records; "[uref_alloc_control] creates a record carrying
    only a dictionary", "duplicating a [uref] clones its dict", and an
    allocation fails when the manager has nothing left. *)
Definition uref_alloc_control : M world (option uref) :=
  fun w =>
    match uref_mgr (pipe w), urefs_left w with
    | None, _ => Abort
    | Some _, O => Done None w
    | Some _, S n => Done (Some (mk_uref [] (dict_room w))) (set_urefs_left n w)
    end.

(** [uref_block_alloc]: a uref with a block of the size asked for. *)
Definition uref_block_alloc : M world (option uref) := uref_alloc_control.

Definition uref_dup (u : uref) : M world (option uref) :=
  fun w =>
    match urefs_left w with
    | O => Done None w
    | S n => Done (Some u) (set_urefs_left n w)
    end.

Definition uref_free : M world unit :=
  modify (fun w => set_urefs_left (S (urefs_left w)) w).

(** Throwing an event to the probes. *)
Definition upipe_throw (sub : option nat) (e : uprobe_event) : M world unit :=
  emit (Throw sub e).

(** The sub-pipe at address [p]; a pointer to a sub-pipe that is not in the
    list of outputs is dangling. *)
Definition get_output (p : nat) : M world upipe_avfsrc_output :=
  fun w =>
    match List.find (fun o => Nat.eqb (self o) p) (outputs (pipe w)) with
    | Some o => Done o w
    | None => Abort
    end.

Definition update_output (p : nat)
    (f : upipe_avfsrc_output -> upipe_avfsrc_output) : M world unit :=
  modify (set_pipe (fun s =>
    with_outputs
      (List.map (fun o => if Nat.eqb (self o) p then f o else o) (outputs s))
      s)).

(** Modelled from the spec: the helper of [UPIPE_HELPER_OUTPUT]
    ([upipe/upipe_helper_output.h], missing) that stores "its own flow
    definition" in a sub-pipe: the previous one is freed, and the new one
    has not been sent yet. *)
Definition upipe_avfsrc_output_store_flow_def (p : nat)
    (flow_def0 : option uref) : M world unit :=
  (do o <- get_output p;
   exec (if bool_decide (is_Some (flow_def o)) then uref_free else ret tt);
   update_output p (with_flow_def flow_def0 false))%cmd.

(** Modelled from the spec: the helper that gives a record to the output of
    a sub-pipe.  The flow definition is sent first if it has not been; with
    no output or no flow definition the record is dropped. *)
Definition upipe_avfsrc_output_output (p : nat) (u : packet_uref)
    : M world unit :=
  (do o <- get_output p;
   exec (if flow_def_sent o then ret tt
         else
           match output o, flow_def o with
           | Some out, Some fd =>
               do d <- uref_dup fd;
               match d with
               | None => upipe_throw (Some p) UPROBE_AERROR
               | Some fd' =>
                   exec emit (Input out (mk_packet_uref fd' None None));
                   update_output p (with_flow_def (flow_def o) true)
               end
           | _, _ => ret tt
           end);
   do o' <- get_output p;
   if flow_def_sent o' then
     match output o' with
     | Some out => emit (Input out u)
     | None => uref_free
     end
   else uref_free)%cmd.

(** Modelled from the spec: [GET/SET_OUTPUT], [GET/SET_UBUF_MGR] and
    [GET_FLOW_DEF] on a sub-pipe read or replace the corresponding field; a
    new output has not received the flow definition. *)
Definition upipe_avfsrc_output_set_output (p : nat) (out : option nat)
    : M world bool :=
  (exec update_output p
     (fun o => with_flow_def (flow_def o) false (with_output out o));
   ret true)%cmd.

Definition upipe_avfsrc_output_set_ubuf_mgr (p : nat) (m : option nat)
    : M world bool :=
  (exec update_output p (with_ubuf_mgr m); ret true)%cmd.

(** [uref_av_flow_get_id] and [uref_av_flow_set_id]
    ([upipe-av/uref_av_flow.h], missing): the unsigned attribute "a.id". *)
Definition uref_av_flow_get_id (u : uref) : option Z :=
  uref_attr_get_unsigned u "a.id".
Definition uref_av_flow_set_id (u : uref) (v : Z) : bool * uref :=
  uref_attr_set u "a.id" (AttrUnsigned (to_uint64 v)).

(** *** Output sub-pipes *)

(** [upipe_avfsrc_use] and [upipe_avfsrc_output_mgr_use] *)
Definition upipe_avfsrc_use : M world unit :=
  modify (set_pipe (fun s => with_refcount (urefcount_use (refcount s)) s)).

(** [upipe_avfsrc_output_alloc]: the new sub-pipe is added at the end of the
    list of outputs, with no stream id.  [upipe_init] takes a reference on
    the manager of the sub-pipe, that is, through
    [upipe_avfsrc_output_mgr_use], on the source pipe. *)
Definition upipe_avfsrc_output_alloc : M world (option nat) :=
  (do r <- malloc;
   match r with
   | None => ret None
   | Some p =>
       exec upipe_avfsrc_use;
       exec modify (set_pipe (fun s =>
         with_outputs
           (outputs s ++
            [mk_output p UINT64_MAX None None false None urefcount_init])
           s));
       exec upipe_throw (Some p) UPROBE_READY;
       ret (Some p)
   end)%cmd.

(** [upipe_avfsrc_output_set_flow_def] *)
Definition upipe_avfsrc_output_set_flow_def (p : nat) (flow_def0 : uref)
    : M world bool :=
  (do o <- get_output p;
   exec (if bool_decide (is_Some (flow_def o)) then
           exec upipe_avfsrc_output_store_flow_def p None;
           update_output p (with_id UINT64_MAX)
         else ret tt);
   match uref_av_flow_get_id flow_def0 with
   | None => ret false
   | Some id0 =>
       do w <- get;
       if existsb (fun o' => negb (Nat.eqb (self o') p) && (id o' =? id0))
            (outputs (pipe w))
       then ret false
       else
         do d <- uref_dup flow_def0;
         match d with
         | None => exec upipe_throw (Some p) UPROBE_AERROR; ret false
         | Some u =>
             exec update_output p (with_id id0);
             exec upipe_avfsrc_output_store_flow_def p (Some u);
             ret true
         end
   end)%cmd.

(** The commands of [enum upipe_command] and of the avformat source, with
    their arguments.  A result pointer is given as a boolean telling whether
    it is non-NULL where the code asserts it, and left out elsewhere. *)
Inductive upipe_command : Type :=
| UPIPE_GET_UREF_MGR
| UPIPE_SET_UREF_MGR (m : option nat)
| UPIPE_GET_UPUMP_MGR
| UPIPE_SET_UPUMP_MGR (m : option nat)
| UPIPE_GET_UCLOCK
| UPIPE_SET_UCLOCK (c : option nat)
| UPIPE_GET_UBUF_MGR
| UPIPE_SET_UBUF_MGR (m : option nat)
| UPIPE_GET_OUTPUT
| UPIPE_SET_OUTPUT (out : option nat)
| UPIPE_GET_FLOW_DEF
| UPIPE_SET_FLOW_DEF (flow_def0 : uref)
| UPIPE_AVFSRC_GET_OPTION (signature : Z) (option0 : option string)
    (content_p : bool)
| UPIPE_AVFSRC_SET_OPTION (signature : Z) (option0 : option string)
    (content : option string)
| UPIPE_AVFSRC_GET_URL (signature : Z) (url_p : bool)
| UPIPE_AVFSRC_SET_URL (signature : Z) (url0 : option string)
| UPIPE_AVFSRC_GET_TIME (signature : Z) (time_p : bool)
| UPIPE_AVFSRC_SET_TIME (signature : Z) (time : Z)
| UPIPE_OTHER.

(** What a command wrote through its result pointer. *)
Inductive control_result : Type :=
| NoResult
| ResultMgr (m : option nat)
| ResultOutput (out : option nat)
| ResultFlowDef (flow_def0 : option uref)
| ResultString (s : option string).

(** [upipe_avfsrc_output_control] *)
Definition upipe_avfsrc_output_control (p : nat) (command : upipe_command)
    : M world (bool * control_result) :=
  (match command with
   | UPIPE_GET_UBUF_MGR =>
       do o <- get_output p; ret (true, ResultMgr (ubuf_mgr o))
   | UPIPE_SET_UBUF_MGR m =>
       do r <- upipe_avfsrc_output_set_ubuf_mgr p m; ret (r, NoResult)
   | UPIPE_GET_OUTPUT =>
       do o <- get_output p; ret (true, ResultOutput (output o))
   | UPIPE_SET_OUTPUT out =>
       do r <- upipe_avfsrc_output_set_output p out; ret (r, NoResult)
   | UPIPE_GET_FLOW_DEF =>
       do o <- get_output p; ret (true, ResultFlowDef (flow_def o))
   | UPIPE_SET_FLOW_DEF flow_def0 =>
       do r <- upipe_avfsrc_output_set_flow_def p flow_def0; ret (r, NoResult)
   | _ => ret (false, NoResult)
   end)%cmd.

(** [upipe_avfsrc_output_use] *)
Definition upipe_avfsrc_output_use (p : nat) : M world unit :=
  (do o <- get_output p;
   update_output p (with_output_refcount (urefcount_use (output_refcount o))))%cmd.

(** [ulist_delete_foreach] with a [break] at the first match. *)
Fixpoint ulist_delete_first (p : nat) (l : list upipe_avfsrc_output)
    : list upipe_avfsrc_output :=
  match l with
  | [] => []
  | o :: l' => if Nat.eqb (self o) p then l' else o :: ulist_delete_first p l'
  end.

(** *** The source pipe *)

(** What the surroundings answer during one call into the pipe: the managers
    the probes provide when asked ([None]: they provide none), the results
    of libavformat ([avformat_open_input] gives the context it opened, or
    [None] for an error code below 0) and of the dealer of exclusive access
    to it, the clock.  The last three fields are the setters of the picture
    attributes that [alloc_video_def] calls with an [int]:
    [uref_pic_flow_set_hsize] and [uref_pic_flow_set_vsize] are declared
    nowhere in the files at hand, and [uref_pic_flow.h] declares "p.fps" as
    a rational; what they store is left to the surroundings. *)
Record env : Type := mk_env {
  probe_uref_mgr : option nat;
  probe_upump_mgr : option nat;
  probe_ubuf_mgr : nat -> option nat;
  avformat_open_input : string -> list (string * string) ->
                        option AVFormatContext;
  avformat_find_stream_info : AVFormatContext -> Z;
  av_dict_set_error : Z;
  upipe_av_deal_grab : bool;
  upipe_av_deal_yield : bool;
  uclock_now : Z;
  uref_block_write_ok : bool;
  upipe_av_to_flow_def : Z -> option string;
  uref_pic_flow_set_hsize : uref -> Z -> bool * uref;
  uref_pic_flow_set_vsize : uref -> Z -> bool * uref;
  uref_pic_flow_set_fps : uref -> Z -> bool * uref
}.

Section Source.

(** Whether the file is compiled with [NDEBUG]. *)
Variable ndebug : bool.
(** The signature of the manager ([upipe-av/upipe_avformat_source.h] is not
    at hand). *)
Variable UPIPE_AVFSRC_SIGNATURE : Z.
Variable e : env.

(** [upipe_avfsrc_alloc]: the pipe as it is created. *)
Definition upipe_avfsrc_alloc (budget urefs room : nat) : world :=
  mk_world
    (mk_avfsrc None None None None [] None None [] None false urefcount_init)
    [Throw None UPROBE_READY] 1 budget urefs room.

(** Modelled from the spec: the helper of [UPIPE_HELPER_UPUMP_MGR] that
    replaces the watcher of the pipe stops and frees the previous one. *)
Definition upipe_avfsrc_set_upump (v : option nat) : M world unit :=
  (do w <- get;
   exec (if bool_decide (is_Some (upump (pipe w))) then upump_free else ret tt);
   modify (set_pipe (with_upump v)))%cmd.

(** [upipe_avfsrc_abort_av_deal] *)
Definition upipe_avfsrc_abort_av_deal : M world unit :=
  (do w <- get;
   if bool_decide (is_Some (upump_av_deal (pipe w))) then
     exec upump_free;
     modify (set_pipe (with_upump_av_deal None))
   else ret tt)%cmd.

(** [upipe_avfsrc_find_output]: the first output with this id. *)
Definition upipe_avfsrc_find_output (s : upipe_avfsrc) (id0 : Z)
    : option upipe_avfsrc_output :=
  List.find (fun o => id o =? id0) (outputs s).

(** [upipe_avfsrc_output_release] (see above for the list); [upipe_clean]
    gives back the reference on the source pipe, which is freed with its
    last reference ([upipe_avfsrc_release]). *)
Definition upipe_avfsrc_release : M world unit :=
  (do w <- get;
   let (r, last) := urefcount_release (refcount (pipe w)) in
   exec modify (set_pipe (with_refcount r));
   if last then
     exec upipe_avfsrc_abort_av_deal;
     exec upipe_throw None UPROBE_DEAD;
     exec upipe_avfsrc_set_upump None;
     free_mem
   else ret tt)%cmd.

Definition upipe_avfsrc_output_release (p : nat) : M world unit :=
  (do o <- get_output p;
   let (r, last) := urefcount_release (output_refcount o) in
   exec update_output p (with_output_refcount r);
   if last then
     exec upipe_throw (Some p) UPROBE_DEAD;
     exec (if bool_decide (is_Some (flow_def o)) then uref_free else ret tt);
     exec modify (set_pipe (fun s =>
       with_outputs (ulist_delete_first p (outputs s)) s));
     exec upipe_avfsrc_release;
     free_mem
   else ret tt)%cmd.

(** [upipe_avfsrc_worker], for the error code and the packet that
    [av_read_frame] returns. *)
Definition upipe_avfsrc_worker (error : Z) (pkt : AVPacket) : M world unit :=
  (do w <- get;
   if error <? 0 then
     exec upipe_avfsrc_set_upump None;
     upipe_throw None (UPROBE_READ_END (url (pipe w)))
   else
     match upipe_avfsrc_find_output (pipe w) (to_uint64 (stream_index pkt))
     with
     | None => ret tt
     | Some o =>
         exec (if bool_decide (is_Some (ubuf_mgr o)) then ret tt
               else
                 exec upipe_throw (Some (self o))
                   (UPROBE_NEED_UBUF_MGR (flow_def o));
                 update_output (self o)
                   (with_ubuf_mgr (probe_ubuf_mgr e (self o))));
         do o' <- get_output (self o);
         match ubuf_mgr o' with
         | None => ret tt
         | Some _ =>
             do a <- uref_block_alloc;
             match a with
             | None => upipe_throw None UPROBE_AERROR
             | Some u =>
                 let systime0 :=
                   match uclock (pipe w) with
                   | Some _ => uclock_now e
                   | None => 0
                   end in
                 if negb (uref_block_write_ok e) then
                   exec uref_free;
                   upipe_throw None UPROBE_AERROR
                 else
                   upipe_avfsrc_output_output (self o)
                     (mk_packet_uref u
                        (match uclock (pipe w) with
                         | Some _ => Some systime0
                         | None => None
                         end)
                        (Some (data pkt)))
             end
         end
     end)%cmd.

(** [upipe_avfsrc_start] *)
Definition upipe_avfsrc_start : M world bool :=
  (do w <- get;
   match upump_mgr (pipe w) with
   | None => abort
   | Some _ =>
       do r <- upump_alloc_idler;
       match r with
       | None => exec upipe_throw None UPROBE_UPUMP_ERROR; ret false
       | Some pump =>
           exec upipe_avfsrc_set_upump (Some pump);
           exec emit (WorkerStarted pump);
           ret true
       end
   end)%cmd.

(** *** Flow definitions of the streams *)

(** [CHK(x)]: a failed attribute makes the function return NULL. *)
Definition chk (r : bool * uref) (k : uref -> option uref) : option uref :=
  if fst r then k (snd r) else None.

(** Modelled from the spec: the allocators of flow definitions
    ([uref_sound_flow.h], [uref_block_flow.h], missing) make a control
    packet whose "f.def" is the flow definition string ("sound.",
    "block.mpeg2video.", ...). *)
Definition uref_sound_flow_alloc_def (channels0 sample_size : Z)
    : M world (option uref) :=
  (do a <- uref_alloc_control;
   match a with
   | None => ret None
   | Some u =>
       match chk (uref_attr_set u "f.def" (AttrString "sound.")) (fun u =>
             chk (uref_attr_set u "s.channels"
                    (AttrSmallUnsigned (to_uint8 channels0))) (fun u =>
             chk (uref_attr_set u "s.sample_size"
                    (AttrSmallUnsigned (to_uint8 sample_size))) Some))
       with
       | None => exec uref_free; ret None
       | Some u' => ret (Some u')
       end
   end)%cmd.

Definition uref_block_flow_alloc_def_va (def : string)
    : M world (option uref) :=
  (do a <- uref_alloc_control;
   match a with
   | None => ret None
   | Some u =>
       match chk (uref_attr_set u "f.def" (AttrString ("block." +:+ def))) Some
       with
       | None => exec uref_free; ret None
       | Some u' => ret (Some u')
       end
   end)%cmd.

(** An [int] expression whose value is undefined aborts the function. *)
Definition int_value (r : option Z) : M world Z :=
  match r with
  | Some z => ret z
  | None => abort
  end.

(** [alloc_raw_audio_def]; the number of samples is computed in [int]. *)
Definition alloc_raw_audio_def (c : AVCodecContext) : M world (option uref) :=
  (if negb (Z.rem (bits_per_coded_sample c) 8 =? 0) then ret None
   else
     do a <- uref_sound_flow_alloc_def (channels c)
               (Z.quot (bits_per_coded_sample c) 8);
     match a with
     | None => ret None
     | Some u =>
         match chk (uref_attr_set u "s.rate"
                      (AttrUnsigned (to_uint64 (sample_rate c)))) Some with
         | None => ret None
         | Some u1 =>
             if block_align c =? 0 then ret (Some u1)
             else
               do q <- int_value
                         (int_div (block_align c)
                            (Z.quot (bits_per_coded_sample c) 8));
               do samples <- int_value (int_div q (channels c));
               ret (chk (uref_attr_set u1 "s.samples"
                           (AttrUnsigned (to_uint64 samples))) Some)
         end
     end)%cmd.

(** [(codec->bit_rate + 7) / 8], in [int]. *)
Definition octetrate (c : AVCodecContext) : M world Z :=
  (do s <- int_value (int_add (bit_rate c) 7); ret (Z.quot s 8))%cmd.

(** [alloc_audio_def] *)
Definition alloc_audio_def (c : AVCodecContext) : M world (option uref) :=
  (match upipe_av_to_flow_def e (codec_id c) with
   | None => ret None
   | Some def =>
       do a <- uref_block_flow_alloc_def_va def;
       match a with
       | None => ret None
       | Some u =>
           do r <- (if bit_rate c =? 0 then ret (true, u)
                    else
                      do rate <- octetrate c;
                      ret (uref_attr_set u "b.octetrate"
                             (AttrUnsigned (to_uint64 rate))));
           ret (chk r (fun u =>
                chk (uref_attr_set u "s.channels"
                       (AttrSmallUnsigned (to_uint8 (channels c)))) (fun u =>
                chk (uref_attr_set u "s.rate"
                       (AttrUnsigned (to_uint64 (sample_rate c)))) (fun u =>
                if block_align c =? 0 then Some u
                else chk (uref_attr_set u "b.size"
                            (AttrUnsigned (to_uint64 (block_align c))))
                       Some))))
       end
   end)%cmd.

(** [alloc_raw_video_def], [alloc_subtitles_def], [alloc_data_def]: TODO in
    the source, they return NULL. *)
Definition alloc_raw_video_def (c : AVCodecContext) : M world (option uref) :=
  ret None.
Definition alloc_subtitles_def (c : AVCodecContext) : M world (option uref) :=
  ret None.
Definition alloc_data_def (c : AVCodecContext) : M world (option uref) :=
  ret None.

(** [alloc_video_def]; the octet rate and the frame rate are computed in
    [int]. *)
Definition alloc_video_def (c : AVCodecContext) : M world (option uref) :=
  (match upipe_av_to_flow_def e (codec_id c) with
   | None => ret None
   | Some def =>
       do a <- uref_block_flow_alloc_def_va def;
       match a with
       | None => ret None
       | Some u =>
           do r <- (if bit_rate c =? 0 then ret (true, u)
                    else
                      do rate <- octetrate c;
                      ret (uref_attr_set u "b.octetrate"
                             (AttrUnsigned (to_uint64 rate))));
           match chk r (fun u =>
                 chk (uref_pic_flow_set_hsize e u (width c)) (fun u =>
                 chk (uref_pic_flow_set_vsize e u (height c)) Some))
           with
           | None => ret None
           | Some u =>
               let ticks :=
                 if ticks_per_frame c =? 0 then 1 else ticks_per_frame c in
               if time_base_den c =? 0 then ret (Some u)
               else
                 do n <- int_value (int_mul (time_base_num c) ticks);
                 do fps <- int_value (int_div n (time_base_den c));
                 ret (chk (uref_pic_flow_set_fps e u fps) Some)
           end
       end
   end)%cmd.

(** The [switch] of [upipe_avfsrc_probe] on the type of the codec. *)
Definition alloc_def (c : AVCodecContext) : M world (option uref) :=
  match codec_type c with
  | AVMEDIA_TYPE_AUDIO =>
      if (CODEC_ID_FIRST_AUDIO <=? codec_id c)
         && (codec_id c <? CODEC_ID_ADPCM_IMA_QT)
      then alloc_raw_audio_def c
      else alloc_audio_def c
  | AVMEDIA_TYPE_VIDEO =>
      if codec_id c =? CODEC_ID_RAWVIDEO then alloc_raw_video_def c
      else alloc_video_def c
  | AVMEDIA_TYPE_SUBTITLE => alloc_subtitles_def c
  | _ => alloc_data_def c
  end.

(** The loop of [upipe_avfsrc_probe] over the streams from index [i] on;
    false when it returned from the function early. *)
Fixpoint probe_streams (ss : list AVStream) (i : Z) : M world bool :=
  match ss with
  | [] => ret true
  | stream :: ss' =>
      (do a <- alloc_def (codec stream);
       match a with
       | None => probe_streams ss' (i + 1)
       | Some fd =>
           let r := uref_av_flow_set_id fd i in
           let r :=
             match language stream with
             | Some lang =>
                 let r' := uref_attr_set (snd r) "f.lang" (AttrString lang) in
                 (fst r' && fst r, snd r')
             | None => r
             end in
           if negb (fst r) then
             exec uref_free;
             exec upipe_throw None UPROBE_AERROR;
             ret false
           else
             exec upipe_throw None (UPROBE_SPLIT_ADD_FLOW i (snd r));
             exec uref_free;
             probe_streams ss' (i + 1)
       end)%cmd
  end.

(** [upipe_avfsrc_probe] *)
Definition upipe_avfsrc_probe : M world unit :=
  (do w <- get;
   if negb (upipe_av_deal_grab e) then ret tt
   else
     match context (pipe w) with
     | None => abort
     | Some ctx =>
         let error := avformat_find_stream_info e ctx in
         if negb (upipe_av_deal_yield e) then
           exec upump_free;
           exec modify (set_pipe (with_upump_av_deal None));
           upipe_throw None UPROBE_UPUMP_ERROR
         else
           exec upump_free;
           exec modify (set_pipe (with_upump_av_deal None));
           exec modify (set_pipe (with_probed true));
           if error <? 0 then
             exec modify (set_pipe (with_context None));
             modify (set_pipe (with_url None))
           else
             do ok <- probe_streams (streams ctx) 0;
             if ok then (exec upipe_avfsrc_start; ret tt) else ret tt
     end)%cmd.

(** *** Control commands of the source pipe *)

(** [_upipe_avfsrc_set_upump_mgr] *)
Definition _upipe_avfsrc_set_upump_mgr (m : option nat) : M world bool :=
  (do w <- get;
   exec (if bool_decide (is_Some (upump (pipe w)))
         then upipe_avfsrc_set_upump None else ret tt);
   exec upipe_avfsrc_abort_av_deal;
   exec modify (set_pipe (with_upump_mgr m));
   ret true)%cmd.

(** [av_dict_get] and [av_dict_set] on the options of the pipe; a NULL
    content deletes the entry. *)
Definition av_dict_get (d : list (string * string)) (k : string)
    : option string :=
  snd <$> List.find (fun kv => String.eqb (fst kv) k) d.

Definition av_dict_set (d : list (string * string)) (k : string)
    (v : option string) : list (string * string) :=
  let d' := List.filter (fun kv => negb (String.eqb (fst kv) k)) d in
  match v with
  | Some v' => d' ++ [(k, v')]
  | None => d'
  end.

(** [_upipe_avfsrc_get_option] *)
Definition _upipe_avfsrc_get_option (option0 : option string)
    (content_p : bool) : M world (bool * control_result) :=
  (exec c_assert ndebug (bool_decide (is_Some option0));
   exec c_assert ndebug content_p;
   do w <- get;
   match option0 with
   | None => abort
   | Some k =>
       match av_dict_get (options (pipe w)) k with
       | None => ret (false, NoResult)
       | Some v => if content_p then ret (true, ResultString (Some v)) else abort
       end
   end)%cmd.

(** [_upipe_avfsrc_set_option] *)
Definition _upipe_avfsrc_set_option (option0 content : option string)
    : M world bool :=
  (exec c_assert ndebug (bool_decide (is_Some option0));
   match option0 with
   | None => abort
   | Some k =>
       if av_dict_set_error e <? 0 then ret false
       else
         exec modify (set_pipe (fun s =>
           with_options (av_dict_set (options s) k content) s));
         ret true
   end)%cmd.

(** [_upipe_avfsrc_get_url] *)
Definition _upipe_avfsrc_get_url (url_p : bool)
    : M world (bool * control_result) :=
  (exec c_assert ndebug url_p;
   do w <- get;
   if url_p then ret (true, ResultString (url (pipe w))) else abort)%cmd.

(** [_upipe_avfsrc_set_url].  The URL that is kept is the copy that
    [strdup] makes, which the function does not check; the copy is taken to
    be made. *)
Definition _upipe_avfsrc_set_url (url0 : option string) : M world bool :=
  (do w <- get;
   exec (if bool_decide (is_Some (context (pipe w))) then
           exec modify (set_pipe (with_context None));
           exec upipe_avfsrc_set_upump None;
           upipe_avfsrc_abort_av_deal
         else ret tt);
   exec modify (set_pipe (with_url None));
   match url0 with
   | None => ret true
   | Some u =>
       do w1 <- get;
       exec (if bool_decide (is_Some (uref_mgr (pipe w1))) then ret tt
             else
               exec upipe_throw None UPROBE_NEED_UREF_MGR;
               modify (set_pipe (with_uref_mgr (probe_uref_mgr e))));
       do w2 <- get;
       if negb (bool_decide (is_Some (uref_mgr (pipe w2)))) then ret false
       else
         exec (if bool_decide (is_Some (upump_mgr (pipe w2))) then ret tt
               else
                 exec upipe_throw None UPROBE_NEED_UPUMP_MGR;
                 modify (set_pipe (with_upump_mgr (probe_upump_mgr e))));
         do w3 <- get;
         if negb (bool_decide (is_Some (upump_mgr (pipe w3)))) then ret false
         else
           match avformat_open_input e u (options (pipe w3)) with
           | None => ret false
           | Some ctx =>
               exec modify (set_pipe (with_context (Some ctx)));
               exec modify (set_pipe (with_url (Some u)));
               ret true
           end
   end)%cmd.

(** [_upipe_avfsrc_get_time] *)
Definition _upipe_avfsrc_get_time (time_p : bool) : M world bool :=
  (exec c_assert ndebug time_p; ret false)%cmd.

(** [_upipe_avfsrc_set_time] *)
Definition _upipe_avfsrc_set_time (time : Z) : M world bool := ret false.

(** [_upipe_avfsrc_control] *)
Definition _upipe_avfsrc_control (command : upipe_command)
    : M world (bool * control_result) :=
  (match command with
   | UPIPE_GET_UREF_MGR =>
       do w <- get; ret (true, ResultMgr (uref_mgr (pipe w)))
   | UPIPE_SET_UREF_MGR m =>
       exec modify (set_pipe (with_uref_mgr m)); ret (true, NoResult)
   | UPIPE_GET_UPUMP_MGR =>
       do w <- get; ret (true, ResultMgr (upump_mgr (pipe w)))
   | UPIPE_SET_UPUMP_MGR m =>
       do r <- _upipe_avfsrc_set_upump_mgr m; ret (r, NoResult)
   | UPIPE_GET_UCLOCK =>
       do w <- get; ret (true, ResultMgr (uclock (pipe w)))
   | UPIPE_SET_UCLOCK c =>
       exec modify (set_pipe (with_uclock c)); ret (true, NoResult)
   | UPIPE_AVFSRC_GET_OPTION signature option0 content_p =>
       exec c_assert ndebug (signature =? UPIPE_AVFSRC_SIGNATURE);
       _upipe_avfsrc_get_option option0 content_p
   | UPIPE_AVFSRC_SET_OPTION signature option0 content =>
       exec c_assert ndebug (signature =? UPIPE_AVFSRC_SIGNATURE);
       do r <- _upipe_avfsrc_set_option option0 content; ret (r, NoResult)
   | UPIPE_AVFSRC_GET_URL signature url_p =>
       exec c_assert ndebug (signature =? UPIPE_AVFSRC_SIGNATURE);
       _upipe_avfsrc_get_url url_p
   | UPIPE_AVFSRC_SET_URL signature url0 =>
       exec c_assert ndebug (signature =? UPIPE_AVFSRC_SIGNATURE);
       do r <- _upipe_avfsrc_set_url url0; ret (r, NoResult)
   | UPIPE_AVFSRC_GET_TIME signature time_p =>
       exec c_assert ndebug (signature =? UPIPE_AVFSRC_SIGNATURE);
       do r <- _upipe_avfsrc_get_time time_p; ret (r, NoResult)
   | UPIPE_AVFSRC_SET_TIME signature time =>
       exec c_assert ndebug (signature =? UPIPE_AVFSRC_SIGNATURE);
       do r <- _upipe_avfsrc_set_time time; ret (r, NoResult)
   | _ => ret (false, NoResult)
   end)%cmd.

(** [upipe_avfsrc_control]: the command, then the check of the status of
    the pipe. *)
Definition upipe_avfsrc_control (command : upipe_command)
    : M world (bool * control_result) :=
  (do r <- _upipe_avfsrc_control command;
   if negb (fst r) then ret (false, snd r)
   else
     do w <- get;
     let s := pipe w in
     if bool_decide (is_Some (upump_mgr s)) && bool_decide (is_Some (url s))
        && negb (bool_decide (is_Some (upump s)))
     then
       if probed s then
         do ok <- upipe_avfsrc_start; ret (ok, snd r)
       else if bool_decide (is_Some (upump_av_deal s)) then ret (true, snd r)
       else
         do d <- upipe_av_deal_upump_alloc;
         match d with
         | None => exec upipe_throw None UPROBE_UPUMP_ERROR; ret (false, snd r)
         | Some dealer =>
             exec modify (set_pipe (with_upump_av_deal (Some dealer)));
             exec emit (DealerStarted dealer);
             ret (true, snd r)
         end
     else ret (true, snd r))%cmd.

End Source.

(** *** Reading and seeking by time *)

(** C7.  [UPIPE_AVFSRC_GET_TIME] and [UPIPE_AVFSRC_SET_TIME], called as the
    interface of the pipe calls them (with the signature of the manager
    and, for the former, a place for the result), return false for every
    time and leave the pipe and its surroundings as they were. *)
Theorem time_commands_fail :
  forall (ndebug : bool) (signature : Z) (e : env) (w : world) (time : Z),
    upipe_avfsrc_control ndebug signature e
      (UPIPE_AVFSRC_GET_TIME signature true) w = Done (false, NoResult) w /\
    upipe_avfsrc_control ndebug signature e
      (UPIPE_AVFSRC_SET_TIME signature time) w = Done (false, NoResult) w.
Proof.
  intros ndebug signature e w time.
  unfold upipe_avfsrc_control, _upipe_avfsrc_control, _upipe_avfsrc_get_time,
    _upipe_avfsrc_set_time, bind, ret.
  rewrite Z.eqb_refl, !BlockCommon.c_assert_true. split; reflexivity.
Qed.

(** The internal functions themselves: [_upipe_avfsrc_set_time] never
    touches anything; [_upipe_avfsrc_get_time] asserts its pointer. *)
Lemma _upipe_avfsrc_set_time_fails (w : world) (time : Z) :
  _upipe_avfsrc_set_time time w = Done false w.
Proof. reflexivity. Qed.

Lemma _upipe_avfsrc_get_time_fails ndebug (w : world) :
  _upipe_avfsrc_get_time ndebug true w = Done false w /\
  _upipe_avfsrc_get_time true false w = Done false w /\
  _upipe_avfsrc_get_time false false w = Abort.
Proof.
  unfold _upipe_avfsrc_get_time, bind.
  rewrite BlockCommon.c_assert_true. repeat split.
Qed.

(** *** Packets of unknown streams *)

Lemma find_none_iff {A} (f : A -> bool) (l : list A) :
  List.find f l = None <-> forall x, x ∈ l -> f x = false.
Proof.
  induction l as [|a l IH]; cbn.
  - split; [intros _ x Hx; inversion Hx | reflexivity].
  - destruct (f a) eqn:Ea.
    + split; [discriminate|]. intros H.
      rewrite (H a) in Ea by (apply elem_of_cons; now left). discriminate.
    + rewrite IH. split.
      * intros H x Hx. apply elem_of_cons in Hx as [->|Hx]; auto.
      * intros H x Hx. apply H. apply elem_of_cons. now right.
Qed.

(** C10.  When [av_read_frame] gives a packet whose [stream_index] is the
    id of no output sub-pipe, the worker returns with nothing changed: no
    event, no record to any output, no uref taken from the manager. *)
Theorem worker_discards_unknown_stream :
  forall (e : env) (w : world) (error : Z) (pkt : AVPacket),
    0 <= error ->
    (forall o, o ∈ outputs (pipe w) -> id o <> to_uint64 (stream_index pkt)) ->
    upipe_avfsrc_worker e error pkt w = Done tt w.
Proof.
  intros e w error pkt Herr Hid.
  unfold upipe_avfsrc_worker, bind, get. cbn beta.
  replace (error <? 0) with false by (symmetry; apply Z.ltb_ge; lia).
  assert (E : upipe_avfsrc_find_output (pipe w) (to_uint64 (stream_index pkt))
              = None).
  { apply find_none_iff. intros o Ho. apply Z.eqb_neq. now apply Hid. }
  now rewrite E.
Qed.

(** *** Stream ids stay distinct *)

(** The addresses and ids of the outputs, in list order. *)
Definition output_keys (w : world) : list (nat * Z) :=
  (fun o => (self o, id o)) <$> outputs (pipe w).

(** The ids in use: those that are set. *)
Definition ids_in_use (w : world) : list Z :=
  List.filter (fun i => negb (i =? UINT64_MAX)) (snd <$> output_keys w).

(** The invariant: the outputs are distinct structures, allocated below the
    next address of [malloc], and their ids, ignoring the unset value, are
    pairwise distinct. *)
Definition ids_unique (w : world) : Prop :=
  NoDup (fst <$> output_keys w) /\
  Forall (fun k => (fst k < heap_next w)%nat) (output_keys w) /\
  NoDup (ids_in_use w).

(** A step that leaves the outputs' addresses and ids alone and never moves
    the allocator backwards. *)
Definition keeps_keys (w w' : world) : Prop :=
  output_keys w' = output_keys w /\ (heap_next w <= heap_next w')%nat.

Definition frames {A} (m : M world A) : Prop :=
  forall w a w', m w = Done a w' -> keeps_keys w w'.

Lemma keeps_keys_refl w : keeps_keys w w.
Proof. split; [reflexivity | lia]. Qed.

Lemma keeps_keys_trans w1 w2 w3 :
  keeps_keys w1 w2 -> keeps_keys w2 w3 -> keeps_keys w1 w3.
Proof. intros [E1 L1] [E2 L2]. split; [congruence | lia]. Qed.

Lemma keeps_keys_ids_unique w w' :
  keeps_keys w w' -> ids_unique w -> ids_unique w'.
Proof.
  intros [E L] (H1 & H2 & H3). unfold ids_unique, ids_in_use. rewrite E.
  split_and!; try assumption.
  eapply Forall_impl; [exact H2|]. cbn. intros k Hk. lia.
Qed.

Lemma frames_ret {A} (a : A) : frames (ret a).
Proof. intros w a' w' [= <- <-]. apply keeps_keys_refl. Qed.

Lemma frames_bind {A B} (m : M world A) (k : A -> M world B) :
  frames m -> (forall a, frames (k a)) -> frames (bind m k).
Proof.
  intros Hm Hk w b w'. unfold bind.
  destruct (m w) as [a w1|] eqn:E; [|discriminate].
  intros Hb. eapply keeps_keys_trans; [eapply Hm | eapply Hk]; eassumption.
Qed.

Lemma frames_get : frames (@get world).
Proof. intros w a w' [= <- <-]. apply keeps_keys_refl. Qed.

Lemma frames_abort {A} : frames (@abort world A).
Proof. intros w a w'. discriminate. Qed.

Lemma frames_c_assert ndebug c : frames (@c_assert world ndebug c).
Proof.
  unfold c_assert. destruct ndebug; [apply frames_ret|].
  destruct c; [apply frames_ret | apply frames_abort].
Qed.

Lemma frames_modify (f : world -> world) :
  (forall w, keeps_keys w (f w)) -> frames (modify f).
Proof. intros Hf w a w' [= <- <-]. apply Hf. Qed.

Ltac kept := split; [reflexivity | cbn; lia].

Lemma frames_emit ev : frames (emit ev).
Proof. apply frames_modify. intros w. kept. Qed.

Lemma frames_malloc : frames malloc.
Proof.
  intros w a w'. unfold malloc.
  destruct (heap_budget w); intros [= <- <-]; kept.
Qed.

Lemma frames_free_mem : frames free_mem.
Proof. apply frames_modify. intros w. kept. Qed.

Lemma frames_uref_free : frames uref_free.
Proof. apply frames_modify. intros w. kept. Qed.

Lemma frames_uref_dup u : frames (uref_dup u).
Proof.
  intros w a w'. unfold uref_dup.
  destruct (urefs_left w); intros [= <- <-]; kept.
Qed.

Lemma frames_uref_alloc_control : frames uref_alloc_control.
Proof.
  intros w a w'. unfold uref_alloc_control.
  destruct (uref_mgr (pipe w)); [|discriminate].
  destruct (urefs_left w); intros [= <- <-]; kept.
Qed.

Lemma frames_get_output p : frames (get_output p).
Proof.
  intros w a w'. unfold get_output.
  destruct (List.find _ _); [|discriminate].
  intros [= <- <-]. apply keeps_keys_refl.
Qed.

(** Updating fields other than the address and the id. *)
Lemma frames_update_output p f :
  (forall o, self (f o) = self o /\ id (f o) = id o) ->
  frames (update_output p f).
Proof.
  intros Hf. apply frames_modify. intros w. split; [|cbn; lia].
  unfold output_keys. cbn. rewrite <- list_fmap_compose.
  apply list_fmap_ext. intros i o _. cbn.
  destruct (Nat.eqb (self o) p); [|reflexivity].
  destruct (Hf o) as [-> ->]. reflexivity.
Qed.

(** A change of the pipe that keeps its list of outputs. *)
Lemma frames_set_pipe f :
  (forall s, outputs (f s) = outputs s) -> frames (modify (set_pipe f)).
Proof.
  intros Hf. apply frames_modify. intros w. split; [|cbn; lia].
  unfold output_keys. cbn. now rewrite Hf.
Qed.

(** Going through a function built from these steps. *)
Ltac frame_step :=
  first
    [ apply frames_ret | apply frames_get | apply frames_abort
    | apply frames_c_assert | apply frames_emit | apply frames_malloc
    | apply frames_free_mem | apply frames_uref_free | apply frames_uref_dup
    | apply frames_uref_alloc_control | apply frames_get_output
    | apply frames_update_output; intros []; split; reflexivity
    | apply frames_set_pipe; intros []; reflexivity
    | apply frames_bind; [|intros ?]
    | match goal with
      | |- frames (match ?x with _ => _ end) => destruct x
      | |- frames (let (_, _) := ?x in _) => destruct x
      end ].

Ltac frame := repeat frame_step.

Lemma frames_store_flow_def p fd :
  frames (upipe_avfsrc_output_store_flow_def p fd).
Proof. unfold upipe_avfsrc_output_store_flow_def. frame. Qed.

Lemma frames_output_output p u : frames (upipe_avfsrc_output_output p u).
Proof. unfold upipe_avfsrc_output_output, upipe_throw. frame. Qed.

Lemma frames_set_upump v : frames (upipe_avfsrc_set_upump v).
Proof. unfold upipe_avfsrc_set_upump. frame. Qed.

Lemma frames_abort_av_deal : frames upipe_avfsrc_abort_av_deal.
Proof. unfold upipe_avfsrc_abort_av_deal. frame. Qed.

Lemma frames_release : frames upipe_avfsrc_release.
Proof.
  unfold upipe_avfsrc_release, upipe_throw. frame;
    first [apply frames_abort_av_deal | apply frames_set_upump].
Qed.

Lemma frames_start : frames upipe_avfsrc_start.
Proof.
  unfold upipe_avfsrc_start, upipe_throw. frame; apply frames_set_upump.
Qed.

Lemma frames_worker e error pkt : frames (upipe_avfsrc_worker e error pkt).
Proof.
  unfold upipe_avfsrc_worker, upipe_throw, uref_block_alloc. frame;
    first [apply frames_set_upump | apply frames_output_output].
Qed.

Lemma frames_alloc_def e c : frames (alloc_def e c).
Proof.
  unfold alloc_def, alloc_raw_audio_def, alloc_audio_def, alloc_video_def,
    alloc_raw_video_def, alloc_subtitles_def, alloc_data_def,
    uref_sound_flow_alloc_def, uref_block_flow_alloc_def_va, octetrate,
    int_value.
  frame.
Qed.

Lemma frames_probe_streams e ss : forall i, frames (probe_streams e ss i).
Proof.
  induction ss as [|s ss IH]; intros i; cbn [probe_streams]; [apply frames_ret|].
  apply frames_bind; [apply frames_alloc_def|]. intros [fd|]; [|apply IH].
  unfold upipe_throw. frame; apply IH.
Qed.

Lemma frames_probe e : frames (upipe_avfsrc_probe e).
Proof.
  unfold upipe_avfsrc_probe, upipe_throw. frame;
    first [apply frames_probe_streams | apply frames_start].
Qed.

Lemma frames_control ndebug signature e command :
  frames (upipe_avfsrc_control ndebug signature e command).
Proof.
  unfold upipe_avfsrc_control. apply frames_bind.
  - unfold _upipe_avfsrc_control, _upipe_avfsrc_set_upump_mgr,
      _upipe_avfsrc_get_option, _upipe_avfsrc_set_option,
      _upipe_avfsrc_get_url, _upipe_avfsrc_set_url, _upipe_avfsrc_get_time,
      _upipe_avfsrc_set_time, upipe_throw.
    frame; first [apply frames_set_upump | apply frames_abort_av_deal].
  - intros r. unfold upipe_throw. frame; apply frames_start.
Qed.

Lemma frames_use : frames upipe_avfsrc_use.
Proof. unfold upipe_avfsrc_use. frame. Qed.

Lemma frames_output_use p : frames (upipe_avfsrc_output_use p).
Proof. unfold upipe_avfsrc_output_use. frame. Qed.

(** The invariant and the updates of an id, on the list of keys. *)
Definition ids_of (ks : list (nat * Z)) : list Z :=
  List.filter (fun i => negb (i =? UINT64_MAX)) (snd <$> ks).

Definition keys_ok (n : nat) (ks : list (nat * Z)) : Prop :=
  NoDup (fst <$> ks) /\ Forall (fun k => (fst k < n)%nat) ks /\
  NoDup (ids_of ks).

Definition set_key_id (p : nat) (v : Z) (ks : list (nat * Z))
    : list (nat * Z) :=
  (fun k => if Nat.eqb (fst k) p then (fst k, v) else k) <$> ks.

Lemma ids_unique_keys_ok w :
  ids_unique w <-> keys_ok (heap_next w) (output_keys w).
Proof. reflexivity. Qed.

Lemma set_key_id_fst p v ks : fst <$> set_key_id p v ks = fst <$> ks.
Proof.
  unfold set_key_id. rewrite <- list_fmap_compose.
  apply list_fmap_ext. intros i k _. cbn.
  now destruct (Nat.eqb (fst k) p).
Qed.

Lemma set_key_id_absent p v ks :
  p ∉ (fst <$> ks) -> set_key_id p v ks = ks.
Proof.
  induction ks as [|k ks IH]; [reflexivity|]. cbn. intros Hp.
  rewrite not_elem_of_cons in Hp. destruct Hp as [Hk Hp].
  destruct (Nat.eqb_spec (fst k) p) as [E|E]; [congruence|].
  now rewrite <- IH at 2.
Qed.

Lemma ids_of_cons k ks :
  ids_of (k :: ks) =
  if snd k =? UINT64_MAX then ids_of ks else snd k :: ids_of ks.
Proof. unfold ids_of. cbn. now destruct (snd k =? UINT64_MAX). Qed.

Lemma elem_of_ids_of i ks :
  i ∈ ids_of ks <-> i <> UINT64_MAX /\ exists k, k ∈ ks /\ snd k = i.
Proof.
  unfold ids_of. rewrite list_elem_of_In, filter_In, <- list_elem_of_In.
  rewrite list_elem_of_fmap, negb_true_iff, Z.eqb_neq.
  split.
  - intros [(k & -> & Hk) Hne]. eauto.
  - intros [Hne (k & Hk & <-)]. eauto.
Qed.

Lemma elem_of_set_key_id k p v ks :
  k ∈ set_key_id p v ks ->
  k ∈ ks /\ fst k <> p \/ k = (p, v).
Proof.
  unfold set_key_id. rewrite list_elem_of_fmap. intros (k0 & -> & Hk0).
  destruct (Nat.eqb_spec (fst k0) p) as [E|E]; [right; now rewrite E|].
  now left.
Qed.

Lemma keys_ok_set_id n ks p v :
  keys_ok n ks ->
  v = UINT64_MAX \/ (forall k, k ∈ ks -> fst k <> p -> snd k <> v) ->
  keys_ok n (set_key_id p v ks).
Proof.
  intros (Hnd & Hlt & Hids) Hv. split_and!.
  - now rewrite set_key_id_fst.
  - unfold set_key_id. rewrite Forall_fmap.
    eapply Forall_impl; [exact Hlt|]. cbn. intros k Hk.
    now destruct (Nat.eqb (fst k) p).
  - clear Hlt. induction ks as [|k ks IH]; [constructor|].
    cbn in Hnd. apply NoDup_cons in Hnd as [Hk Hnd].
    rewrite ids_of_cons in Hids.
    assert (Hids' : NoDup (ids_of ks)).
    { destruct (snd k =? UINT64_MAX); [assumption|].
      now apply NoDup_cons in Hids as [_ ?]. }
    assert (Hv' : v = UINT64_MAX \/
                  (forall k0, k0 ∈ ks -> fst k0 <> p -> snd k0 <> v)).
    { destruct Hv as [?|Hv]; [now left | right].
      intros k0 Hk0. apply Hv. apply elem_of_cons. now right. }
    specialize (IH Hnd Hids' Hv').
    cbn [set_key_id fmap list_fmap]. fold (set_key_id p v ks).
    rewrite ids_of_cons.
    destruct (Nat.eqb_spec (fst k) p) as [E|E]; cbn [snd].
    + rewrite set_key_id_absent by (now rewrite <- E).
      destruct (Z.eqb_spec v UINT64_MAX) as [Ev|Ev]; [assumption|].
      apply NoDup_cons. split; [|assumption].
      rewrite elem_of_ids_of. intros (_ & k0 & Hk0 & Hs).
      destruct Hv as [?|Hv]; [contradiction|].
      apply (Hv k0); [apply elem_of_cons; now right | | assumption].
      intros Hf. apply Hk. rewrite E, <- Hf.
      apply list_elem_of_fmap. eauto.
    + destruct (Z.eqb_spec (snd k) UINT64_MAX) as [Ek|Ek]; [assumption|].
      apply NoDup_cons. split; [|assumption].
      rewrite elem_of_ids_of. intros (_ & k0 & Hk0 & Hs).
      apply elem_of_set_key_id in Hk0 as [[Hk0 _]| ->].
      * apply NoDup_cons in Hids as [Hin _]. apply Hin.
        rewrite elem_of_ids_of. eauto.
      * cbn in Hs. destruct Hv as [?|Hv]; [congruence|].
        apply (Hv k); [apply elem_of_cons; now left | assumption | congruence].
Qed.

Lemma keys_ok_mono n n' ks : (n <= n')%nat -> keys_ok n ks -> keys_ok n' ks.
Proof.
  intros Hn (H1 & H2 & H3). split_and!; try assumption.
  eapply Forall_impl; [exact H2|]. cbn. intros k Hk. lia.
Qed.

Lemma keys_ok_snoc n ks :
  keys_ok n ks -> keys_ok (S n) (ks ++ [(n, UINT64_MAX)]).
Proof.
  intros (H1 & H2 & H3). split_and!.
  - rewrite fmap_app. apply NoDup_app. split_and!; [assumption | | ].
    + intros x Hx Hn. cbn in Hn. apply list_elem_of_singleton in Hn as ->.
      apply list_elem_of_fmap in Hx as (k & -> & Hk).
      rewrite Forall_forall in H2. apply H2 in Hk. lia.
    + cbn. apply NoDup_singleton.
  - apply Forall_app. split.
    + eapply Forall_impl; [exact H2|]. cbn. intros k Hk. lia.
    + repeat constructor; cbn; lia.
  - unfold ids_of. rewrite fmap_app, List.filter_app. cbn.
    now rewrite app_nil_r.
Qed.

Lemma keys_ok_tail n k ks : keys_ok n (k :: ks) -> keys_ok n ks.
Proof.
  intros (H1 & H2 & H3). cbn in H1. rewrite ids_of_cons in H3.
  apply NoDup_cons in H1 as [_ H1]. apply Forall_cons in H2 as [_ H2].
  split_and!; try assumption.
  destruct (snd k =? UINT64_MAX); [assumption|].
  now apply NoDup_cons in H3 as [_ ?].
Qed.

Definition keys_of (l : list upipe_avfsrc_output) : list (nat * Z) :=
  (fun o => (self o, id o)) <$> l.

Lemma elem_of_delete_first p l o :
  o ∈ ulist_delete_first p l -> o ∈ l.
Proof.
  induction l as [|a l IH]; cbn; [easy|].
  destruct (Nat.eqb (self a) p); rewrite !elem_of_cons; [tauto|].
  intros [->|H]; auto.
Qed.

Lemma keys_ok_delete_first n p l :
  keys_ok n (keys_of l) -> keys_ok n (keys_of (ulist_delete_first p l)).
Proof.
  induction l as [|a l IH]; [easy|]. intros Hok.
  pose proof (keys_ok_tail _ _ _ Hok) as Hok'.
  cbn [ulist_delete_first]. destruct (Nat.eqb (self a) p); [exact Hok'|].
  specialize (IH Hok'). destruct IH as (I1 & I2 & I3).
  destruct Hok as (H1 & H2 & H3).
  cbn in H1, H2. apply NoDup_cons in H1 as [Ha H1].
  apply Forall_cons in H2 as [Hlt H2].
  split_and!.
  - cbn. apply NoDup_cons. split; [|assumption].
    intros Hin. apply Ha.
    apply list_elem_of_fmap in Hin as (k & Hk & Hin).
    apply list_elem_of_fmap in Hin as (o & -> & Ho).
    apply elem_of_delete_first in Ho.
    apply list_elem_of_fmap. exists (self o, id o). split; [assumption|].
    apply list_elem_of_fmap. eauto.
  - cbn. apply Forall_cons. split; assumption.
  - change (keys_of (a :: ulist_delete_first p l))
      with ((self a, id a) :: keys_of (ulist_delete_first p l)).
    change (keys_of (a :: l)) with ((self a, id a) :: keys_of l) in H3.
    rewrite ids_of_cons in *. cbn [snd] in *.
    destruct (id a =? UINT64_MAX); [assumption|].
    apply NoDup_cons in H3 as [Hin H3]. apply NoDup_cons. split; [|assumption].
    intros Hin'. apply Hin. rewrite elem_of_ids_of in *.
    destruct Hin' as (Hne & k & Hk & Hs). split; [assumption|].
    exists k. split; [|assumption].
    apply list_elem_of_fmap in Hk as (o & -> & Ho).
    apply elem_of_delete_first in Ho. apply list_elem_of_fmap. eauto.
Qed.

Lemma update_id_keys p v w :
  output_keys (set_pipe (fun s =>
     with_outputs
       (List.map (fun o => if Nat.eqb (self o) p then with_id v o else o)
          (outputs s)) s) w)
  = set_key_id p v (output_keys w).
Proof.
  unfold output_keys, set_key_id. cbn.
  change (List.map ?f ?l) with (f <$> l).
  rewrite <- !list_fmap_compose. apply list_fmap_ext. intros i o _. cbn.
  now destruct (Nat.eqb (self o) p).
Qed.

(** [upipe_avfsrc_output_alloc] keeps the invariant: the new output is a
    fresh structure with no id. *)
Lemma output_alloc_ids_unique w r w' :
  ids_unique w -> upipe_avfsrc_output_alloc w = Done r w' -> ids_unique w'.
Proof.
  intros Hinv. unfold upipe_avfsrc_output_alloc, bind, malloc.
  destruct (heap_budget w) as [|b]; [now intros [= <- <-]|].
  unfold upipe_avfsrc_use, upipe_throw, emit, modify, ret.
  intros [= <- <-]. apply ids_unique_keys_ok. cbn [heap_next].
  unfold output_keys. cbn. rewrite fmap_app. cbn.
  now apply keys_ok_snoc.
Qed.

(** [upipe_avfsrc_output_release] keeps the invariant: it may only remove
    an output. *)
Lemma output_release_ids_unique w r w' p :
  ids_unique w -> upipe_avfsrc_output_release p w = Done r w' -> ids_unique w'.
Proof.
  intros Hinv. unfold upipe_avfsrc_output_release.
  unfold bind at 1. destruct (get_output p w) as [o w0|] eqn:E0; [|discriminate].
  apply frames_get_output in E0. cbn beta iota.
  destruct (urefcount_release (output_refcount o)) as [rc last].
  unfold bind at 1.
  destruct (update_output p (with_output_refcount rc) w0) as [[] w1|] eqn:E1;
    [|discriminate].
  apply frames_update_output in E1; [|intros []; split; reflexivity].
  assert (H1 : ids_unique w1).
  { eapply keeps_keys_ids_unique; [|exact Hinv].
    eapply keeps_keys_trans; eassumption. }
  destruct last; [|now intros [= <- <-]].
  unfold bind at 1.
  destruct (upipe_throw (Some p) UPROBE_DEAD w1) as [[] w2|] eqn:E2;
    [|discriminate].
  apply frames_emit in E2.
  unfold bind at 1.
  destruct ((if bool_decide (is_Some (flow_def o)) then uref_free else ret tt)
              w2) as [[] w3|] eqn:E3; [|discriminate].
  assert (K3 : keeps_keys w2 w3).
  { revert E3. destruct (bool_decide _);
      [apply frames_uref_free | apply frames_ret]. }
  assert (H3 : ids_unique w3).
  { eapply keeps_keys_ids_unique; [|exact H1].
    eapply keeps_keys_trans; eassumption. }
  unfold bind at 1, modify at 1.
  set (w4 := set_pipe _ w3).
  assert (H4 : ids_unique w4).
  { apply ids_unique_keys_ok. apply (keys_ok_delete_first _ p). exact H3. }
  unfold bind at 1.
  destruct (upipe_avfsrc_release w4) as [[] w5|] eqn:E5; [|discriminate].
  apply frames_release in E5.
  intros E6. apply frames_free_mem in E6.
  eapply keeps_keys_ids_unique; [|exact H4].
  eapply keeps_keys_trans; eassumption.
Qed.

Lemma id_in_use_spec p id0 l :
  existsb (fun o' => negb (Nat.eqb (self o') p) && (id o' =? id0)) l = true
  <-> exists k, k ∈ keys_of l /\ fst k <> p /\ snd k = id0.
Proof.
  rewrite existsb_exists. split.
  - intros (o & Ho & Hc). apply andb_true_iff in Hc as [H1 H2].
    apply negb_true_iff, Nat.eqb_neq in H1. apply Z.eqb_eq in H2.
    exists (self o, id o). split; [|auto].
    apply list_elem_of_fmap. exists o. split; [reflexivity|].
    now apply list_elem_of_In.
  - intros (k & Hk & H1 & H2).
    apply list_elem_of_fmap in Hk as (o & -> & Ho). cbn in *.
    exists o. split; [now apply list_elem_of_In|].
    apply andb_true_iff. split.
    + now apply negb_true_iff, Nat.eqb_neq.
    + now apply Z.eqb_eq.
Qed.

Lemma elem_of_set_key_id_other k p v ks :
  k ∈ ks -> fst k <> p -> k ∈ set_key_id p v ks.
Proof.
  intros Hk Hp. unfold set_key_id. apply list_elem_of_fmap.
  exists k. split; [|assumption].
  destruct (Nat.eqb_spec (fst k) p); [contradiction | reflexivity].
Qed.

(** The first part of [upipe_avfsrc_output_set_flow_def]: a sub-pipe that
    had a flow definition loses it and its id. *)
Lemma reset_flow_def_keys p (c : bool) w a w1 :
  (if c then
     exec upipe_avfsrc_output_store_flow_def p None;
     update_output p (with_id UINT64_MAX)
   else ret tt)%cmd w = Done a w1 ->
  (heap_next w <= heap_next w1)%nat /\
  (output_keys w1 = output_keys w \/
   output_keys w1 = set_key_id p UINT64_MAX (output_keys w)).
Proof.
  destruct c.
  - unfold bind.
    destruct (upipe_avfsrc_output_store_flow_def p None w) as [[] w2|] eqn:E2;
      [|discriminate].
    apply frames_store_flow_def in E2 as [K2 L2].
    unfold update_output, modify. intros [= _ <-].
    split; [cbn; lia|]. right. rewrite update_id_keys. congruence.
  - intros [= _ <-]. split; [lia|]. now left.
Qed.

(** What [upipe_avfsrc_output_set_flow_def] does to the addresses and ids:
    it keeps the invariant, and refuses an id that another output holds,
    leaving the sub-pipe with its previous id or with none. *)
Lemma set_flow_def_keys p fd w r w' :
  ids_unique w ->
  upipe_avfsrc_output_set_flow_def p fd w = Done r w' ->
  ids_unique w' /\
  (forall id0 k,
     uref_av_flow_get_id fd = Some id0 ->
     k ∈ output_keys w -> fst k <> p -> snd k = id0 ->
     r = false /\
     (output_keys w' = output_keys w \/
      output_keys w' = set_key_id p UINT64_MAX (output_keys w))).
Proof.
  intros Hinv. unfold upipe_avfsrc_output_set_flow_def.
  unfold bind at 1.
  destruct (get_output p w) as [o w0|] eqn:E0; [|discriminate].
  apply frames_get_output in E0 as [K0 L0].
  unfold bind at 1.
  match goal with
  | |- match ?m w0 with _ => _ end = _ -> _ =>
      destruct (m w0) as [[] w1|] eqn:E1; [|discriminate]
  end.
  apply reset_flow_def_keys in E1 as [L1 K1]. rewrite K0 in K1.
  assert (H1 : ids_unique w1).
  { apply ids_unique_keys_ok. apply (keys_ok_mono (heap_next w)); [lia|].
    destruct K1 as [-> | ->]; [exact Hinv|].
    apply keys_ok_set_id; [exact Hinv | now left]. }
  destruct (uref_av_flow_get_id fd) as [id0|].
  2:{ intros [= <- <-]. split; [exact H1|]. discriminate. }
  unfold bind at 1, get at 1.
  destruct (existsb _ _) eqn:Ex.
  { intros [= <- <-]. split; [exact H1|]. auto. }
  assert (Hfree : forall k, k ∈ output_keys w1 -> fst k <> p -> snd k <> id0).
  { intros k Hk Hp Hs.
    assert (Hc : existsb (fun o' => negb (Nat.eqb (self o') p)
                                      && (id o' =? id0)) (outputs (pipe w1))
                 = true) by (apply id_in_use_spec; eauto).
    congruence. }
  unfold bind at 1.
  destruct (uref_dup fd w1) as [[u|] w2|] eqn:E2; [| |discriminate].
  - apply frames_uref_dup in E2 as [K2 L2].
    unfold bind at 1, update_output at 1, modify at 1.
    unfold bind at 1.
    destruct (upipe_avfsrc_output_store_flow_def p (Some u) _)
      as [[] w4|] eqn:E4; [|discriminate].
    apply frames_store_flow_def in E4 as [K4 L4].
    intros [= <- <-]. split.
    + apply ids_unique_keys_ok. rewrite K4, update_id_keys, K2.
      apply (keys_ok_mono (heap_next w1)); [cbn in L4; lia|].
      apply keys_ok_set_id; [exact H1 | now right].
    + intros id1 k [= <-] Hk Hp Hs. exfalso.
      apply (Hfree k); try assumption.
      destruct K1 as [-> | ->]; [assumption|].
      now apply elem_of_set_key_id_other.
  - apply frames_uref_dup in E2. unfold bind.
    destruct (upipe_throw _ _ w2) as [[] w3|] eqn:E3; [|discriminate].
    apply frames_emit in E3. intros [= <- <-].
    assert (K : keeps_keys w1 w3) by (eapply keeps_keys_trans; eassumption).
    split; [eapply keeps_keys_ids_unique; eassumption|].
    intros id1 k [= <-] Hk Hp Hs. exfalso.
    apply (Hfree k); try assumption.
    destruct K1 as [-> | ->]; [assumption|].
    now apply elem_of_set_key_id_other.
Qed.

(** Everything that can be done to the pipe and its sub-pipes. *)
Inductive operation : Type :=
| OpOutputAlloc
| OpOutputControl (p : nat) (command : upipe_command)
| OpOutputUse (p : nat)
| OpOutputRelease (p : nat)
| OpControl (command : upipe_command)
| OpWorker (error : Z) (pkt : AVPacket)
| OpProbe
| OpUse
| OpRelease.

Definition run (ndebug : bool) (signature : Z) (e : env) (op : operation)
    : M world unit :=
  (match op with
   | OpOutputAlloc => exec upipe_avfsrc_output_alloc; ret tt
   | OpOutputControl p command =>
       exec upipe_avfsrc_output_control p command; ret tt
   | OpOutputUse p => upipe_avfsrc_output_use p
   | OpOutputRelease p => upipe_avfsrc_output_release p
   | OpControl command =>
       exec upipe_avfsrc_control ndebug signature e command; ret tt
   | OpWorker error pkt => upipe_avfsrc_worker e error pkt
   | OpProbe => upipe_avfsrc_probe e
   | OpUse => upipe_avfsrc_use
   | OpRelease => upipe_avfsrc_release
   end)%cmd.

(** A run of operations, each with the answers of the surroundings. *)
Fixpoint run_all (ndebug : bool) (signature : Z)
    (ops : list (env * operation)) : M world unit :=
  match ops with
  | [] => ret tt
  | (e, op) :: ops' =>
      (exec run ndebug signature e op; run_all ndebug signature ops')%cmd
  end.

Lemma output_control_ids_unique p command w r w' :
  ids_unique w ->
  upipe_avfsrc_output_control p command w = Done r w' -> ids_unique w'.
Proof.
  intros Hinv.
  assert (Hf : forall m : M world (bool * control_result),
             frames m -> m w = Done r w' -> ids_unique w').
  { intros m Hm E. eapply keeps_keys_ids_unique; [eapply Hm|]; eassumption. }
  destruct command; cbn [upipe_avfsrc_output_control];
    try solve [apply Hf;
               unfold upipe_avfsrc_output_set_ubuf_mgr,
                 upipe_avfsrc_output_set_output; frame].
  unfold bind.
  destruct (upipe_avfsrc_output_set_flow_def p flow_def0 w) as [b w1|] eqn:E;
    [|discriminate].
  intros [= _ <-]. now apply (set_flow_def_keys p flow_def0 w b w1).
Qed.

Lemma run_ids_unique ndebug signature e op w w' :
  ids_unique w -> run ndebug signature e op w = Done tt w' -> ids_unique w'.
Proof.
  intros Hinv.
  assert (Hf : forall m : M world unit,
             frames m -> m w = Done tt w' -> ids_unique w').
  { intros m Hm E. eapply keeps_keys_ids_unique; [eapply Hm|]; eassumption. }
  destruct op; cbn [run].
  - unfold bind.
    destruct (upipe_avfsrc_output_alloc w) as [r w1|] eqn:E; [|discriminate].
    intros [= <-]. eapply output_alloc_ids_unique; eassumption.
  - unfold bind.
    destruct (upipe_avfsrc_output_control p command w) as [r w1|] eqn:E;
      [|discriminate].
    intros [= <-]. eapply output_control_ids_unique; eassumption.
  - apply Hf, frames_output_use.
  - now apply output_release_ids_unique.
  - apply Hf. apply frames_bind; [apply frames_control | intros; apply frames_ret].
  - apply Hf, frames_worker.
  - apply Hf, frames_probe.
  - apply Hf, frames_use.
  - apply Hf, frames_release.
Qed.

(** The invariant holds when the pipe is created and along every run. *)
Lemma ids_unique_alloc budget urefs room :
  ids_unique (upipe_avfsrc_alloc budget urefs room).
Proof. split_and!; constructor. Qed.

Lemma run_all_ids_unique ndebug signature ops : forall w w',
  ids_unique w -> run_all ndebug signature ops w = Done tt w' -> ids_unique w'.
Proof.
  induction ops as [|[e op] ops IH]; intros w w' Hinv; cbn [run_all].
  - now intros [= <-].
  - unfold bind.
    destruct (run ndebug signature e op w) as [[] w1|] eqn:E; [|discriminate].
    apply IH. eapply run_ids_unique; eassumption.
Qed.

(** [SET_FLOW_DEF] returns on every sub-pipe of the list. *)
Lemma get_output_total p w :
  p ∈ (fst <$> output_keys w) -> exists o, get_output p w = Done o w.
Proof.
  unfold get_output, output_keys. rewrite <- list_fmap_compose. cbn.
  intros Hp. apply list_elem_of_fmap in Hp as (o & -> & Ho).
  destruct (List.find _ _) as [o'|] eqn:E; [eauto|].
  exfalso. rewrite find_none_iff in E. specialize (E o Ho). cbn in E.
  now rewrite Nat.eqb_refl in E.
Qed.

Lemma store_flow_def_total p fd w :
  p ∈ (fst <$> output_keys w) ->
  exists w', upipe_avfsrc_output_store_flow_def p fd w = Done tt w'.
Proof.
  intros Hp. unfold upipe_avfsrc_output_store_flow_def, bind.
  destruct (get_output_total p w Hp) as (o & ->).
  destruct (bool_decide _); cbn; eauto.
Qed.

Lemma set_flow_def_total p fd w :
  p ∈ (fst <$> output_keys w) ->
  exists r w', upipe_avfsrc_output_set_flow_def p fd w = Done r w'.
Proof.
  intros Hp. unfold upipe_avfsrc_output_set_flow_def. unfold bind at 1.
  destruct (get_output_total p w Hp) as (o & ->).
  unfold bind at 1.
  assert (H1 : exists w1,
             (if bool_decide (is_Some (flow_def o)) then
                exec upipe_avfsrc_output_store_flow_def p None;
                update_output p (with_id UINT64_MAX)
              else ret tt)%cmd w = Done tt w1 /\
             p ∈ (fst <$> output_keys w1)).
  { destruct (bool_decide _).
    - unfold bind. destruct (store_flow_def_total p None w Hp) as (w1 & E).
      rewrite E. eexists. split; [reflexivity|].
      apply frames_store_flow_def in E as [K _].
      cbn [snd]. rewrite (update_id_keys p UINT64_MAX w1).
      rewrite set_key_id_fst, K. exact Hp.
    - eexists. split; [reflexivity | exact Hp]. }
  destruct H1 as (w1 & -> & Hp1).
  destruct (uref_av_flow_get_id fd) as [id0|]; [|cbn; eauto].
  unfold bind at 1, get at 1. destruct (existsb _ _); [cbn; eauto|].
  unfold bind at 1, uref_dup. destruct (urefs_left w1).
  - cbn. eauto.
  - unfold bind at 1, update_output at 1, modify at 1. unfold bind at 1.
    match goal with
    | |- context [upipe_avfsrc_output_store_flow_def p (Some fd) ?w2] =>
        destruct (store_flow_def_total p (Some fd) w2) as (w3 & ->)
    end.
    + rewrite update_id_keys, set_key_id_fst. exact Hp1.
    + cbn. eauto.
Qed.

(** C5.  In a state where the ids of the outputs are pairwise distinct
    (ignoring the unset value), every operation leaves them so; and
    [SET_FLOW_DEF] on a sub-pipe, with a flow definition whose "a.id" is
    held by another output, returns false and leaves the sub-pipe with no
    id or with the id it had, never with the colliding one. *)
Theorem stream_ids_unique :
  forall (ndebug : bool) (signature : Z) (w : world),
    ids_unique w ->
    (forall e op w',
       run ndebug signature e op w = Done tt w' -> ids_unique w') /\
    (forall p fd id0 o',
       uref_av_flow_get_id fd = Some id0 ->
       p ∈ (self <$> outputs (pipe w)) ->
       o' ∈ outputs (pipe w) -> self o' <> p -> id o' = id0 ->
       exists w',
         upipe_avfsrc_output_control p (UPIPE_SET_FLOW_DEF fd) w
           = Done (false, NoResult) w' /\
         ids_unique w' /\
         (output_keys w' = output_keys w \/
          output_keys w' = set_key_id p UINT64_MAX (output_keys w))).
Proof.
  intros ndebug signature w Hinv. split.
  - intros e op w'. now apply run_ids_unique.
  - intros p fd id0 o' Hid Hp Ho' Hne Hido.
    assert (Hp' : p ∈ (fst <$> output_keys w)).
    { unfold output_keys. now rewrite <- list_fmap_compose. }
    destruct (set_flow_def_total p fd w Hp') as (r & w' & E).
    destruct (set_flow_def_keys p fd w r w' Hinv E) as [Hinv' Hcol].
    destruct (Hcol id0 (self o', id o') Hid) as [-> Hk]; try assumption.
    { apply list_elem_of_fmap. eauto. }
    exists w'. cbn [upipe_avfsrc_output_control]. unfold bind. rewrite E.
    auto.
Qed.

(** *** The flows announced by a successful probe *)










(** The [SPLIT_ADD_FLOW] events among the effects, as (flow id, flow
    definition). *)
Definition add_flows (l : list effect) : list (Z * uref) :=
  omap (fun ef => match ef with
                  | Throw None (UPROBE_SPLIT_ADD_FLOW i fd) => Some (i, fd)
                  | _ => None
                  end) l.

Definition throw_add_flow (f : Z * uref) : effect :=
  Throw None (UPROBE_SPLIT_ADD_FLOW (fst f) (snd f)).

Lemma add_flows_throw fs : add_flows (throw_add_flow <$> fs) = fs.
Proof.
  induction fs as [|[i fd] fs IH]; [reflexivity|].
  cbn. unfold add_flows in IH. now rewrite IH.
Qed.


Lemma attr_matches_spec name ty e :
  attr_matches name ty e = true <-> fst e = name /\ attr_type (snd e) = ty.
Proof.
  unfold attr_matches. rewrite andb_true_iff, String.eqb_eq.
  assert (H : udict_type_eqb (attr_type (snd e)) ty = true <->
              attr_type (snd e) = ty).
  { destruct (attr_type (snd e)), ty; cbn; split; congruence. }
  tauto.
Qed.

Lemma udict_get_app d e name ty :
  udict_get (d ++ [e]) name ty =
  match udict_get d name ty with
  | Some a => Some a
  | None => if attr_matches name ty e then Some (snd e) else None
  end.
Proof.
  unfold udict_get. induction d as [|x d IH]; cbn.
  - now destruct (attr_matches name ty e).
  - destruct (attr_matches name ty x); [reflexivity | exact IH].
Qed.

Lemma udict_get_replace_same d name a :
  is_Some (udict_get d name (attr_type a)) ->
  udict_get (udict_replace d name a) name (attr_type a) = Some a.
Proof.
  unfold udict_get. induction d as [|x d IH]; cbn; [intros [? [=]]|].
  destruct (attr_matches name (attr_type a) x) eqn:E; cbn.
  - intros _. assert (Hm : attr_matches name (attr_type a) (name, a) = true)
      by (now apply attr_matches_spec).
    now rewrite Hm.
  - rewrite E. exact IH.
Qed.

Lemma udict_get_replace_other d name a name' ty :
  name' <> name ->
  udict_get (udict_replace d name a) name' ty = udict_get d name' ty.
Proof.
  intros Hne. unfold udict_get. induction d as [|x d IH]; cbn; [reflexivity|].
  destruct (attr_matches name (attr_type a) x) eqn:E; cbn.
  - apply attr_matches_spec in E as [E1 E2].
    assert (H1 : attr_matches name' ty (name, a) = false).
    { apply not_true_iff_false. rewrite attr_matches_spec. cbn. intuition. }
    assert (H2 : attr_matches name' ty x = false).
    { apply not_true_iff_false. rewrite attr_matches_spec. intuition congruence. }
    now rewrite H1, H2.
  - destruct (attr_matches name' ty x); [reflexivity | exact IH].
Qed.








Lemma int_value_some (r : option Z) (z : Z) (w : world) :
  r = Some z -> int_value r w = Done z w.
Proof. intros ->. reflexivity. Qed.




(** The world after more effects. *)
Definition after_effects (l : list effect) (w : world) : world :=
  mk_world (pipe w) (effects w ++ l) (heap_next w) (heap_budget w)
    (urefs_left w) (dict_room w).


Lemma after_effects_app l1 l2 w :
  after_effects l2 (after_effects l1 w) = after_effects (l1 ++ l2) w.
Proof. unfold after_effects. cbn. now rewrite app_assoc. Qed.



(** *** Scenario: a container with a video and a subtitle stream *)

Definition blank_codec : AVCodecContext :=
  mk_codec AVMEDIA_TYPE_UNKNOWN 0 0 0 0 0 0 0 0 0 0 0.

(** An MPEG-2 video stream of 720x576 at 25 frames per second, and a
    subtitle stream. *)
Definition mpeg2_stream : AVStream :=
  mk_stream (mk_codec AVMEDIA_TYPE_VIDEO 2 0 0 0 0 4000000 720 576 1 25 1)
    None.

Definition subtitle_stream : AVStream :=
  mk_stream (mk_codec AVMEDIA_TYPE_SUBTITLE 94208 0 0 0 0 0 0 0 0 0 0)
    (Some "fra"%string).

Definition dvd_context : AVFormatContext :=
  mk_context [mpeg2_stream; subtitle_stream].

(** A setter of the surroundings that stores its argument as an unsigned
    attribute. *)
Definition store_unsigned (name : string) (u : uref) (v : Z) : bool * uref :=
  uref_attr_set u name (AttrUnsigned (to_uint64 v)).


(** Surroundings in which everything asked for is granted. *)
Definition env0 : env :=
  mk_env (Some 100%nat) (Some 200%nat) (fun _ => Some 300%nat)
    (fun _ _ => Some dvd_context) (fun _ => 0) 0 true true 1000 true
    (fun codec_id0 =>
       if codec_id0 =? 2 then Some "mpeg2video."%string else None)
    (store_unsigned "p.hsize") (store_unsigned "p.vsize")
    (store_unsigned "p.fps").


Definition signature0 : Z := 1635149427.

(** The pipe after [SET_URL]: the managers were obtained from the probes,
    the URL is open and the dealer is waiting. *)
Definition opened : world :=
  match upipe_avfsrc_control false signature0 env0
          (UPIPE_AVFSRC_SET_URL signature0 (Some "dvd.vob"%string))
          (upipe_avfsrc_alloc 8 4 8) with
  | Done _ w => w
  | Abort => upipe_avfsrc_alloc 0 0 0
  end.

Definition probed_world : world :=
  match upipe_avfsrc_probe env0 opened with
  | Done _ w => w
  | Abort => opened
  end.

Example opened_effects :
  effects opened =
  [Throw None UPROBE_READY; Throw None UPROBE_NEED_UREF_MGR;
   Throw None UPROBE_NEED_UPUMP_MGR; DealerStarted 1].
Proof. vm_compute. reflexivity. Qed.



(** Two sub-pipes are allocated; the first takes the video flow (id 0). *)
Definition video_flow_def : uref :=
  mk_uref [("f.def"%string, AttrString "block.mpeg2video.");
           ("a.id"%string, AttrUnsigned 0)] 6.

Definition two_outputs : world :=
  match run_all false signature0
          [(env0, OpOutputAlloc); (env0, OpOutputAlloc);
           (env0, OpOutputControl 3 (UPIPE_SET_FLOW_DEF video_flow_def));
           (env0, OpOutputControl 3 (UPIPE_SET_OUTPUT (Some 500%nat)))]
          probed_world with
  | Done _ w => w
  | Abort => probed_world
  end.

Example two_outputs_keys :
  output_keys two_outputs = [(3%nat, 0); (4%nat, UINT64_MAX)].
Proof. vm_compute. reflexivity. Qed.

Lemma two_outputs_ids_unique : ids_unique two_outputs.
Proof.
  apply (run_all_ids_unique false signature0
           [(env0, OpOutputAlloc); (env0, OpOutputAlloc);
            (env0, OpOutputControl 3 (UPIPE_SET_FLOW_DEF video_flow_def));
            (env0, OpOutputControl 3 (UPIPE_SET_OUTPUT (Some 500%nat)))]
           probed_world).
  - apply (run_ids_unique false signature0 env0 OpProbe opened).
    + apply (run_ids_unique false signature0 env0
               (OpControl (UPIPE_AVFSRC_SET_URL signature0
                             (Some "dvd.vob"%string)))
               (upipe_avfsrc_alloc 8 4 8)).
      * apply ids_unique_alloc.
      * vm_compute. reflexivity.
    + vm_compute. reflexivity.
  - vm_compute. reflexivity.
Qed.

(** The second sub-pipe asks for the id of the first and is refused. *)
Lemma stream_ids_unique_witness :
  exists w',
    upipe_avfsrc_output_control 4 (UPIPE_SET_FLOW_DEF video_flow_def)
      two_outputs = Done (false, NoResult) w' /\
    ids_unique w' /\
    (output_keys w' = output_keys two_outputs \/
     output_keys w' = set_key_id 4 UINT64_MAX (output_keys two_outputs)).
Proof.
  apply (proj2 (stream_ids_unique false signature0 two_outputs
                  two_outputs_ids_unique)
           4%nat video_flow_def 0
           (mk_output 3 0 (Some 500%nat) (Some video_flow_def) false None 1)).
  - vm_compute. reflexivity.
  - vm_compute. apply elem_of_cons. right. apply elem_of_cons. now left.
  - vm_compute. apply elem_of_cons. now left.
  - cbn. lia.
  - reflexivity.
Defined.

(** A packet of the video stream is given to the output of the first
    sub-pipe, after its flow definition; a packet of the subtitle stream is
    dropped. *)
Example worker_outputs_video_packet :
  match upipe_avfsrc_worker env0 0 (mk_packet 0 [71; 64; 17]) two_outputs with
  | Done _ w =>
      drop (length (effects two_outputs)) (effects w) =
      [Throw (Some 3%nat) (UPROBE_NEED_UBUF_MGR (Some video_flow_def));
       Input 500 (mk_packet_uref video_flow_def None None);
       Input 500 (mk_packet_uref (mk_uref [] 8) None (Some [71; 64; 17]))]
  | Abort => False
  end.
Proof. vm_compute. reflexivity. Qed.

Lemma worker_discards_unknown_stream_witness :
  upipe_avfsrc_worker env0 0 (mk_packet 1 [71; 64; 17]) two_outputs
  = Done tt two_outputs.
Proof.
  apply (worker_discards_unknown_stream env0 two_outputs 0
           (mk_packet 1 [71; 64; 17])).
  - lia.
  - intros o Ho. apply list_elem_of_In in Ho. vm_compute in Ho.
    destruct Ho as [<-|[<-|[]]]; vm_compute; discriminate.
Defined.

(** *** The life cycle of the source *)

(** The states of the pipe that the theorems below start from: a context
    is open exactly when a URL is recorded; while the dealer waits for the
    probe there is no worker, the pipe has not been probed, and it has a URL
    and a upump manager; a worker only runs on a pipe that has been probed
    and has a URL and a upump manager.  In particular the dealer and the
    worker do not exist together. *)
Definition lifecycle (s : upipe_avfsrc) : Prop :=
  (context s = None <-> url s = None) /\
  (upump_av_deal s <> None ->
     upump s = None /\ probed s = false /\ url s <> None /\
     upump_mgr s <> None) /\
  (upump s <> None ->
     probed s = true /\ url s <> None /\ upump_mgr s <> None).

(** *** Closing and reopening a URL *)

(** In what follows the effects are those of [effect]: the events thrown,
    the records output and the watchers started.  The messages that the
    pipe logs ([upipe_err], [upipe_notice], ...) are not among them. *)

(** [SET_URL] with a NULL URL closes everything, whatever the pipe was
    doing: the command returns true with no effect outside, the context
    and the URL are gone, the worker and the dealer are stopped, and
    [GET_URL] then yields NULL. *)
Theorem set_url_null_closes :
  forall (ndebug : bool) (signature : Z) (e : env) (w : world),
    lifecycle (pipe w) ->
    exists w',
      upipe_avfsrc_control ndebug signature e
        (UPIPE_AVFSRC_SET_URL signature None) w = Done (true, NoResult) w' /\
      url (pipe w') = None /\ context (pipe w') = None /\
      upump (pipe w') = None /\ upump_av_deal (pipe w') = None /\
      effects w' = effects w /\ outputs (pipe w') = outputs (pipe w) /\
      upipe_avfsrc_control ndebug signature e
        (UPIPE_AVFSRC_GET_URL signature true) w'
      = Done (true, ResultString None) w'.
Proof.
  intros ndebug signature e w (H1 & H2 & H3).
  unfold upipe_avfsrc_control, _upipe_avfsrc_control, _upipe_avfsrc_set_url,
    _upipe_avfsrc_get_url, upipe_avfsrc_set_upump, upipe_avfsrc_abort_av_deal,
    free_mem, modify, bind, get, ret.
  rewrite Z.eqb_refl. unfold c_assert. destruct ndebug.
  all: destruct w as [[urm um p uc outs u d opts c pr rc] ef hn hb ul dr].
  all: cbn in *.
  all: assert (Hnone : c = None -> p = None /\ d = None).
  1, 3: (intros Hcn; apply H1 in Hcn; split;
         [ destruct p; [|reflexivity]; destruct H3 as (_ & ? & _); congruence
         | destruct d; [|reflexivity];
           destruct H2 as (_ & _ & ? & _); congruence ]).
  all: destruct c as [ctx|]; cbn;
    [ destruct p, d
    | destruct (Hnone eq_refl) as [-> ->] ].
  all: cbn; rewrite ?andb_false_r; cbn;
    (eexists; split; [reflexivity|]); cbn;
    rewrite ?andb_false_r; cbn; split_and!; reflexivity.
Qed.

Lemma set_url_null_closes_witness :
  exists w',
    upipe_avfsrc_control false signature0 env0
      (UPIPE_AVFSRC_SET_URL signature0 None) probed_world
    = Done (true, NoResult) w' /\
    url (pipe w') = None /\ context (pipe w') = None /\
    upump (pipe w') = None /\ upump_av_deal (pipe w') = None /\
    effects w' = effects probed_world /\
    outputs (pipe w') = outputs (pipe probed_world) /\
    upipe_avfsrc_control false signature0 env0
      (UPIPE_AVFSRC_GET_URL signature0 true) w'
    = Done (true, ResultString None) w'.
Proof.
  apply (set_url_null_closes false signature0 env0 probed_world).
  unfold lifecycle. vm_compute. intuition congruence.
Defined.



(** *** Read errors *)

(** A read error stops the worker and throws [READ_END] with the URL, but
    closes nothing: the URL and the context stay, so that the next control
    command that succeeds (here [GET_URL]) starts the worker again.  That
    takes a new watcher: when none can be allocated the command throws
    [UPUMP_ERROR] and returns false, and the pipe stays without a worker. *)
Theorem read_error_stops_worker :
  forall (ndebug : bool) (signature : Z) (e : env) (w : world) (error : Z)
         (pkt : AVPacket) (pump : nat),
    lifecycle (pipe w) -> upump (pipe w) = Some pump -> error < 0 ->
    exists w1 w2,
      upipe_avfsrc_worker e error pkt w = Done tt w1 /\
      upump (pipe w1) = None /\
      url (pipe w1) = url (pipe w) /\ context (pipe w1) = context (pipe w) /\
      effects w1 = effects w ++ [Throw None (UPROBE_READ_END (url (pipe w)))] /\
      heap_budget w1 = heap_budget w /\
      upipe_avfsrc_control ndebug signature e
        (UPIPE_AVFSRC_GET_URL signature true) w1
      = Done (bool_decide (0 < heap_budget w)%nat,
              ResultString (url (pipe w))) w2 /\
      ((0 < heap_budget w)%nat ->
         upump (pipe w2) = Some (heap_next w) /\
         effects w2 = effects w1 ++ [WorkerStarted (heap_next w)]) /\
      (heap_budget w = 0%nat ->
         upump (pipe w2) = None /\
         effects w2 = effects w1 ++ [Throw None UPROBE_UPUMP_ERROR]).
Proof.
  intros ndebug signature e w error pkt pump (H1 & H2 & H3) Hp Herr.
  unfold upipe_avfsrc_worker, upipe_avfsrc_control, _upipe_avfsrc_control,
    _upipe_avfsrc_get_url, upipe_avfsrc_start, upipe_avfsrc_set_upump,
    upump_alloc_idler, upump_free, upipe_throw, emit, malloc, modify, bind,
    get, ret.
  rewrite Z.eqb_refl. unfold c_assert.
  replace (error <? 0) with true by (symmetry; apply Z.ltb_lt; lia).
  destruct ndebug.
  all: destruct w as [[urm um p uc outs u d opts c pr rc] ef hn hb ul dr].
  all: cbn in *; subst p.
  all: destruct H3 as (-> & Hu & Hm); [congruence|].
  all: destruct u as [u|]; [|congruence]; destruct um as [m|]; [|congruence].
  all: destruct hb as [|hb]; cbn;
    (eexists _, _; split; [reflexivity|]); cbn.
  all: split_and!; try reflexivity; intros; try lia; split; reflexivity.
Qed.

Lemma read_error_stops_worker_witness :
  exists w1 w2,
    upipe_avfsrc_worker env0 (-1) (mk_packet 0 []) probed_world = Done tt w1 /\
    upump (pipe w1) = None /\
    url (pipe w1) = url (pipe probed_world) /\
    context (pipe w1) = context (pipe probed_world) /\
    effects w1 =
      effects probed_world
      ++ [Throw None (UPROBE_READ_END (url (pipe probed_world)))] /\
    heap_budget w1 = heap_budget probed_world /\
    upipe_avfsrc_control false signature0 env0
      (UPIPE_AVFSRC_GET_URL signature0 true) w1
    = Done (bool_decide (0 < heap_budget probed_world)%nat,
            ResultString (url (pipe probed_world))) w2 /\
    ((0 < heap_budget probed_world)%nat ->
       upump (pipe w2) = Some (heap_next probed_world) /\
       effects w2 = effects w1 ++ [WorkerStarted (heap_next probed_world)]) /\
    (heap_budget probed_world = 0%nat ->
       upump (pipe w2) = None /\
       effects w2 = effects w1 ++ [Throw None UPROBE_UPUMP_ERROR]).
Proof.
  apply (read_error_stops_worker false signature0 env0 probed_world (-1)
           (mk_packet 0 []) 2).
  - unfold lifecycle. vm_compute. intuition congruence.
  - vm_compute. reflexivity.
  - lia.
Defined.

(** In the scenario memory is left, and the worker is started again. *)
Example read_error_restart :
  (0 < heap_budget probed_world)%nat.
Proof. vm_compute. lia. Qed.

(** *** Probes that announce nothing *)

(** When libavformat cannot find the stream information, the probe closes
    the URL and tells no probe: no event is thrown, no flow is announced and
    no worker is started; the pipe nevertheless counts as probed. *)
Theorem probe_failure_closes :
  forall (e : env) (w : world) (ctx : AVFormatContext),
    upipe_av_deal_grab e = true -> upipe_av_deal_yield e = true ->
    context (pipe w) = Some ctx -> avformat_find_stream_info e ctx < 0 ->
    exists w',
      upipe_avfsrc_probe e w = Done tt w' /\
      context (pipe w') = None /\ url (pipe w') = None /\
      probed (pipe w') = true /\ upump_av_deal (pipe w') = None /\
      upump (pipe w') = upump (pipe w) /\
      outputs (pipe w') = outputs (pipe w) /\
      effects w' = effects w.
Proof.
  intros e w ctx Hg Hy Hc Herr.
  unfold upipe_avfsrc_probe, upump_free, modify, bind, get, ret.
  rewrite Hg, Hc, Hy. cbn [negb].
  replace (_ <? 0) with true by (symmetry; apply Z.ltb_lt; lia).
  eexists. split; [reflexivity|]. cbn. split_and!; reflexivity.
Qed.

(** The surroundings of the scenario, with a container that cannot be
    probed. *)
Definition env_unprobed : env :=
  mk_env (Some 100%nat) (Some 200%nat) (fun _ => Some 300%nat)
    (fun _ _ => Some dvd_context) (fun _ => -1) 0 true true 1000 true
    (fun _ => None)
    (store_unsigned "p.hsize") (store_unsigned "p.vsize")
    (store_unsigned "p.fps").

Lemma probe_failure_closes_witness :
  exists w',
    upipe_avfsrc_probe env_unprobed opened = Done tt w' /\
    context (pipe w') = None /\ url (pipe w') = None /\
    probed (pipe w') = true /\ upump_av_deal (pipe w') = None /\
    upump (pipe w') = upump (pipe opened) /\
    outputs (pipe w') = outputs (pipe opened) /\
    effects w' = effects opened.
Proof.
  apply (probe_failure_closes env_unprobed opened dvd_context).
  - reflexivity.
  - reflexivity.
  - vm_compute. reflexivity.
  - cbn. lia.
Defined.

(** With no uref to be had, no stream gets a flow definition. *)
Lemma alloc_def_exhausted e c w m :
  uref_mgr (pipe w) = Some m -> urefs_left w = 0%nat ->
  alloc_def e c w = Done None w.
Proof.
  intros Hm Hn.
  assert (Ha : uref_alloc_control w = Done None w)
    by (unfold uref_alloc_control; now rewrite Hm, Hn).
  unfold alloc_def, alloc_raw_audio_def, alloc_audio_def, alloc_video_def,
    alloc_raw_video_def, alloc_subtitles_def, alloc_data_def,
    uref_sound_flow_alloc_def, uref_block_flow_alloc_def_va, bind, ret.
  destruct (codec_type c); try reflexivity.
  - destruct (codec_id c =? CODEC_ID_RAWVIDEO); [reflexivity|].
    destruct (upipe_av_to_flow_def e (codec_id c)); [|reflexivity].
    now rewrite Ha.
  - destruct (_ && _).
    + destruct (negb _); [reflexivity|]. now rewrite Ha.
    + destruct (upipe_av_to_flow_def e (codec_id c)); [|reflexivity].
      now rewrite Ha.
Qed.

Lemma probe_streams_exhausted e ss : forall i w m,
  uref_mgr (pipe w) = Some m -> urefs_left w = 0%nat ->
  probe_streams e ss i w = Done true w.
Proof.
  induction ss as [|s ss IH]; intros i w m Hm Hn; [reflexivity|].
  cbn [probe_streams]. unfold bind.
  rewrite (alloc_def_exhausted e (codec s) w m Hm Hn).
  now apply IH with m.
Qed.

(** When the uref manager is exhausted, the probe (the call-back of the
    dealer, which it frees) treats every stream as unsupported: it announces
    no flow and throws no allocation error, and goes on to start the
    worker, for which a watcher is allocated. *)
Theorem probe_without_urefs_is_silent :
  forall (e : env) (w : world) (ctx : AVFormatContext) (m pm d : nat),
    upipe_av_deal_grab e = true -> upipe_av_deal_yield e = true ->
    0 <= avformat_find_stream_info e ctx ->
    context (pipe w) = Some ctx ->
    uref_mgr (pipe w) = Some m -> upump_mgr (pipe w) = Some pm ->
    upump_av_deal (pipe w) = Some d ->
    urefs_left w = 0%nat ->
    (0 < heap_budget w)%nat ->
    exists w',
      upipe_avfsrc_probe e w = Done tt w' /\
      effects w' = effects w ++ [WorkerStarted (heap_next w)] /\
      upump (pipe w') = Some (heap_next w) /\
      upump_av_deal (pipe w') = None /\
      probed (pipe w') = true /\
      urefs_left w' = 0%nat.
Proof.
  intros e w ctx m pm d Hg Hy Herr Hc Hm Hpm Hd Hn Hb.
  unfold upipe_avfsrc_probe, upump_free, modify, bind at 1 2 3 4, get, ret.
  rewrite Hg, Hc, Hy. cbn [negb].
  replace (_ <? 0) with false by (symmetry; apply Z.ltb_ge; lia).
  unfold bind. cbn.
  rewrite (probe_streams_exhausted e (streams ctx) 0 _ m)
    by (cbn; assumption).
  unfold upipe_avfsrc_set_upump, upump_alloc_idler, upump_free, emit, modify,
    bind, get, malloc, ret.
  cbn. rewrite Hpm. cbn.
  destruct (heap_budget w) as [|hb]; [lia|]. cbn.
  destruct (upump (pipe w)); cbn;
    (eexists; split; [reflexivity|]; cbn; auto).
Qed.

Definition opened_exhausted : world :=
  set_urefs_left 0 opened.

Lemma probe_without_urefs_is_silent_witness :
  exists w',
    upipe_avfsrc_probe env0 opened_exhausted = Done tt w' /\
    effects w' =
      effects opened_exhausted ++ [WorkerStarted (heap_next opened_exhausted)] /\
    upump (pipe w') = Some (heap_next opened_exhausted) /\
    upump_av_deal (pipe w') = None /\
    probed (pipe w') = true /\
    urefs_left w' = 0%nat.
Proof.
  apply (probe_without_urefs_is_silent env0 opened_exhausted dvd_context
           100 200 1).
  - reflexivity.
  - reflexivity.
  - cbn. lia.
  - vm_compute. reflexivity.
  - vm_compute. reflexivity.
  - vm_compute. reflexivity.
  - vm_compute. reflexivity.
  - vm_compute. reflexivity.
  - vm_compute. lia.
Defined.

(** *** Sub-pipes: flow definitions and routing *)

(** [update_output] and the two searches of the list of outputs. *)
Lemma find_self_elem p l o :
  List.find (fun o => Nat.eqb (self o) p) l = Some o -> self o = p /\ o ∈ l.
Proof.
  intros H. apply find_some in H as [Hin He].
  split; [now apply Nat.eqb_eq | now apply list_elem_of_In].
Qed.

Lemma find_self_map p g l o :
  (forall x, self (g x) = self x) ->
  List.find (fun o => Nat.eqb (self o) p) l = Some o ->
  List.find (fun o => Nat.eqb (self o) p) (List.map g l) = Some (g o).
Proof.
  intros Hg. induction l as [|a l IH]; cbn; [discriminate|].
  rewrite Hg. destruct (Nat.eqb (self a) p); [congruence | exact IH].
Qed.

Lemma find_self_NoDup l o :
  NoDup (self <$> l) -> o ∈ l ->
  List.find (fun o' => Nat.eqb (self o') (self o)) l = Some o.
Proof.
  induction l as [|a l IH]; intros Hnd Ho; [inversion Ho|].
  rewrite fmap_cons in Hnd. apply NoDup_cons in Hnd as [Hna Hnd]. cbn.
  apply elem_of_cons in Ho as [->|Ho]; [now rewrite Nat.eqb_refl|].
  destruct (Nat.eqb (self a) (self o)) eqn:E; [|now apply IH].
  apply Nat.eqb_eq in E. exfalso. apply Hna. rewrite E.
  apply list_elem_of_fmap. eauto.
Qed.

Lemma find_id_elem i l o :
  List.find (fun o => id o =? i) l = Some o -> id o = i /\ o ∈ l.
Proof.
  intros H. apply find_some in H as [Hin He].
  split; [now apply Z.eqb_eq | now apply list_elem_of_In].
Qed.

Lemma update_only_self p f l :
  NoDup (self <$> l) ->
  forall o, o ∈ l -> self o = p -> f o = o ->
  List.map (fun o' => if Nat.eqb (self o') p then f o' else o') l = l.
Proof.
  intros Hnd o Ho Hs Hf.
  rewrite <- (map_id l) at 2. apply map_ext_in. intros a Ha.
  destruct (Nat.eqb (self a) p) eqn:E; [|reflexivity].
  apply Nat.eqb_eq in E. apply list_elem_of_In in Ha.
  assert (a = o); [|congruence].
  apply list_elem_of_lookup in Ha as [i Hi]. apply list_elem_of_lookup in Ho as [j Hj].
  assert (i = j); [|congruence].
  apply (NoDup_lookup (self <$> l) i j p); [exact Hnd | |].
  - rewrite list_lookup_fmap, Hi. cbn. congruence.
  - rewrite list_lookup_fmap, Hj. cbn. congruence.
Qed.

(** After every output at [p] has been given the id [i], which no other
    output has, the search for [i] ends where the search for [p] does. *)
Lemma find_id_map p i g l o :
  (forall x, self (g x) = self x) ->
  (forall x, self x <> p -> g x = x) ->
  (forall x, self x = p -> id (g x) = i) ->
  (forall x, x ∈ l -> self x <> p -> id x <> i) ->
  List.find (fun o => Nat.eqb (self o) p) l = Some o ->
  List.find (fun o => id o =? i) (List.map g l) = Some (g o).
Proof.
  intros Hs Hother Hid. induction l as [|a l IH]; intros Hl; cbn;
    [discriminate|].
  destruct (Nat.eqb (self a) p) eqn:E.
  - apply Nat.eqb_eq in E. intros [= <-]. rewrite (Hid a E), Z.eqb_refl.
    reflexivity.
  - apply Nat.eqb_neq in E. intros Hf. rewrite (Hother a E).
    assert (id a <> i) by (apply Hl; [apply elem_of_cons; now left | exact E]).
    replace (id a =? i) with false by (symmetry; now apply Z.eqb_neq).
    apply IH; [|exact Hf]. intros x Hx. apply Hl. apply elem_of_cons. now right.
Qed.

Lemma existsb_other_false p i g l :
  (forall x, self (g x) = self x) ->
  (forall x, self x <> p -> g x = x) ->
  (forall x, x ∈ l -> self x <> p -> id x <> i) ->
  existsb (fun o' => negb (Nat.eqb (self o') p) && (id o' =? i))
    (List.map g l) = false.
Proof.
  intros Hs Hother. induction l as [|a l IH]; intros Hl; [reflexivity|].
  cbn. rewrite Hs. rewrite IH
    by (intros x Hx; apply Hl; apply elem_of_cons; now right).
  destruct (Nat.eqb (self a) p) eqn:E; [reflexivity|].
  apply Nat.eqb_neq in E. rewrite (Hother a E).
  assert (id a <> i) by (apply Hl; [apply elem_of_cons; now left | exact E]).
  cbn. rewrite orb_false_r. now apply Z.eqb_neq.
Qed.

Lemma get_output_inv p w o w' :
  get_output p w = Done o w' ->
  List.find (fun o => Nat.eqb (self o) p) (outputs (pipe w)) = Some o.
Proof.
  unfold get_output. destruct (List.find _ _); [|discriminate]. congruence.
Qed.

(** [SET_FLOW_DEF] with a flow definition that carries no "a.id" fails, but
    not before it has dropped the flow definition that the sub-pipe had: the
    sub-pipe is left with no flow definition and no id, and the uref of the
    old flow definition has gone back to its manager. *)
Theorem set_flow_def_without_id_forgets :
  forall (p : nat) (flow_def0 : uref) (w : world) (o : upipe_avfsrc_output)
         (fd : uref),
    get_output p w = Done o w -> flow_def o = Some fd ->
    uref_av_flow_get_id flow_def0 = None ->
    exists w',
      upipe_avfsrc_output_set_flow_def p flow_def0 w = Done false w' /\
      get_output p w'
      = Done (mk_output p UINT64_MAX (output o) None false (ubuf_mgr o)
                (output_refcount o)) w' /\
      urefs_left w' = S (urefs_left w) /\ effects w' = effects w.
Proof.
  intros p fd0 w o fd Hget Hfd Hid.
  pose proof (get_output_inv _ _ _ _ Hget) as Hfind.
  destruct (find_self_elem _ _ _ Hfind) as [Hself _].
  unfold upipe_avfsrc_output_set_flow_def, upipe_avfsrc_output_store_flow_def,
    update_output, uref_free, modify, bind, get_output, ret.
  rewrite Hfind, Hfd, Hid. cbn. rewrite Hfind, Hfd. cbn.
  eexists. split; [reflexivity|]. cbn. rewrite map_map.
  split_and!; try reflexivity.
  erewrite find_self_map; [| |exact Hfind].
  - cbn. rewrite <- Hself, ?Nat.eqb_refl. cbn. rewrite ?Nat.eqb_refl.
    reflexivity.
  - intros x. destruct (Nat.eqb (self x) p) eqn:E; cbn; rewrite ?E;
      reflexivity.
Qed.

(** The first sub-pipe of [two_outputs]. *)
Definition video_output : upipe_avfsrc_output :=
  mk_output 3 0 (Some 500%nat) (Some video_flow_def) false None 1.

Lemma set_flow_def_without_id_forgets_witness :
  exists w',
    upipe_avfsrc_output_set_flow_def 3 (mk_uref [] 6) two_outputs
    = Done false w' /\
    get_output 3 w'
    = Done (mk_output 3 UINT64_MAX (Some 500%nat) None false None 1) w' /\
    urefs_left w' = S (urefs_left two_outputs) /\
    effects w' = effects two_outputs.
Proof.
  apply (set_flow_def_without_id_forgets 3 (mk_uref [] 6) two_outputs
           video_output video_flow_def);
    vm_compute; reflexivity.
Defined.

(** Case analysis on whether an output is the one that is updated. *)
Ltac upd_solve p :=
  let x := fresh "x" in
  let E := fresh "E" in
  intros x;
  try (let Hx := fresh "Hx" in intros Hx; try rewrite Hx;
       try apply Nat.eqb_neq in Hx);
  destruct (Nat.eqb (self x) p) eqn:E;
  repeat (progress (cbn; rewrite ?E, ?Nat.eqb_refl));
  try reflexivity; try congruence.

(** A successful [SET_FLOW_DEF] routes a stream: when no other output holds
    the id that the flow definition carries and a uref can be had, the
    command returns true and the search that the worker makes for this id
    ([upipe_avfsrc_find_output]) ends on this sub-pipe, which now holds a
    copy of the flow definition, not yet sent downstream. *)
Theorem set_flow_def_routes_stream :
  forall (p : nat) (flow_def0 : uref) (w : world) (o : upipe_avfsrc_output)
         (i : Z),
    get_output p w = Done o w ->
    uref_av_flow_get_id flow_def0 = Some i ->
    (forall o', o' ∈ outputs (pipe w) -> self o' <> p -> id o' <> i) ->
    (0 < urefs_left w)%nat ->
    exists w',
      upipe_avfsrc_output_set_flow_def p flow_def0 w = Done true w' /\
      upipe_avfsrc_find_output (pipe w') i
      = Some (mk_output p i (output o) (Some flow_def0) false (ubuf_mgr o)
                (output_refcount o)) /\
      effects w' = effects w /\
      urefs_left w'
      = match flow_def o with
        | Some _ => urefs_left w
        | None => Nat.pred (urefs_left w)
        end.
Proof.
  intros p fd0 w o i Hget Hid Hfree Hu.
  pose proof (get_output_inv _ _ _ _ Hget) as Hfind.
  destruct (find_self_elem _ _ _ Hfind) as [Hself _]. subst p.
  unfold upipe_avfsrc_output_set_flow_def, upipe_avfsrc_output_store_flow_def,
    update_output, uref_free, uref_dup, modify, bind, get, get_output, ret.
  destruct w as [[urm um pp uc outs u d opts c pr rc] ef hn hb ul dr].
  cbn in *. rewrite Hfind, Hid.
  destruct ul as [|ul]; [lia|].
  destruct (flow_def o) as [fd|] eqn:Hfd; cbn.
  - rewrite Hfind, Hfd. cbn. rewrite !map_map.
    rewrite existsb_other_false with (p := self o) (i := i);
      [| upd_solve (self o) | upd_solve (self o) | exact Hfree].
    cbn. rewrite !map_map.
    erewrite find_self_map; [| upd_solve (self o) | exact Hfind].
    repeat (progress (cbn; rewrite ?Nat.eqb_refl)).
    eexists. split; [reflexivity|]. cbn. rewrite !map_map.
    split_and!; try reflexivity.
    unfold upipe_avfsrc_find_output. cbn.
    erewrite find_id_map with (p := self o) (i := i);
      [| upd_solve (self o) | upd_solve (self o)
       | intros x Hx; apply Nat.eqb_eq in Hx;
         repeat (progress (cbn; rewrite ?Hx)); reflexivity
       | exact Hfree | exact Hfind].
    repeat (progress (cbn; rewrite ?Nat.eqb_refl)). reflexivity.
  - pose proof (existsb_other_false (self o) i (fun x => x) outs
                  (fun _ => eq_refl) (fun _ _ => eq_refl) Hfree) as Hex.
    rewrite map_id in Hex. rewrite Hex. cbn.
    erewrite find_self_map; [| upd_solve (self o) | exact Hfind].
    repeat (progress (cbn; rewrite ?Nat.eqb_refl, ?Hfd)).
    eexists. split; [reflexivity|]. cbn. rewrite !map_map.
    split_and!; try reflexivity.
    unfold upipe_avfsrc_find_output. cbn.
    erewrite find_id_map with (p := self o) (i := i);
      [| upd_solve (self o) | upd_solve (self o)
       | intros x Hx; apply Nat.eqb_eq in Hx;
         repeat (progress (cbn; rewrite ?Hx)); reflexivity
       | exact Hfree | exact Hfind].
    repeat (progress (cbn; rewrite ?Nat.eqb_refl)). reflexivity.
Qed.

Lemma set_flow_def_routes_stream_witness :
  exists w',
    upipe_avfsrc_output_set_flow_def 4
      (mk_uref [("a.id"%string, AttrUnsigned 1)] 6) two_outputs
    = Done true w' /\
    upipe_avfsrc_find_output (pipe w') 1
    = Some (mk_output 4 1 None
              (Some (mk_uref [("a.id"%string, AttrUnsigned 1)] 6)) false
              None 1) /\
    effects w' = effects two_outputs /\
    urefs_left w' = Nat.pred (urefs_left two_outputs).
Proof.
  apply (set_flow_def_routes_stream 4
           (mk_uref [("a.id"%string, AttrUnsigned 1)] 6) two_outputs
           (mk_output 4 UINT64_MAX None None false None 1) 1).
  - vm_compute. reflexivity.
  - vm_compute. reflexivity.
  - intros o' Ho'. vm_compute in Ho'.
    apply elem_of_cons in Ho' as [->|Ho'];
      [|apply elem_of_cons in Ho' as [->|Ho']; [|inversion Ho']].
    + intros _. cbn. discriminate.
    + intros H. now contradict H.
  - vm_compute. lia.
Defined.

(** *** Sub-pipes: allocation and release *)

Lemma delete_first_update_snoc p f l n :
  (forall x, x ∈ l -> self x <> p) -> self n = p ->
  (forall x, self (f x) = self x) ->
  ulist_delete_first p
    (List.map (fun o => if Nat.eqb (self o) p then f o else o) (l ++ [n]))
  = l.
Proof.
  intros Hl Hn Hfn. induction l as [|a l IH]; cbn.
  - rewrite Hn, Nat.eqb_refl, Hfn, Hn, Nat.eqb_refl. reflexivity.
  - assert (Ha : self a <> p) by (apply Hl; apply elem_of_cons; now left).
    apply Nat.eqb_neq in Ha. rewrite Ha, Ha. f_equal. apply IH.
    intros x Hx. apply Hl. apply elem_of_cons. now right.
Qed.

Lemma find_self_snoc p l n :
  (forall x, x ∈ l -> self x <> p) -> self n = p ->
  List.find (fun o => Nat.eqb (self o) p) (l ++ [n]) = Some n.
Proof.
  intros Hl Hn. induction l as [|a l IH]; cbn.
  - now rewrite Hn, Nat.eqb_refl.
  - assert (Ha : self a <> p) by (apply Hl; apply elem_of_cons; now left).
    apply Nat.eqb_neq in Ha. rewrite Ha. apply IH.
    intros x Hx. apply Hl. apply elem_of_cons. now right.
Qed.

(** Allocating a sub-pipe and releasing it at once is a round trip: the
    source pipe is as it was, with its list of outputs and its reference
    count, the memory is given back, and all that is seen from outside is
    the [READY] and the [DEAD] event of the sub-pipe. *)
Theorem output_alloc_release_round_trip :
  forall (w : world),
    (0 < heap_budget w)%nat ->
    (forall o, o ∈ outputs (pipe w) -> self o <> heap_next w) ->
    refcount (pipe w) <> 0 ->
    exists w1 w2,
      upipe_avfsrc_output_alloc w = Done (Some (heap_next w)) w1 /\
      upipe_avfsrc_output_release (heap_next w) w1 = Done tt w2 /\
      pipe w2 = pipe w /\
      heap_budget w2 = heap_budget w /\ urefs_left w2 = urefs_left w /\
      effects w2 =
        effects w ++ [Throw (Some (heap_next w)) UPROBE_READY;
                      Throw (Some (heap_next w)) UPROBE_DEAD].
Proof.
  intros w Hb Hfresh Hrc.
  unfold upipe_avfsrc_output_alloc, upipe_avfsrc_output_release,
    upipe_avfsrc_release, upipe_avfsrc_use, upipe_throw, emit, malloc,
    free_mem, update_output, get_output, modify, bind, get, ret.
  destruct w as [[urm um pp uc outs u d opts c pr rc] ef hn hb ul dr].
  cbn in *. destruct hb as [|hb]; [lia|]. cbn.
  eexists _, _. split; [reflexivity|]. cbn.
  rewrite (find_self_snoc hn outs
             (mk_output hn UINT64_MAX None None false None urefcount_init)
             Hfresh eq_refl). cbn.
  replace (urefcount_use rc =? 1) with false
    by (symmetry; apply Z.eqb_neq; unfold urefcount_use; lia).
  cbn. split; [reflexivity|]. cbn.
  rewrite delete_first_update_snoc with (l := outs);
    [| exact Hfresh | reflexivity | reflexivity].
  split_and!; try reflexivity.
  - unfold with_refcount, with_outputs, urefcount_use, urefcount in *. cbn.
    f_equal. lia.
  - rewrite <- app_assoc. reflexivity.
Qed.

Lemma output_alloc_release_round_trip_witness :
  exists w1 w2,
    upipe_avfsrc_output_alloc two_outputs
    = Done (Some (heap_next two_outputs)) w1 /\
    upipe_avfsrc_output_release (heap_next two_outputs) w1 = Done tt w2 /\
    pipe w2 = pipe two_outputs /\
    heap_budget w2 = heap_budget two_outputs /\
    urefs_left w2 = urefs_left two_outputs /\
    effects w2 =
      effects two_outputs
      ++ [Throw (Some (heap_next two_outputs)) UPROBE_READY;
          Throw (Some (heap_next two_outputs)) UPROBE_DEAD].
Proof.
  apply (output_alloc_release_round_trip two_outputs).
  - vm_compute. lia.
  - intros o Ho. vm_compute in Ho.
    apply elem_of_cons in Ho as [->|Ho];
      [|apply elem_of_cons in Ho as [->|Ho]; [|inversion Ho]];
      vm_compute; lia.
  - vm_compute. discriminate.
Defined.

(** *** The worker and the sub-pipes *)

(** A packet for a sub-pipe that has no ubuf manager, and gets none from
    the probes, is dropped: the sub-pipe throws [NEED_UBUF_MGR] with its
    flow definition and that is all; no uref is taken and no record is
    output. *)
Theorem worker_needs_ubuf_mgr :
  forall (e : env) (w : world) (error : Z) (pkt : AVPacket)
         (o : upipe_avfsrc_output),
    0 <= error ->
    NoDup (self <$> outputs (pipe w)) ->
    upipe_avfsrc_find_output (pipe w) (to_uint64 (stream_index pkt)) = Some o ->
    ubuf_mgr o = None -> probe_ubuf_mgr e (self o) = None ->
    exists w',
      upipe_avfsrc_worker e error pkt w = Done tt w' /\
      effects w' =
        effects w ++ [Throw (Some (self o)) (UPROBE_NEED_UBUF_MGR (flow_def o))] /\
      pipe w' = pipe w /\ urefs_left w' = urefs_left w.
Proof.
  intros e w error pkt o Herr Hnd Hfind Hm Hp.
  destruct (find_id_elem _ _ _ Hfind) as [_ Ho].
  pose proof (find_self_NoDup _ _ Hnd Ho) as Hself.
  unfold upipe_avfsrc_worker, upipe_throw, emit, update_output, get_output,
    modify, bind, get, ret.
  replace (error <? 0) with false by (symmetry; apply Z.ltb_ge; lia).
  rewrite Hfind, Hm, Hp.
  destruct w as [[urm um pp uc outs u d opts c pr rc] ef hn hb ul dr].
  cbn in *.
  assert (Hupd : List.map (fun o' => if Nat.eqb (self o') (self o)
                                     then with_ubuf_mgr None o' else o') outs
                 = outs).
  { apply (update_only_self (self o) (with_ubuf_mgr None) outs Hnd o Ho
             eq_refl).
    destruct o; unfold with_ubuf_mgr; cbn in *; congruence. }
  rewrite Hupd, Hself, Hm. eexists. split; [reflexivity|]. cbn.
  rewrite Hupd. split_and!; reflexivity.
Qed.

(** Surroundings whose probes have no ubuf manager to give. *)
Definition env_no_ubuf : env :=
  mk_env (Some 100%nat) (Some 200%nat) (fun _ => None)
    (fun _ _ => Some dvd_context) (fun _ => 0) 0 true true 1000 true
    (fun codec_id0 =>
       if codec_id0 =? 2 then Some "mpeg2video."%string else None)
    (store_unsigned "p.hsize") (store_unsigned "p.vsize")
    (store_unsigned "p.fps").

Lemma worker_needs_ubuf_mgr_witness :
  exists w',
    upipe_avfsrc_worker env_no_ubuf 0 (mk_packet 0 [1; 2; 3]) two_outputs
    = Done tt w' /\
    effects w' =
      effects two_outputs
      ++ [Throw (Some 3%nat) (UPROBE_NEED_UBUF_MGR (Some video_flow_def))] /\
    pipe w' = pipe two_outputs /\ urefs_left w' = urefs_left two_outputs.
Proof.
  apply (worker_needs_ubuf_mgr env_no_ubuf two_outputs 0
           (mk_packet 0 [1; 2; 3]) video_output).
  - lia.
  - refine (bool_decide_unpack _ _). vm_compute. exact I.
  - vm_compute. reflexivity.
  - reflexivity.
  - reflexivity.
Defined.

(** A packet for a sub-pipe that is ready (ubuf manager, output and flow
    definition) is delivered: the output receives the flow definition first
    if it has not had it yet, then one record with the octets of the packet,
    dated by the clock when the pipe has one.  One uref is taken for the
    record, and one for the copy of the flow definition. *)
Theorem worker_delivers_packet :
  forall (e : env) (w : world) (error : Z) (pkt : AVPacket)
         (o : upipe_avfsrc_output) (m out um : nat) (fd : uref),
    0 <= error ->
    NoDup (self <$> outputs (pipe w)) ->
    upipe_avfsrc_find_output (pipe w) (to_uint64 (stream_index pkt)) = Some o ->
    ubuf_mgr o = Some m -> output o = Some out -> flow_def o = Some fd ->
    uref_mgr (pipe w) = Some um -> uref_block_write_ok e = true ->
    ((if flow_def_sent o then 1 else 2) <= urefs_left w)%nat ->
    exists w',
      upipe_avfsrc_worker e error pkt w = Done tt w' /\
      effects w' =
        effects w
        ++ (if flow_def_sent o then []
            else [Input out (mk_packet_uref fd None None)])
        ++ [Input out
              (mk_packet_uref (mk_uref [] (dict_room w))
                 (match uclock (pipe w) with
                  | Some _ => Some (uclock_now e)
                  | None => None
                  end)
                 (Some (data pkt)))] /\
      urefs_left w' =
        (urefs_left w - (if flow_def_sent o then 1 else 2))%nat /\
      get_output (self o) w' = Done (with_flow_def (Some fd) true o) w'.
Proof.
  intros e w error pkt o m out um fd Herr Hnd Hfind Hm Hout Hfd Hum Hok Hu.
  destruct (find_id_elem _ _ _ Hfind) as [_ Ho].
  pose proof (find_self_NoDup _ _ Hnd Ho) as Hself.
  unfold upipe_avfsrc_worker, upipe_avfsrc_output_output, uref_block_alloc,
    uref_alloc_control, uref_dup, uref_free, upipe_throw, emit,
    update_output, get_output, modify, bind, get, ret.
  replace (error <? 0) with false by (symmetry; apply Z.ltb_ge; lia).
  rewrite Hfind, Hm, Hok.
  destruct w as [[urm umg pp uc outs u d opts c pr rc] ef hn hb ul dr].
  cbn in *. subst urm. rewrite Hself, Hm.
  destruct ul as [|ul]; [destruct (flow_def_sent o); lia|].
  cbn. rewrite Hself.
  destruct (flow_def_sent o) eqn:Hsent; cbn.
  - rewrite Hself, Hsent, Hout. cbn.
    eexists. split; [reflexivity|]. cbn.
    rewrite Hself. split_and!; try reflexivity.
    + destruct uc; reflexivity.
    + lia.
    + f_equal. destruct o; unfold with_flow_def; cbn in *; congruence.
  - rewrite Hout, Hfd. cbn.
    destruct ul as [|ul]; [lia|]. cbn.
    erewrite find_self_map; [| upd_solve (self o) | exact Hself].
    repeat (progress (cbn; rewrite ?Nat.eqb_refl, ?Hout)).
    eexists. split; [reflexivity|]. cbn.
    erewrite find_self_map; [| upd_solve (self o) | exact Hself].
    rewrite Nat.eqb_refl.
    split_and!; try reflexivity.
    + rewrite <- app_assoc. cbn. destruct uc; reflexivity.
    + lia.
Qed.

(** The first sub-pipe of [two_outputs], once it has a ubuf manager. *)
Definition two_outputs_ready : world :=
  match upipe_avfsrc_output_set_ubuf_mgr 3 (Some 300%nat) two_outputs with
  | Done _ w => w
  | Abort => two_outputs
  end.

Lemma worker_delivers_packet_witness :
  exists w',
    upipe_avfsrc_worker env0 0 (mk_packet 0 [1; 2; 3]) two_outputs_ready
    = Done tt w' /\
    effects w' =
      effects two_outputs_ready
      ++ [Input 500 (mk_packet_uref video_flow_def None None)]
      ++ [Input 500
            (mk_packet_uref (mk_uref [] (dict_room two_outputs_ready)) None
               (Some [1; 2; 3]))] /\
    urefs_left w' = (urefs_left two_outputs_ready - 2)%nat /\
    get_output 3 w'
    = Done (with_flow_def (Some video_flow_def) true
              (with_ubuf_mgr (Some 300%nat) video_output)) w'.
Proof.
  apply (worker_delivers_packet env0 two_outputs_ready 0
           (mk_packet 0 [1; 2; 3])
           (with_ubuf_mgr (Some 300%nat) video_output)
           300 500 100 video_flow_def).
  - lia.
  - refine (bool_decide_unpack _ _). vm_compute. exact I.
  - vm_compute. reflexivity.
  - reflexivity.
  - reflexivity.
  - reflexivity.
  - vm_compute. reflexivity.
  - reflexivity.
  - vm_compute. lia.
Defined.
End Avfsrc.

(** * The transfer pipe: commands crossing event loops

    Only the header of the transfer module is part of the sources at hand: it
    declares [upipe_xfer_mgr_alloc], [upipe_xfer_mgr_attach],
    [upipe_xfer_mgr_detach] and [upipe_xfer_alloc].  The queue behind them is
    described by the specification, and is modelled from it.  Threads are
    modelled by interleaving: every push to and pop from the FIFO is one
    atomic event of a run. *)
Module Xfer.

(** Modelled from the spec: the commands are [RELEASE(pipe)],
    [SET_OUTPUT(pipe, target)] and [SET_URI(pipe, str)]. *)
Inductive command : Type :=
| RELEASE (pipe : nat)
| SET_OUTPUT (pipe target : nat)
| SET_URI (pipe : nat) (uri : string).

Definition command_pipe (c : command) : nat :=
  match c with
  | RELEASE p => p
  | SET_OUTPUT p _ => p
  | SET_URI p _ => p
  end.

(** Modelled from the spec: a message of the FIFO carries a command, or is
    the terminal message injected by detach.  The ticket of a command is the
    number of commands enqueued before it; it names the submission in the
    statements below and no operation reads it. *)
Inductive message : Type :=
| Apply (ticket : nat) (c : command)
| Terminal.

(** Modelled from the spec: the three phases of a manager. *)
Inductive phase : Type :=
| Unattached
| Attached (upump_mgr : nat)
| Detached.

Inductive failure : Type :=
| NotAttached
| WrongState
| QueueFull.

(** A transferred pipe, as far as the commands can tell. *)
Record remote : Type := mk_remote {
  refcount : Z;
  output : option nat;
  uri : option string
}.

(** The manager, the pipes it was given, and two logs: the commands accepted
    by the FIFO in the order of their acceptance, and the commands applied
    by the watcher in the order of their application. *)
Record world : Type := mk_world {
  queue_length : nat;
  msg_pool_depth : nat;
  mgr_phase : phase;
  fifo : list message;
  watcher : option nat;
  pipes : gmap nat remote;
  enqueued : list command;
  applied : list (nat * command)
}.

(** [upipe_xfer_mgr_alloc(uint8_t queue_length, uint16_t msg_pool_depth)];
    Modelled from the spec: the manager is constructed unattached, its queue
    is created empty, and there is no event loop. *)
Definition upipe_xfer_mgr_alloc (queue_length0 msg_pool_depth0 : Z)
    (ps : gmap nat remote) : world :=
  mk_world (Z.to_nat (to_uint8 queue_length0))
    (Z.to_nat (msg_pool_depth0 mod 2 ^ 16)) Unattached [] None ps [] [].

(** Modelled from the spec: [push] rejects when the FIFO is full. *)
Definition ufifo_push (w : world) (m : message) : option (list message) :=
  if (length (fifo w) <? queue_length w)%nat then Some (fifo w ++ [m])
  else None.

Definition upipe_use (p : nat) (ps : gmap nat remote) : gmap nat remote :=
  alter (fun r => mk_remote (refcount r + 1) (output r) (uri r)) p ps.

(** The pipe is gone when its last reference is released. *)
Definition upipe_release (p : nat) (ps : gmap nat remote) : gmap nat remote :=
  match ps !! p with
  | Some r =>
      if refcount r =? 1 then delete p ps
      else <[p := mk_remote (refcount r - 1) (output r) (uri r)]> ps
  | None => ps
  end.

(** Modelled from the spec: attach installs the watcher on the event loop;
    attaching a manager that is attached or was detached is refused. *)
Definition upipe_xfer_mgr_attach (upump_mgr : nat) (w : world)
    : world * option failure :=
  match mgr_phase w with
  | Unattached =>
      (mk_world (queue_length w) (msg_pool_depth w) (Attached upump_mgr)
         (fifo w) (Some upump_mgr) (pipes w) (enqueued w) (applied w), None)
  | _ => (w, Some WrongState)
  end.

(** Modelled from the spec: detach poisons further submissions and injects
    the terminal message. *)
Definition upipe_xfer_mgr_detach (w : world) : world * option failure :=
  match mgr_phase w with
  | Attached _ =>
      match ufifo_push w Terminal with
      | Some q =>
          (mk_world (queue_length w) (msg_pool_depth w) Detached q
             (watcher w) (pipes w) (enqueued w) (applied w), None)
      | None => (w, Some QueueFull)
      end
  | _ => (w, Some WrongState)
  end.

(** Modelled from the spec: a control or release of the proxy is translated
    into an enqueued command; the reference count of the pipe is bumped when
    the command is enqueued.  Submissions fail before attach and after
    detach, and when the FIFO is full. *)
Definition upipe_xfer_submit (c : command) (w : world)
    : world * option failure :=
  match mgr_phase w with
  | Unattached => (w, Some NotAttached)
  | Detached => (w, Some WrongState)
  | Attached _ =>
      match ufifo_push w (Apply (length (enqueued w)) c) with
      | Some q =>
          (mk_world (queue_length w) (msg_pool_depth w) (mgr_phase w) q
             (watcher w) (upipe_use (command_pipe c) (pipes w))
             (enqueued w ++ [c]) (applied w), None)
      | None => (w, Some QueueFull)
      end
  end.

Definition apply_command (c : command) (ps : gmap nat remote)
    : gmap nat remote :=
  match c with
  | RELEASE p => upipe_release p ps
  | SET_OUTPUT p target =>
      alter (fun r => mk_remote (refcount r) (Some target) (uri r)) p ps
  | SET_URI p s =>
      alter (fun r => mk_remote (refcount r) (output r) (Some s)) p ps
  end.

(** Modelled from the spec: the watcher pops the message at the head of the
    FIFO; a command is applied and the reference taken for it is dropped;
    the terminal message stops the watcher. *)
Definition upipe_xfer_mgr_worker (w : world) : world :=
  match watcher w, fifo w with
  | Some _, Apply t c :: q =>
      mk_world (queue_length w) (msg_pool_depth w) (mgr_phase w) q
        (watcher w)
        (upipe_release (command_pipe c) (apply_command c (pipes w)))
        (enqueued w) (applied w ++ [(t, c)])
  | Some _, Terminal :: q =>
      mk_world (queue_length w) (msg_pool_depth w) (mgr_phase w) q None
        (pipes w) (enqueued w) (applied w)
  | _, _ => w
  end.

(** The atomic events of a run, whatever the thread they happen on. *)
Inductive event : Type :=
| Attach (upump_mgr : nat)
| Detach
| Submit (c : command)
| Fire.

Definition step (w : world) (ev : event) : world :=
  match ev with
  | Attach m => fst (upipe_xfer_mgr_attach m w)
  | Detach => fst (upipe_xfer_mgr_detach w)
  | Submit c => fst (upipe_xfer_submit c w)
  | Fire => upipe_xfer_mgr_worker w
  end.

Definition run (evs : list event) (w : world) : world := foldl step w evs.

(** The commands still in the FIFO, with their tickets. *)
Fixpoint pending (q : list message) : list (nat * command) :=
  match q with
  | [] => []
  | Apply t c :: q' => (t, c) :: pending q'
  | Terminal :: q' => pending q'
  end.

Definition ticketed (cs : list command) : list (nat * command) :=
  imap (fun t c => (t, c)) cs.

(** What was applied, followed by what waits in the FIFO, is what was
    enqueued, in the order of the tickets. *)
Definition fifo_inv (w : world) : Prop :=
  applied w ++ pending (fifo w) = ticketed (enqueued w).

Lemma pending_app (q1 q2 : list message) :
  pending (q1 ++ q2) = pending q1 ++ pending q2.
Proof.
  induction q1 as [|[t c|] q1 IH]; cbn; [reflexivity| |exact IH].
  now rewrite IH.
Qed.

Lemma ticketed_snoc (cs : list command) (c : command) :
  ticketed (cs ++ [c]) = ticketed cs ++ [(length cs, c)].
Proof.
  unfold ticketed. rewrite imap_app. cbn. now rewrite Nat.add_0_r.
Qed.

Lemma fifo_inv_alloc (ql depth : Z) (ps : gmap nat remote) :
  fifo_inv (upipe_xfer_mgr_alloc ql depth ps).
Proof. reflexivity. Qed.

Lemma fifo_inv_step (w : world) (ev : event) :
  fifo_inv w -> fifo_inv (step w ev).
Proof.
  unfold fifo_inv. intros Hw. destruct ev as [m| |c|]; cbn.
  - unfold upipe_xfer_mgr_attach. destruct (mgr_phase w); exact Hw.
  - unfold upipe_xfer_mgr_detach, ufifo_push.
    destruct (mgr_phase w); try exact Hw.
    destruct (_ <? _)%nat; cbn; [|exact Hw].
    rewrite pending_app. cbn. now rewrite app_nil_r.
  - unfold upipe_xfer_submit, ufifo_push.
    destruct (mgr_phase w); try exact Hw.
    destruct (_ <? _)%nat; cbn; [|exact Hw].
    rewrite pending_app, ticketed_snoc, app_assoc, Hw. reflexivity.
  - unfold upipe_xfer_mgr_worker.
    destruct (watcher w); [|exact Hw].
    destruct (fifo w) as [|[t c|] q] eqn:Hq; rewrite ?Hq; cbn in *;
      try exact Hw.
    now rewrite <- app_assoc.
Qed.

Lemma fifo_inv_run (evs : list event) (w : world) :
  fifo_inv w -> fifo_inv (run evs w).
Proof.
  revert w. induction evs as [|ev evs IH]; intros w Hw; [exact Hw|].
  apply IH, fifo_inv_step, Hw.
Qed.

(** The [k]-th command applied is the [k]-th command enqueued. *)
Lemma applied_is_prefix (w : world) (k t : nat) (c : command) :
  fifo_inv w ->
  applied w !! k = Some (t, c) -> t = k /\ enqueued w !! k = Some c.
Proof.
  intros Hw Hk.
  assert (H : ticketed (enqueued w) !! k = Some (t, c)).
  { rewrite <- Hw. apply lookup_app_l_Some, Hk. }
  unfold ticketed in H. rewrite list_lookup_imap in H.
  destruct (enqueued w !! k) as [c'|]; cbn in H; [|discriminate].
  injection H as <- <-. auto.
Qed.

Lemma applied_earlier (w : world) (t1 k2 : nat) (s1 : command) :
  fifo_inv w ->
  enqueued w !! t1 = Some s1 -> (t1 < k2)%nat ->
  (k2 < length (applied w))%nat ->
  applied w !! t1 = Some (t1, s1).
Proof.
  intros Hw H1 Hlt Hk2.
  assert (H : ticketed (enqueued w) !! t1 = Some (t1, s1)).
  { unfold ticketed. rewrite list_lookup_imap, H1. reflexivity. }
  rewrite <- Hw, lookup_app_l in H by lia. exact H.
Qed.

(** Once attached, the watcher applies everything that waits in the FIFO,
    in order, when it fires often enough. *)
Lemma worker_drains (w : world) (m : nat) :
  watcher w = Some m -> Forall (fun x => x <> Terminal) (fifo w) ->
  applied (run (replicate (length (fifo w)) Fire) w)
    = applied w ++ pending (fifo w) /\
  fifo (run (replicate (length (fifo w)) Fire) w) = [].
Proof.
  remember (fifo w) as q eqn:Hq. revert w Hq.
  induction q as [|x q IH]; intros w Hq Hw Hall.
  - cbn. rewrite app_nil_r. auto.
  - apply Forall_cons in Hall as [Hx Hall].
    destruct x as [t c|]; [|congruence].
    cbn [length replicate run foldl step].
    unfold upipe_xfer_mgr_worker. rewrite Hw, <- Hq.
    match goal with
    | |- context [foldl step ?w1 _] =>
        destruct (IH w1 eq_refl eq_refl Hall) as [Ha Hf]
    end.
    unfold run in Ha, Hf. rewrite Ha, Hf. cbn. rewrite <- app_assoc. auto.
Qed.

(** The references that the commands waiting in the FIFO hold on pipe [p]:
    one for each of them. *)
Fixpoint holds (p : nat) (l : list (nat * command)) : Z :=
  match l with
  | [] => 0
  | (_, c) :: l' => (if Nat.eqb (command_pipe c) p then 1 else 0) + holds p l'
  end.

(** Modelled from the spec: what a command does to the pipes when it is
    carried out directly, on the thread of the pipes and with no queue in
    between.  [RELEASE] drops one reference, and the pipe is gone with its
    last one; [SET_OUTPUT] and [SET_URI] store their argument in a pipe that
    exists.  This is the reference the queue is compared with; it is written
    without [apply_command] and [upipe_release]. *)
Definition direct (ps : gmap nat remote) (c : command) : gmap nat remote :=
  match ps !! command_pipe c with
  | None => ps
  | Some r =>
      match c with
      | RELEASE p =>
          if 1 <? refcount r
          then <[p := mk_remote (refcount r - 1) (output r) (uri r)]> ps
          else delete p ps
      | SET_OUTPUT p target =>
          <[p := mk_remote (refcount r) (Some target) (uri r)]> ps
      | SET_URI p s =>
          <[p := mk_remote (refcount r) (output r) (Some s)]> ps
      end
  end.

(** The pipes of the world follow the pipes [seq] of a direct execution: a
    pipe alive in [seq] is alive in the world, with the same output and URI
    and with one more reference for each command that waits for it; a pipe
    gone from [seq] is gone from the world, or is kept by the references of
    the commands that wait for it. *)
Definition tracked (seq : gmap nat remote) (w : world) : Prop :=
  forall p : nat,
    match seq !! p with
    | Some rs =>
        1 <= refcount rs /\
        pipes w !! p
          = Some (mk_remote (refcount rs + holds p (pending (fifo w)))
                    (output rs) (uri rs))
    | None =>
        match pipes w !! p with
        | Some rt => 1 <= refcount rt <= holds p (pending (fifo w))
        | None => True
        end
    end.

Lemma holds_nonneg (p : nat) (l : list (nat * command)) : 0 <= holds p l.
Proof.
  induction l as [|[t c] l IH]; cbn; [lia|].
  destruct (Nat.eqb _ _); lia.
Qed.

Lemma holds_app (p : nat) (l1 l2 : list (nat * command)) :
  holds p (l1 ++ l2) = holds p l1 + holds p l2.
Proof.
  induction l1 as [|[t c] l1 IH]; cbn; [reflexivity|]. rewrite IH. lia.
Qed.

Lemma upipe_release_lookup (p : nat) (ps : gmap nat remote) :
  upipe_release p ps !! p
  = match ps !! p with
    | Some r =>
        if refcount r =? 1 then None
        else Some (mk_remote (refcount r - 1) (output r) (uri r))
    | None => None
    end.
Proof.
  unfold upipe_release. destruct (ps !! p) as [r|] eqn:Hp; [|exact Hp].
  destruct (refcount r =? 1).
  - apply lookup_delete_eq.
  - apply lookup_insert_eq.
Qed.

Lemma upipe_release_other (p q : nat) (ps : gmap nat remote) :
  q <> p -> upipe_release q ps !! p = ps !! p.
Proof.
  intros Hne. unfold upipe_release. destruct (ps !! q) as [r|]; [|reflexivity].
  destruct (refcount r =? 1).
  - now apply lookup_delete_ne.
  - now apply lookup_insert_ne.
Qed.

Lemma apply_command_other (c : command) (p : nat) (ps : gmap nat remote) :
  command_pipe c <> p -> apply_command c ps !! p = ps !! p.
Proof.
  intros Hne. destruct c as [q|q t|q s]; cbn in *.
  - now apply upipe_release_other.
  - now apply lookup_alter_ne.
  - now apply lookup_alter_ne.
Qed.

Lemma direct_other (c : command) (p : nat) (ps : gmap nat remote) :
  command_pipe c <> p -> direct ps c !! p = ps !! p.
Proof.
  intros Hne. unfold direct.
  destruct (ps !! command_pipe c) as [r|]; [|reflexivity].
  destruct c as [q|q t|q s]; cbn in *.
  - destruct (1 <? refcount r).
    + now apply lookup_insert_ne.
    + now apply lookup_delete_ne.
  - now apply lookup_insert_ne.
  - now apply lookup_insert_ne.
Qed.

Lemma direct_lookup (c : command) (ps : gmap nat remote) :
  direct ps c !! command_pipe c
  = match ps !! command_pipe c with
    | None => None
    | Some r =>
        match c with
        | RELEASE _ =>
            if 1 <? refcount r
            then Some (mk_remote (refcount r - 1) (output r) (uri r))
            else None
        | SET_OUTPUT _ target =>
            Some (mk_remote (refcount r) (Some target) (uri r))
        | SET_URI _ s => Some (mk_remote (refcount r) (output r) (Some s))
        end
    end.
Proof.
  unfold direct. destruct (ps !! command_pipe c) as [r|] eqn:Hp; [|exact Hp].
  destruct c as [q|q t|q s]; cbn in *.
  - destruct (1 <? refcount r).
    + apply lookup_insert_eq.
    + apply lookup_delete_eq.
  - apply lookup_insert_eq.
  - apply lookup_insert_eq.
Qed.

Lemma served_lookup (c : command) (ps : gmap nat remote) :
  upipe_release (command_pipe c) (apply_command c ps) !! command_pipe c
  = match ps !! command_pipe c with
    | None => None
    | Some r =>
        match c with
        | RELEASE _ =>
            if refcount r =? 1 then None
            else if refcount r - 1 =? 1 then None
            else Some (mk_remote (refcount r - 1 - 1) (output r) (uri r))
        | SET_OUTPUT _ target =>
            if refcount r =? 1 then None
            else Some (mk_remote (refcount r - 1) (Some target) (uri r))
        | SET_URI _ s =>
            if refcount r =? 1 then None
            else Some (mk_remote (refcount r - 1) (output r) (Some s))
        end
    end.
Proof.
  rewrite upipe_release_lookup.
  destruct c as [q|q t|q s]; cbn.
  - rewrite upipe_release_lookup. destruct (ps !! q) as [r|]; [|reflexivity].
    destruct (refcount r =? 1); reflexivity.
  - rewrite lookup_alter_eq. destruct (ps !! q) as [r|]; reflexivity.
  - rewrite lookup_alter_eq. destruct (ps !! q) as [r|]; reflexivity.
Qed.

Lemma tracked_alloc (ql depth : Z) (ps : gmap nat remote) :
  map_Forall (fun _ r => 1 <= refcount r) ps ->
  tracked ps (upipe_xfer_mgr_alloc ql depth ps).
Proof.
  intros Hps p. cbn. destruct (ps !! p) as [r|] eqn:Hp; [|exact I].
  split; [exact (Hps p r Hp)|]. destruct r as [rc o u]; cbn.
  now rewrite Z.add_0_r.
Qed.

(** Enqueueing a command takes a reference for it. *)
Lemma tracked_submit (seq : gmap nat remote) (w : world) (c : command) :
  tracked seq w -> tracked seq (fst (upipe_xfer_submit c w)).
Proof.
  intros Hw. unfold upipe_xfer_submit, ufifo_push.
  destruct (mgr_phase w); try exact Hw.
  destruct (_ <? _)%nat; cbn; [|exact Hw].
  intros p. specialize (Hw p). cbn. rewrite pending_app, holds_app. cbn.
  unfold upipe_use.
  destruct (Nat.eqb (command_pipe c) p) eqn:Hc.
  - apply Nat.eqb_eq in Hc. subst p. rewrite lookup_alter_eq.
    destruct (seq !! command_pipe c) as [rs|].
    + destruct Hw as [Hpos ->]. split; [exact Hpos|]. cbn.
      do 2 f_equal. lia.
    + destruct (pipes w !! command_pipe c) as [rt|]; cbn; [lia|exact I].
  - apply Nat.eqb_neq in Hc. rewrite lookup_alter_ne by exact Hc.
    rewrite Z.add_0_r. exact Hw.
Qed.

(** Case analysis on the first comparison of integers of the goal. *)
Ltac case_order :=
  match goal with
  | |- context [?a =? ?b] => destruct (Z.eqb_spec a b)
  | |- context [?a <? ?b] => destruct (Z.ltb_spec a b)
  end.

(** Applying the command at the head of the FIFO, and dropping its
    reference, is one step of the direct execution. *)
Lemma tracked_worker (seq : gmap nat remote) (w : world) (m t : nat)
    (c : command) (q : list message) :
  tracked seq w -> watcher w = Some m -> fifo w = Apply t c :: q ->
  tracked (direct seq c) (upipe_xfer_mgr_worker w).
Proof.
  intros Hw Hm Hq p. specialize (Hw p).
  unfold upipe_xfer_mgr_worker. rewrite Hm, Hq. rewrite Hq in Hw.
  cbn in *. pose proof (holds_nonneg p (pending q)) as Hh.
  destruct (Nat.eqb (command_pipe c) p) eqn:Hc.
  - apply Nat.eqb_eq in Hc. subst p.
    rewrite served_lookup, direct_lookup.
    destruct (seq !! command_pipe c) as [rs|].
    + destruct Hw as [Hpos ->].
      destruct c as [r|r o|r s]; cbn in *;
        repeat case_order; cbn;
        first [ exact I | lia | exfalso; lia
              | split; [lia | do 2 f_equal; lia] ].
    + destruct (pipes w !! command_pipe c) as [rt|]; [|exact I].
      destruct c as [r|r o|r s]; cbn in *;
        repeat case_order; cbn; first [ exact I | lia ].
  - apply Nat.eqb_neq in Hc.
    rewrite upipe_release_other, apply_command_other, direct_other
      by exact Hc.
    rewrite Z.add_0_l in Hw. exact Hw.
Qed.

(** The pipes follow the direct execution of the commands applied so far. *)
Definition follows (ps : gmap nat remote) (w : world) : Prop :=
  tracked (foldl direct ps (snd <$> applied w)) w.

Lemma follows_step (ps : gmap nat remote) (w : world) (ev : event) :
  follows ps w -> follows ps (step w ev).
Proof.
  unfold follows. intros Hw. destruct ev as [m| |c|]; cbn.
  - unfold upipe_xfer_mgr_attach. destruct (mgr_phase w); exact Hw.
  - unfold upipe_xfer_mgr_detach, ufifo_push.
    destruct (mgr_phase w); try exact Hw.
    destruct (_ <? _)%nat; cbn; [|exact Hw].
    intros p. specialize (Hw p). cbn.
    rewrite pending_app. cbn. rewrite app_nil_r. exact Hw.
  - assert (Ha : applied (fst (upipe_xfer_submit c w)) = applied w).
    { unfold upipe_xfer_submit, ufifo_push.
      destruct (mgr_phase w); try reflexivity.
      destruct (_ <? _)%nat; reflexivity. }
    rewrite Ha. apply tracked_submit, Hw.
  - destruct (watcher w) as [m|] eqn:Hm.
    + destruct (fifo w) as [|[t c|] q] eqn:Hq.
      * unfold upipe_xfer_mgr_worker. rewrite Hm, Hq. exact Hw.
      * assert (Ha : applied (upipe_xfer_mgr_worker w)
                     = applied w ++ [(t, c)]).
        { unfold upipe_xfer_mgr_worker. now rewrite Hm, Hq. }
        rewrite Ha, fmap_app, foldl_app. cbn.
        exact (tracked_worker _ w m t c q Hw Hm Hq).
      * unfold upipe_xfer_mgr_worker. rewrite Hm, Hq.
        intros p. specialize (Hw p). rewrite Hq in Hw. exact Hw.
    + unfold upipe_xfer_mgr_worker. rewrite Hm. exact Hw.
Qed.

Lemma follows_run (ps : gmap nat remote) (evs : list event) (w : world) :
  follows ps w -> follows ps (run evs w).
Proof.
  revert w. induction evs as [|ev evs IH]; intros w Hw; [exact Hw|].
  apply IH, follows_step, Hw.
Qed.

(** The commands applied are the first of the commands enqueued. *)
Lemma applied_take (w : world) :
  fifo_inv w -> snd <$> applied w = take (length (applied w)) (enqueued w).
Proof.
  intros Hw.
  assert (Hs : forall cs : list command, snd <$> ticketed cs = cs).
  { intros cs. unfold ticketed. apply list_eq. intros i.
    rewrite list_lookup_fmap, list_lookup_imap.
    destruct (cs !! i); reflexivity. }
  rewrite <- (Hs (enqueued w)), <- Hw, fmap_app.
  rewrite take_app_length'; [reflexivity|]. now rewrite length_fmap.
Qed.

(** A pipe that no command waits for is as the direct execution leaves it. *)
Lemma tracked_settled (seq : gmap nat remote) (w : world) (p : nat) :
  tracked seq w -> holds p (pending (fifo w)) = 0 -> pipes w !! p = seq !! p.
Proof.
  intros Hw Hp. specialize (Hw p). rewrite Hp in Hw.
  destruct (seq !! p) as [[rc o u]|].
  - destruct Hw as [_ ->]. cbn. now rewrite Z.add_0_r.
  - destruct (pipes w !! p) as [rt|]; [lia|reflexivity].
Qed.

(** C8: in every run of a transfer manager, whatever the interleaving of
    submissions, attach, detach and firings of the watcher: if [s1] was
    enqueued before [s2] (it holds the smaller ticket) and [s2] has been
    applied, then [s1] was applied before it, whatever the two commands are,
    a [RELEASE] and an earlier command on its pipe included.  And the order
    shows on the pipes: when they start with at least one reference each,
    the pipes follow ([tracked]) the direct execution, in enqueue order, of
    the commands applied so far, which are the first commands enqueued; a
    pipe that no command of the FIFO waits for is exactly as that execution
    leaves it; and once the FIFO holds no command, all the pipes are as all
    the commands enqueued leave them when carried out directly and in
    enqueue order. *)
Theorem transfer_fifo_order :
  forall (ql depth : Z) (ps : gmap nat remote) (evs : list event),
    (forall (t1 t2 k2 : nat) (s1 s2 : command),
       enqueued (run evs (upipe_xfer_mgr_alloc ql depth ps)) !! t1 = Some s1 ->
       enqueued (run evs (upipe_xfer_mgr_alloc ql depth ps)) !! t2 = Some s2 ->
       (t1 < t2)%nat ->
       applied (run evs (upipe_xfer_mgr_alloc ql depth ps)) !! k2
         = Some (t2, s2) ->
       exists k1, (k1 < k2)%nat /\
         applied (run evs (upipe_xfer_mgr_alloc ql depth ps)) !! k1
           = Some (t1, s1)) /\
    (map_Forall (fun _ r => 1 <= refcount r) ps ->
     tracked
       (foldl direct ps
          (take (length (applied (run evs
                                    (upipe_xfer_mgr_alloc ql depth ps))))
             (enqueued (run evs (upipe_xfer_mgr_alloc ql depth ps)))))
       (run evs (upipe_xfer_mgr_alloc ql depth ps)) /\
     (forall p : nat,
        holds p (pending (fifo (run evs (upipe_xfer_mgr_alloc ql depth ps))))
          = 0 ->
        pipes (run evs (upipe_xfer_mgr_alloc ql depth ps)) !! p
        = foldl direct ps
            (take (length (applied (run evs
                                      (upipe_xfer_mgr_alloc ql depth ps))))
               (enqueued (run evs (upipe_xfer_mgr_alloc ql depth ps))))
            !! p) /\
     (pending (fifo (run evs (upipe_xfer_mgr_alloc ql depth ps))) = [] ->
      pipes (run evs (upipe_xfer_mgr_alloc ql depth ps))
      = foldl direct ps
          (enqueued (run evs (upipe_xfer_mgr_alloc ql depth ps))))).
Proof.
  intros ql depth ps evs.
  pose proof (fifo_inv_run evs _ (fifo_inv_alloc ql depth ps)) as Hinv.
  split.
  - intros t1 t2 k2 s1 s2 H1 H2 Hlt Hk2.
    destruct (applied_is_prefix _ _ _ _ Hinv Hk2) as [-> _].
    exists t1. split; [exact Hlt|].
    apply (applied_earlier _ t1 k2 s1 Hinv H1 Hlt).
    apply lookup_lt_Some in Hk2. exact Hk2.
  - intros Hps.
    pose proof (follows_run ps evs _ (tracked_alloc ql depth ps Hps)) as Hf.
    unfold follows in Hf. rewrite applied_take in Hf by exact Hinv.
    split_and!.
    + exact Hf.
    + intros p Hp. apply tracked_settled; [exact Hf|exact Hp].
    + intros Hq. apply map_eq. intros p.
      rewrite take_ge in Hf.
      * apply tracked_settled; [exact Hf|now rewrite Hq].
      * apply (f_equal length) in Hinv.
        rewrite Hq, app_nil_r in Hinv. unfold ticketed in Hinv.
        rewrite length_imap in Hinv. lia.
Qed.

(** *** Scenario: SET_OUTPUT then RELEASE

    Pipe 7 is created with one reference; the manager is attached to event
    loop 1; [SET_OUTPUT(7, 9)] and [RELEASE(7)] are submitted, then the
    watcher fires twice. *)
Definition one_pipe : gmap nat remote := {[ 7%nat := mk_remote 1 None None ]}.

Definition release_run : list event :=
  [Attach 1; Submit (SET_OUTPUT 7 9); Submit (RELEASE 7); Fire; Fire].

Example release_run_applied :
  applied (run release_run (upipe_xfer_mgr_alloc 4 4 one_pipe))
  = [(0%nat, SET_OUTPUT 7 9); (1%nat, RELEASE 7)].
Proof. reflexivity. Qed.

(** The output is set on a pipe that is still alive; the pipe is gone once
    the release was applied. *)
Example release_run_pipe :
  pipes (run (take 4 release_run) (upipe_xfer_mgr_alloc 4 4 one_pipe))
    !! 7%nat = Some (mk_remote 2 (Some 9%nat) None) /\
  pipes (run release_run (upipe_xfer_mgr_alloc 4 4 one_pipe)) !! 7%nat = None.
Proof. split; vm_compute; reflexivity. Qed.

(** Carried out directly, the first command leaves the pipe with its output
    set and its one reference, and the second one ends it. *)
Example release_run_direct :
  foldl direct one_pipe [SET_OUTPUT 7 9] !! 7%nat
    = Some (mk_remote 1 (Some 9%nat) None) /\
  foldl direct one_pipe [SET_OUTPUT 7 9; RELEASE 7] !! 7%nat = None.
Proof. split; vm_compute; reflexivity. Qed.

(** Before attach a submission fails, and so does one after detach. *)
Example submit_needs_attached :
  snd (upipe_xfer_submit (RELEASE 7) (upipe_xfer_mgr_alloc 4 4 one_pipe))
    = Some NotAttached /\
  snd (upipe_xfer_submit (RELEASE 7)
         (run [Attach 1; Detach] (upipe_xfer_mgr_alloc 4 4 one_pipe)))
    = Some WrongState /\
  snd (upipe_xfer_mgr_attach 2
         (run [Attach 1; Detach] (upipe_xfer_mgr_alloc 4 4 one_pipe)))
    = Some WrongState.
Proof. split_and!; reflexivity. Qed.

Lemma one_pipe_referenced : map_Forall (fun _ r => 1 <= refcount r) one_pipe.
Proof. apply map_Forall_singleton. cbn. lia. Qed.

Lemma transfer_fifo_order_witness :
  (exists k1, (k1 < 1)%nat /\
     applied (run release_run (upipe_xfer_mgr_alloc 4 4 one_pipe)) !! k1
       = Some (0%nat, SET_OUTPUT 7 9)) /\
  tracked (foldl direct one_pipe [SET_OUTPUT 7 9])
    (run (take 4 release_run) (upipe_xfer_mgr_alloc 4 4 one_pipe)) /\
  pipes (run release_run (upipe_xfer_mgr_alloc 4 4 one_pipe)) !! 7%nat
  = foldl direct one_pipe [SET_OUTPUT 7 9; RELEASE 7] !! 7%nat /\
  pipes (run release_run (upipe_xfer_mgr_alloc 4 4 one_pipe))
  = foldl direct one_pipe [SET_OUTPUT 7 9; RELEASE 7].
Proof.
  split_and!.
  - apply (proj1 (transfer_fifo_order 4 4 one_pipe release_run) 0%nat 1%nat
             1%nat (SET_OUTPUT 7 9) (RELEASE 7)).
    + reflexivity.
    + reflexivity.
    + lia.
    + reflexivity.
  - exact (proj1 (proj2 (transfer_fifo_order 4 4 one_pipe
                           (take 4 release_run)) one_pipe_referenced)).
  - apply (proj1 (proj2 (proj2 (transfer_fifo_order 4 4 one_pipe release_run)
                           one_pipe_referenced)) 7%nat).
    reflexivity.
  - apply (proj2 (proj2 (proj2 (transfer_fifo_order 4 4 one_pipe release_run)
                           one_pipe_referenced))).
    reflexivity.
Defined.

End Xfer.

(** * Further properties of the picture flow definitions *)

Module PicFlowFacts.

Import PicFlow.

(** An attribute that was set reads back, and the other attributes are
    untouched. *)
Lemma udict_get_set_same u name a :
  fst (uref_attr_set u name a) = true ->
  udict_get (udict (snd (uref_attr_set u name a))) name (attr_type a) = Some a.
Proof.
  unfold uref_attr_set.
  destruct (udict_get (udict u) name (attr_type a)) eqn:E;
    cbn [fst snd udict udict_room].
  - intros _. apply Avfsrc.udict_get_replace_same. rewrite E. eauto.
  - destruct (udict_room u); cbn [fst snd udict udict_room]; [discriminate|].
    intros _. rewrite Avfsrc.udict_get_app, E.
    assert (Hm : attr_matches name (attr_type a) (name, a) = true)
      by (now apply Avfsrc.attr_matches_spec).
    now rewrite Hm.
Qed.

Lemma udict_get_set_other u name a name' ty :
  name' <> name ->
  udict_get (udict (snd (uref_attr_set u name a))) name' ty
  = udict_get (udict u) name' ty.
Proof.
  intros Hne. unfold uref_attr_set.
  destruct (udict_get (udict u) name (attr_type a));
    cbn [fst snd udict udict_room].
  - now apply Avfsrc.udict_get_replace_other.
  - destruct (udict_room u); cbn [fst snd udict udict_room]; [reflexivity|].
    rewrite Avfsrc.udict_get_app.
    destruct (udict_get (udict u) name' ty); [reflexivity|].
    assert (H1 : attr_matches name' ty (name, a) = false).
    { apply not_true_iff_false. rewrite Avfsrc.attr_matches_spec. cbn.
      intuition. }
    now rewrite H1.
Qed.

Lemma get_small_unsigned_set_same u name v :
  fst (uref_attr_set u name (AttrSmallUnsigned v)) = true ->
  uref_attr_get_small_unsigned
    (snd (uref_attr_set u name (AttrSmallUnsigned v))) name = Some v.
Proof.
  intros H. unfold uref_attr_get_small_unsigned.
  pose proof (udict_get_set_same u name (AttrSmallUnsigned v) H) as E.
  cbn [attr_type] in E. now rewrite E.
Qed.

Lemma get_small_unsigned_set_other u name a name' :
  name' <> name ->
  uref_attr_get_small_unsigned (snd (uref_attr_set u name a)) name'
  = uref_attr_get_small_unsigned u name'.
Proof.
  intros H. unfold uref_attr_get_small_unsigned.
  now rewrite udict_get_set_other.
Qed.

Lemma get_string_set_same u name v :
  fst (uref_attr_set u name (AttrString v)) = true ->
  uref_attr_get_string (snd (uref_attr_set u name (AttrString v))) name
  = Some v.
Proof.
  intros H. unfold uref_attr_get_string.
  pose proof (udict_get_set_same u name (AttrString v) H) as E.
  cbn [attr_type] in E. now rewrite E.
Qed.


Lemma and_then_true r k u' :
  and_then r k = (true, u') -> fst r = true /\ k (snd r) = (true, u').
Proof.
  unfold and_then. destruct (fst r); [auto | discriminate].
Qed.

Lemma to_uint8_idem z : to_uint8 (to_uint8 z) = to_uint8 z.
Proof. unfold to_uint8. apply Z.mod_mod. discriminate. Qed.

(** The names of the attributes of a plane differ from one another and from
    "p.planes": they part at their third character. *)
Lemma plane_names_distinct (plane : Z) :
  "p.planes"%string <> hsub_name plane /\
  "p.planes"%string <> vsub_name plane /\
  "p.planes"%string <> macropix_name plane /\
  "p.planes"%string <> chroma_name plane /\
  hsub_name plane <> vsub_name plane /\
  hsub_name plane <> macropix_name plane /\
  hsub_name plane <> chroma_name plane /\
  vsub_name plane <> macropix_name plane /\
  vsub_name plane <> chroma_name plane /\
  macropix_name plane <> chroma_name plane.
Proof.
  unfold hsub_name, vsub_name, macropix_name, chroma_name.
  split_and!; cbn; intros H; discriminate H.
Qed.

(** When [uref_pic_flow_add_plane] returns true, the packet had a
    "p.planes" count [plane]; afterwards the count is [plane + 1] (as a
    [uint8_t]: it wraps to 0 after 255), the chroma of plane [plane] reads
    back as it was given, and its subsamplings and macropixel size read back
    as the [uint8_t] values of the arguments, none of which is 0. *)
Theorem uref_pic_flow_add_plane_registers :
  forall (u u' : uref) (hsub vsub macropixel_size : Z) (chroma : string),
    uref_pic_flow_add_plane u hsub vsub macropixel_size (Some chroma)
      = (true, u') ->
    exists plane,
      uref_pic_flow_get_planes u = Some plane /\
      uref_pic_flow_get_planes u' = Some (to_uint8 (plane + 1)) /\
      uref_pic_flow_get_hsubsampling u' plane = Some (to_uint8 hsub) /\
      uref_pic_flow_get_vsubsampling u' plane = Some (to_uint8 vsub) /\
      uref_pic_flow_get_macropixel_size u' plane
        = Some (to_uint8 macropixel_size) /\
      uref_pic_flow_get_chroma u' plane = Some chroma /\
      to_uint8 hsub <> 0 /\ to_uint8 vsub <> 0 /\
      to_uint8 macropixel_size <> 0.
Proof.
  intros u u' hsub vsub mps chroma. unfold uref_pic_flow_add_plane.
  cbv zeta.
  destruct (to_uint8 hsub =? 0) eqn:Eh; [discriminate|].
  destruct (to_uint8 vsub =? 0) eqn:Ev; [discriminate|].
  destruct (to_uint8 mps =? 0) eqn:Em; [discriminate|].
  cbn [orb].
  destruct (uref_pic_flow_get_planes u) as [plane|]; [|discriminate].
  intros H.
  apply and_then_true in H as [H1 H].
  apply and_then_true in H as [H2 H].
  apply and_then_true in H as [H3 H].
  apply and_then_true in H as [H4 H].
  unfold uref_pic_flow_set_planes, uref_pic_flow_set_hsubsampling,
    uref_pic_flow_set_vsubsampling, uref_pic_flow_set_macropixel_size,
    uref_pic_flow_set_chroma in *.
  set (u1 := snd (uref_attr_set u "p.planes" _)) in *.
  set (u2 := snd (uref_attr_set u1 (hsub_name plane) _)) in *.
  set (u3 := snd (uref_attr_set u2 (vsub_name plane) _)) in *.
  set (u4 := snd (uref_attr_set u3 (macropix_name plane) _)) in *.
  assert (H5 : fst (uref_attr_set u4 (chroma_name plane) (AttrString chroma))
               = true) by (now rewrite H).
  assert (Eu' : u' = snd (uref_attr_set u4 (chroma_name plane)
                            (AttrString chroma))) by (now rewrite H).
  destruct (plane_names_distinct plane)
    as (N1 & N2 & N3 & N4 & N5 & N6 & N7 & N8 & N9 & N10).
  exists plane. split; [reflexivity|].
  unfold uref_pic_flow_get_planes, uref_pic_flow_get_hsubsampling,
    uref_pic_flow_get_vsubsampling, uref_pic_flow_get_macropixel_size,
    uref_pic_flow_get_chroma.
  subst u'. split_and!; try (apply Z.eqb_neq; assumption).
  - rewrite get_small_unsigned_set_other by assumption.
    subst u4. rewrite get_small_unsigned_set_other by assumption.
    subst u3. rewrite get_small_unsigned_set_other by assumption.
    subst u2. rewrite get_small_unsigned_set_other by assumption.
    subst u1. now apply get_small_unsigned_set_same.
  - rewrite get_small_unsigned_set_other by assumption.
    subst u4. rewrite get_small_unsigned_set_other by assumption.
    subst u3. rewrite get_small_unsigned_set_other by assumption.
    subst u2. rewrite <- (to_uint8_idem hsub) at 2.
    now apply get_small_unsigned_set_same.
  - rewrite get_small_unsigned_set_other by assumption.
    subst u4. rewrite get_small_unsigned_set_other by assumption.
    subst u3. rewrite <- (to_uint8_idem vsub) at 2.
    now apply get_small_unsigned_set_same.
  - rewrite get_small_unsigned_set_other by assumption.
    subst u4. rewrite <- (to_uint8_idem mps) at 2.
    now apply get_small_unsigned_set_same.
  - now apply get_string_set_same.
Qed.

(** The packet of the scenario: a fresh picture flow definition. *)
Definition fresh_def : uref :=
  default (mk_uref [] 0) (uref_pic_flow_alloc_def 20 1).

Definition with_y8 : uref :=
  snd (uref_pic_flow_add_plane fresh_def 1 1 1 (Some "y8"%string)).

Lemma uref_pic_flow_add_plane_registers_witness :
  exists plane,
    uref_pic_flow_get_planes fresh_def = Some plane /\
    uref_pic_flow_get_planes with_y8 = Some (to_uint8 (plane + 1)) /\
    uref_pic_flow_get_hsubsampling with_y8 plane = Some (to_uint8 1) /\
    uref_pic_flow_get_vsubsampling with_y8 plane = Some (to_uint8 1) /\
    uref_pic_flow_get_macropixel_size with_y8 plane = Some (to_uint8 1) /\
    uref_pic_flow_get_chroma with_y8 plane = Some "y8"%string /\
    to_uint8 1 <> 0 /\ to_uint8 1 <> 0 /\ to_uint8 1 <> 0.
Proof.
  apply (uref_pic_flow_add_plane_registers fresh_def with_y8 1 1 1 "y8").
  vm_compute. reflexivity.
Defined.

(** *** Finding a plane by its chroma *)

Lemma find_chroma_from_spec u chroma : forall todo start p,
  find_chroma_from u chroma start todo = Some p <->
  start <= p < start + Z.of_nat todo /\
  uref_pic_flow_get_chroma u p = Some chroma /\
  forall q, start <= q < p ->
    exists c, uref_pic_flow_get_chroma u q = Some c /\ c <> chroma.
Proof.
  induction todo as [|todo IH]; intros start p; cbn [find_chroma_from].
  - split; [discriminate | lia].
  - destruct (uref_pic_flow_get_chroma u start) as [c|] eqn:Ec.
    + destruct (String.eqb_spec chroma c) as [<-|Hne].
      * split.
        -- intros [= <-]. refine (conj _ (conj Ec _)); [lia|]. intros q Hq. lia.
        -- intros (Hp & Hc & Hq).
           destruct (decide (p = start)) as [->|Hps]; [reflexivity|].
           destruct (Hq start) as (c' & Hc' & Hne'); [lia|]. congruence.
      * rewrite IH. split.
        -- intros (Hp & Hc & Hq). refine (conj _ (conj Hc _)); [lia|].
           intros q Hq'. destruct (decide (q = start)) as [->|Hqs].
           ++ exists c. split; [exact Ec | congruence].
           ++ apply Hq. lia.
        -- intros (Hp & Hc & Hq).
           assert (p <> start) by congruence.
           refine (conj _ (conj Hc _)); [lia|]. intros q Hq'. apply Hq. lia.
    + split; [discriminate|]. intros (Hp & Hc & Hq).
      destruct (decide (p = start)) as [->|Hps]; [congruence|].
      destruct (Hq start) as (c' & Hc' & _); [lia|]. congruence.
Qed.

(** [uref_pic_flow_find_chroma] returns plane [p] exactly when the packet
    has a count of planes above [p], plane [p] has the chroma asked for, and
    every plane before it has another chroma: it finds the first plane of
    that chroma, and fails when a plane before it lacks its chroma
    attribute. *)
Theorem uref_pic_flow_find_chroma_first :
  forall (u : uref) (chroma : string) (p : Z),
    uref_pic_flow_find_chroma u chroma = Some p <->
    exists planes,
      uref_pic_flow_get_planes u = Some planes /\
      0 <= p < planes /\
      uref_pic_flow_get_chroma u p = Some chroma /\
      forall q, 0 <= q < p ->
        exists c, uref_pic_flow_get_chroma u q = Some c /\ c <> chroma.
Proof.
  intros u chroma p. unfold uref_pic_flow_find_chroma.
  destruct (uref_pic_flow_get_planes u) as [planes|].
  - rewrite find_chroma_from_spec. split.
    + intros (Hp & Hc & Hq). exists planes.
      refine (conj eq_refl (conj _ (conj Hc _))); [lia|].
      intros q Hq'. apply Hq. lia.
    + intros (planes' & [= <-] & Hp & Hc & Hq).
      refine (conj _ (conj Hc _)); [lia|]. intros q Hq'. apply Hq. lia.
  - split; [discriminate|]. intros (planes & [=] & _).
Qed.

(** *** Registering a plane, then finding it *)








(** The arguments are [uint8_t]: 256 arrives as 0 and is refused. *)
Example add_plane_256_is_zero :
  uref_pic_flow_add_plane fresh_def 256 1 1 (Some "y8"%string)
  = (false, fresh_def).
Proof. vm_compute. reflexivity. Qed.

(** The bound on the count of planes is needed: on a packet that counts 255
    planes the registration goes through, the count wraps around to 0 and
    the plane cannot be found. *)
Definition full_def : uref :=
  snd (uref_pic_flow_set_planes fresh_def 255).

Example add_plane_wraps_at_255 :
  let r := uref_pic_flow_add_plane full_def 1 1 1 (Some "y8"%string) in
  fst r = true /\ uref_pic_flow_get_planes (snd r) = Some 0 /\
  uref_pic_flow_find_chroma (snd r) "y8" = None.
Proof. vm_compute. split_and!; reflexivity. Qed.

End PicFlowFacts.
